(** * Asistent-Restaurant: the tenant directory, the user-deletion policy
      and the tenant-scoped store of [src/lib/server/actions.ts], with the
      login form, the dashboard's session handling and the connection
      singleton that use them

    The server actions are embedded over an explicit database state.  Each
    table of [db/schema.ts] is a list of rows in insertion order; a server
    action is a function from the database to an outcome (a value or a
    thrown error) and the database it leaves behind.

    Conventions of the embedding:
    - [crypto.randomUUID()] is an input of the action that calls it;
    - a [decimal(10,2)] column holds an integer number of hundredths;
    - SQL equality on [varchar] columns is equality of strings;
    - the constraints declared by the schema (primary keys, the UNIQUE index
      on [users.email], the foreign keys to [restaurants.id]) are enforced by
      the storage primitives, which throw the driver's error. *)

From Stdlib Require Import String List ZArith Bool Arith Lia.
Import ListNotations.
Open Scope string_scope.
Open Scope list_scope.

(** ** Schema *)

(** [mysqlEnum('role', ['superadmin', 'admin', 'seller', 'waiter'])] *)
Inductive Role : Type := superadmin | admin | seller | waiter.

Definition role_eqb (a b : Role) : bool :=
  match a, b with
  | superadmin, superadmin | admin, admin
  | seller, seller | waiter, waiter => true
  | _, _ => false
  end.

(** [mysqlEnum('status', ['paid', 'pending'])] *)
Inductive Status : Type := paid | pending.

(** A [decimal(10,2)] value, in hundredths. *)
Definition Decimal : Type := Z.

(** [Number(x)] on a decimal column: the same amount, in hundredths. *)
Definition Number (d : Decimal) : Z := d.

Record Restaurant : Type := mkRestaurant {
  r_id : string;
  r_name : string;
  r_address : string;
  r_phone : string
}.

Record User : Type := mkUser {
  u_id : string;
  u_name : string;
  u_email : string;
  u_password : string;
  u_role : Role;
  u_restaurantId : string
}.

Record Category : Type := mkCategory {
  c_id : string;
  c_name : string;
  c_restaurantId : string
}.

Record Product : Type := mkProduct {
  p_id : string;
  p_name : string;
  p_price : Decimal;
  p_category : string;
  p_restaurantId : string
}.

Record Customer : Type := mkCustomer {
  cu_id : string;
  cu_name : string;
  cu_email : string;
  cu_phone : string;
  cu_restaurantId : string
}.

Record Purchase : Type := mkPurchase {
  pu_id : string;
  pu_productName : string;
  pu_supplier : option string;
  pu_quantity : Z;
  pu_unitPrice : Decimal;
  pu_purchaseDate : Z;
  pu_restaurantId : string
}.

(** One entry of the JSON column [sales.items]. *)
Record OrderItem : Type := mkOrderItem {
  oi_id : string;
  oi_name : string;
  oi_price : Decimal;
  oi_quantity : Z
}.

Record Sale : Type := mkSale {
  s_id : string;
  s_customerName : string;
  s_tableNumber : string;
  s_items : list OrderItem;
  s_totalPrice : Decimal;
  s_saleDate : Z;
  s_userId : string;
  s_userName : string;
  s_restaurantId : string;
  s_status : Status
}.

(** The database: one list of rows per table. *)
Record Db : Type := mkDb {
  restaurants : list Restaurant;
  users : list User;
  categories : list Category;
  products : list Product;
  customers : list Customer;
  purchases : list Purchase;
  sales : list Sale
}.

Definition emptyDb : Db := mkDb [] [] [] [] [] [] [].

Definition set_restaurants (l : list Restaurant) (db : Db) : Db :=
  mkDb l (users db) (categories db) (products db) (customers db)
       (purchases db) (sales db).

Definition set_users (l : list User) (db : Db) : Db :=
  mkDb (restaurants db) l (categories db) (products db) (customers db)
       (purchases db) (sales db).

Definition set_sales (l : list Sale) (db : Db) : Db :=
  mkDb (restaurants db) (users db) (categories db) (products db)
       (customers db) (purchases db) l.

(** ** Errors and the action monad *)

(** The errors the actions throw (each [new Error(...)] of [actions.ts], by
    its message) and the two the storage raises for a violated constraint. *)
Inductive Error : Type :=
  | EmailInUseByAnotherUser   (* "... ya esta en uso por otro usuario en el sistema." *)
  | EmailInUse                (* "... ya esta en uso en el sistema." *)
  | EmailRegisteredByAnother  (* "... ya esta registrado por otro usuario." *)
  | CannotDeleteOwnAccount    (* "No puedes eliminar tu propia cuenta de usuario." *)
  | UserDoesNotExist          (* "El usuario que intentas eliminar no existe." *)
  | OnlySuperadmin            (* "No se puede eliminar al unico superadministrador ..." *)
  | CannotDeleteAdministrator (* "No tienes permisos para eliminar a un administrador." *)
  | OnlyUserOfRestaurant      (* "No se puede eliminar al unico usuario de un restaurante. ..." *)
  | CannotDeleteUsers         (* "No tienes permisos para eliminar usuarios." *)
  | ER_DUP_ENTRY              (* primary key or UNIQUE index violated *)
  | ER_NO_REFERENCED_ROW.     (* foreign key violated *)

Inductive Outcome (A : Type) : Type :=
  | Ok (a : A)
  | Throw (e : Error).
Arguments Ok {A} a.
Arguments Throw {A} e.

(** An action runs on a database and leaves a database; when it throws, the
    database is the one reached at the [throw]. *)
Definition Action (A : Type) : Type := Db -> Outcome A * Db.

Definition ret {A} (a : A) : Action A := fun db => (Ok a, db).

Definition throw {A} (e : Error) : Action A := fun db => (Throw e, db).

Definition bind {A B} (m : Action A) (k : A -> Action B) : Action B :=
  fun db =>
    match m db with
    | (Ok a, db') => k a db'
    | (Throw e, db') => (Throw e, db')
    end.

(** A read-only query. *)
Definition query {A} (q : Db -> A) : Action A := fun db => (Ok (q db), db).

(** [db.transaction(body)]: a throw inside the body rolls every write of the
    body back. *)
Definition transaction {A} (body : Action A) : Action A :=
  fun db =>
    match body db with
    | (Ok a, db') => (Ok a, db')
    | (Throw e, _) => (Throw e, db)
    end.

Declare Scope action_scope.
Delimit Scope action_scope with action.
Notation "x <- m ;; k" := (bind m (fun x => k))
  (at level 61, m at next level, right associativity) : action_scope.
Notation "m ;;; k" := (bind m (fun _ => k))
  (at level 61, right associativity) : action_scope.
Open Scope action_scope.

(** ** Storage primitives *)

(** [select count() ... where p] *)
Definition count {A} (p : A -> bool) (rows : list A) : nat :=
  length (filter p rows).

(** [findFirst({ where: p })] *)
Definition findFirst {A} (p : A -> bool) (rows : list A) : option A :=
  find p rows.

Definition restaurantExists (rid : string) (db : Db) : bool :=
  existsb (fun r => r_id r =? rid) (restaurants db).

(** [insert(restaurants).values(r)] *)
Definition insertRestaurant (r : Restaurant) : Action unit :=
  fun db =>
    if existsb (fun x => r_id x =? r_id r) (restaurants db)
    then (Throw ER_DUP_ENTRY, db)
    else (Ok tt, set_restaurants (restaurants db ++ [r]) db).

(** [insert(users).values(u)] *)
Definition insertUser (u : User) : Action unit :=
  fun db =>
    if existsb (fun x => u_id x =? u_id u) (users db)
    then (Throw ER_DUP_ENTRY, db)
    else if existsb (fun x => u_email x =? u_email u) (users db)
    then (Throw ER_DUP_ENTRY, db)
    else if negb (restaurantExists (u_restaurantId u) db)
    then (Throw ER_NO_REFERENCED_ROW, db)
    else (Ok tt, set_users (users db ++ [u]) db).

(** [Partial<Omit<User, 'id'>>]: the fields an update may carry. *)
Record UserFields : Type := mkUserFields {
  f_name : option string;
  f_email : option string;
  f_password : option string;
  f_role : option Role;
  f_restaurantId : option string
}.

Definition noFields : UserFields := mkUserFields None None None None None.

Definition orElse {A} (o : option A) (d : A) : A :=
  match o with Some a => a | None => d end.

(** The row after [set(fields)]: a supplied field replaces the column, an
    absent one leaves it. *)
Definition setFields (f : UserFields) (u : User) : User :=
  mkUser (u_id u)
         (orElse (f_name f) (u_name u))
         (orElse (f_email f) (u_email u))
         (orElse (f_password f) (u_password u))
         (orElse (f_role f) (u_role u))
         (orElse (f_restaurantId f) (u_restaurantId u)).

(** [update(users).set(fields).where(eq(users.id, id))] *)
Definition updateUsers (id : string) (f : UserFields) : Action unit :=
  fun db =>
    if negb (existsb (fun u => u_id u =? id) (users db))
    then (Ok tt, db)
    else if match f_email f with
            | Some e => existsb (fun u => (u_email u =? e) && negb (u_id u =? id))
                                (users db)
            | None => false
            end
    then (Throw ER_DUP_ENTRY, db)
    else if match f_restaurantId f with
            | Some rid => negb (restaurantExists rid db)
            | None => false
            end
    then (Throw ER_NO_REFERENCED_ROW, db)
    else (Ok tt,
          set_users (map (fun u => if u_id u =? id then setFields f u else u)
                         (users db)) db).


(** [delete(users).where(eq(users.id, id))]; no table of the schema
    references [users.id]. *)
Definition deleteUsers (id : string) : Action unit :=
  fun db => (Ok tt, set_users (filter (fun u => negb (u_id u =? id)) (users db)) db).

(** [insert(sales).values(s)] *)
Definition insertSale (s : Sale) : Action unit :=
  fun db =>
    if existsb (fun x => s_id x =? s_id s) (sales db)
    then (Throw ER_DUP_ENTRY, db)
    else if negb (restaurantExists (s_restaurantId s) db)
    then (Throw ER_NO_REFERENCED_ROW, db)
    else (Ok tt, set_sales (sales db ++ [s]) db).

(** [Partial<Omit<Restaurant, 'id' | 'users'>>] *)
Record RestaurantFields : Type := mkRestaurantFields {
  rf_name : option string;
  rf_address : option string;
  rf_phone : option string
}.

(** [Object.keys(restaurantData).length > 0] *)
Definition hasKeys (f : RestaurantFields) : bool :=
  match rf_name f, rf_address f, rf_phone f with
  | None, None, None => false
  | _, _, _ => true
  end.

Definition setRestaurantFields (f : RestaurantFields) (r : Restaurant) : Restaurant :=
  mkRestaurant (r_id r)
               (orElse (rf_name f) (r_name r))
               (orElse (rf_address f) (r_address r))
               (orElse (rf_phone f) (r_phone r)).

(** [update(restaurants).set(fields).where(eq(restaurants.id, id))] *)
Definition updateRestaurants (id : string) (f : RestaurantFields) : Action unit :=
  fun db =>
    (Ok tt,
     set_restaurants
       (map (fun r => if r_id r =? id then setRestaurantFields f r else r)
            (restaurants db)) db).

(** ** Restaurant actions *)

(** [Omit<Restaurant, 'id' | 'users'>] *)
Record RestaurantData : Type := mkRestaurantData {
  rd_name : string;
  rd_address : string;
  rd_phone : string
}.

(** [Omit<User, 'id' | 'role'>], as the registration form fills it. *)
Record AdminData : Type := mkAdminData {
  ad_name : string;
  ad_email : string;
  ad_password : string
}.

(** [getAllRestaurantsWithUsers]: every restaurant with its users. *)
Definition getAllRestaurantsWithUsers : Action (list (Restaurant * list User)) :=
  query (fun db =>
    map (fun r => (r, filter (fun u => u_restaurantId u =? r_id r) (users db)))
        (restaurants db)).

(** [createRestaurant]; [uuid1] and [uuid2] are the two results of
    [crypto.randomUUID()], in the order of the calls. *)
Definition createRestaurant (uuid1 uuid2 : string)
    (restaurantData : RestaurantData) (adminData : AdminData) : Action string :=
  existingUser <- query (fun db =>
      count (fun u => u_email u =? ad_email adminData) (users db)) ;;
  if (0 <? existingUser)%nat then throw EmailInUseByAnotherUser else
  existingRestaurantsCount <- query (fun db => length (restaurants db)) ;;
  let isFirstRestaurant := (existingRestaurantsCount =? 0)%nat in
  transaction (
    let restaurantId := uuid1 in
    insertRestaurant
      (mkRestaurant restaurantId (rd_name restaurantData)
                    (rd_address restaurantData) (rd_phone restaurantData)) ;;;
    insertUser
      (mkUser uuid2 (ad_name adminData) (ad_email adminData)
              (ad_password adminData)
              (if isFirstRestaurant then superadmin else admin)
              restaurantId) ;;;
    ret restaurantId).

(** The [adminData] argument of [updateRestaurant]. *)
Record AdminUpdate : Type := mkAdminUpdate {
  au_id : string;
  au_email : string;
  au_password : option string
}.

(** A string in a JavaScript condition: true unless empty. *)
Definition truthy (s : string) : bool := negb (s =? "").

(** [updateRestaurant] *)
Definition updateRestaurant (id : string) (restaurantData : RestaurantFields)
    (adminData : option AdminUpdate)
    : Action (option (Restaurant * list User)) :=
  transaction (
    (if hasKeys restaurantData
     then updateRestaurants id restaurantData
     else ret tt) ;;;
    match adminData with
    | Some adminData =>
        if truthy (au_id adminData) then
          otherUserWithEmail <- query (fun db =>
              findFirst (fun u => (u_email u =? au_email adminData)
                                  && negb (u_id u =? au_id adminData))
                        (users db)) ;;
          match otherUserWithEmail with
          | Some _ => throw EmailRegisteredByAnother
          | None =>
              let updateData :=
                mkUserFields None (Some (au_email adminData))
                  (match au_password adminData with
                   | Some pw =>
                       if truthy pw && (6 <=? String.length pw)%nat
                       then Some pw else None
                   | None => None
                   end)
                  None None in
              updateUsers (au_id adminData) updateData
          end
        else ret tt
    | None => ret tt
    end ;;;
    query (fun db =>
      match findFirst (fun r => r_id r =? id) (restaurants db) with
      | Some r => Some (r, filter (fun u => u_restaurantId u =? r_id r) (users db))
      | None => None
      end)).

(** ** User actions *)

(** [Omit<User, 'id'> & { restaurantId: string }] *)
Record NewUser : Type := mkNewUser {
  nu_name : string;
  nu_email : string;
  nu_password : string;
  nu_role : Role;
  nu_restaurantId : string
}.

(** [addUser]; [uuid] is the result of [crypto.randomUUID()]. *)
Definition addUser (uuid : string) (userData : NewUser) : Action User :=
  existingUser <- query (fun db =>
      count (fun u => u_email u =? nu_email userData) (users db)) ;;
  if (0 <? existingUser)%nat then throw EmailInUse else
  let newUser := mkUser uuid (nu_name userData) (nu_email userData)
                        (nu_password userData) (nu_role userData)
                        (nu_restaurantId userData) in
  insertUser newUser ;;;
  ret newUser.

(** [updateUser]; the result is [None] where the source returns
    [undefined as User]. *)
Definition updateUser (id : string) (userData : UserFields) : Action (option User) :=
  (match f_email userData with
   | Some email =>
       if truthy email then
         otherUserWithEmail <- query (fun db =>
             findFirst (fun u => (u_email u =? email) && negb (u_id u =? id))
                       (users db)) ;;
         match otherUserWithEmail with
         | Some _ => throw EmailInUseByAnotherUser
         | None => ret tt
         end
       else ret tt
   | None => ret tt
   end) ;;;
  updateUsers id userData ;;;
  query (fun db => findFirst (fun u => u_id u =? id) (users db)).

(** [deleteUser] *)
Definition deleteUser (id currentUserId : string) : Action unit :=
  if id =? currentUserId then throw CannotDeleteOwnAccount else
  userToDelete <- query (fun db => findFirst (fun u => u_id u =? id) (users db)) ;;
  match userToDelete with
  | None => throw UserDoesNotExist
  | Some userToDelete =>
      currentUser <- query (fun db =>
          findFirst (fun u => u_id u =? currentUserId) (users db)) ;;
      match option_map u_role currentUser with
      | Some superadmin =>
          if role_eqb (u_role userToDelete) superadmin then
            superadminCount <- query (fun db =>
                count (fun u => role_eqb (u_role u) superadmin) (users db)) ;;
            if (superadminCount <=? 1)%nat then throw OnlySuperadmin else ret tt
          else ret tt
      | Some admin =>
          if role_eqb (u_role userToDelete) admin
             || role_eqb (u_role userToDelete) superadmin
          then throw CannotDeleteAdministrator
          else
            usersInRestaurantCount <- query (fun db =>
                count (fun u => u_restaurantId u =? u_restaurantId userToDelete)
                      (users db)) ;;
            if (usersInRestaurantCount <=? 1)%nat then throw OnlyUserOfRestaurant
            else ret tt
      | _ => throw CannotDeleteUsers
      end ;;;
      deleteUsers id
  end.

(** ** The tenant-scoped store: list operations *)

(** [getProductsForRestaurant] *)
Definition getProductsForRestaurant (restaurantId : string) : Action (list Product) :=
  if restaurantId =? "all"
  then query (fun db => products db)
  else query (fun db =>
         filter (fun p => p_restaurantId p =? restaurantId) (products db)).

(** [getCategoriesForRestaurant] *)
Definition getCategoriesForRestaurant (restaurantId : string) : Action (list Category) :=
  if restaurantId =? "all"
  then query (fun db => categories db)
  else query (fun db =>
         filter (fun c => c_restaurantId c =? restaurantId) (categories db)).

(** [getCustomersForRestaurant] *)
Definition getCustomersForRestaurant (restaurantId : string) : Action (list Customer) :=
  if restaurantId =? "all"
  then query (fun db => customers db)
  else query (fun db =>
         filter (fun c => cu_restaurantId c =? restaurantId) (customers db)).

(** [{...p, unitPrice: Number(p.unitPrice)}] *)
Definition purchaseView (p : Purchase) : Purchase :=
  mkPurchase (pu_id p) (pu_productName p) (pu_supplier p) (pu_quantity p)
             (Number (pu_unitPrice p)) (pu_purchaseDate p) (pu_restaurantId p).

(** [getPurchasesForRestaurant] *)
Definition getPurchasesForRestaurant (restaurantId : string) : Action (list Purchase) :=
  if restaurantId =? "all"
  then result <- query (fun db => purchases db) ;;
       ret (map purchaseView result)
  else result <- query (fun db =>
         filter (fun p => pu_restaurantId p =? restaurantId) (purchases db)) ;;
       ret (map purchaseView result).

(** [{ ...s, items: s.items as OrderItem[], totalPrice: Number(s.totalPrice) }] *)
Definition saleView (s : Sale) : Sale :=
  mkSale (s_id s) (s_customerName s) (s_tableNumber s) (s_items s)
         (Number (s_totalPrice s)) (s_saleDate s) (s_userId s) (s_userName s)
         (s_restaurantId s) (s_status s).

(** [getSalesForRestaurant] *)
Definition getSalesForRestaurant (restaurantId : string) : Action (list Sale) :=
  allSales <- (if restaurantId =? "all"
               then query (fun db => sales db)
               else query (fun db =>
                      filter (fun s => s_restaurantId s =? restaurantId) (sales db))) ;;
  ret (map saleView allSales).

(** ** The tenant-scoped store: updating a product *)

(** [Partial<Omit<Product, 'id' | 'restaurantId'>>] *)
Record ProductFields : Type := mkProductFields {
  pf_name : option string;
  pf_price : option Decimal;
  pf_category : option string
}.

Definition setProductFields (f : ProductFields) (p : Product) : Product :=
  mkProduct (p_id p)
            (orElse (pf_name f) (p_name p))
            (orElse (pf_price f) (p_price p))
            (orElse (pf_category f) (p_category p))
            (p_restaurantId p).

Definition set_products (l : list Product) (db : Db) : Db :=
  mkDb (restaurants db) (users db) (categories db) l (customers db)
       (purchases db) (sales db).

(** [update(products).set(fields).where(eq(products.id, id))] *)
Definition updateProducts (id : string) (f : ProductFields) : Action unit :=
  fun db =>
    (Ok tt,
     set_products
       (map (fun p => if p_id p =? id then setProductFields f p else p)
            (products db)) db).

(** [updateProduct] *)
Definition updateProduct (id : string) (product : ProductFields) : Action (option Product) :=
  updateProducts id product ;;;
  query (fun db => findFirst (fun p => p_id p =? id) (products db)).

(** ** Sales *)

(** [Omit<Sale, 'id'>] *)
Record NewSale : Type := mkNewSale {
  ns_customerName : string;
  ns_tableNumber : string;
  ns_items : list OrderItem;
  ns_totalPrice : Decimal;
  ns_saleDate : Z;
  ns_userId : string;
  ns_userName : string;
  ns_restaurantId : string;
  ns_status : Status
}.

(** [addSale]; [uuid] is the result of [crypto.randomUUID()]. *)
Definition addSale (uuid : string) (sale : NewSale) : Action Sale :=
  let newSale := mkSale uuid (ns_customerName sale) (ns_tableNumber sale)
                        (ns_items sale) (ns_totalPrice sale) (ns_saleDate sale)
                        (ns_userId sale) (ns_userName sale)
                        (ns_restaurantId sale) (ns_status sale) in
  insertSale newSale ;;;
  ret (saleView newSale).

(** [getSaleById] *)
Definition getSaleById (id : string) : Action (option Sale) :=
  result <- query (fun db => findFirst (fun s => s_id s =? id) (sales db)) ;;
  match result with
  | None => ret None
  | Some result => ret (Some (saleView result))
  end.

(** The sum over the items of price times quantity, in hundredths. *)
Definition itemsTotal (items : list OrderItem) : Z :=
  fold_right (fun it acc => (oi_price it * oi_quantity it + acc)%Z) 0%Z items.

(** ** Login (the normal path of [LoginForm.onSubmit]) *)

(** The loop over [allRestaurants]: the first restaurant that has a user with
    the typed email and whose stored password is the typed one. *)
Fixpoint findLogin (allRestaurants : list (Restaurant * list User))
    (email password : string) : option (User * Restaurant) :=
  match allRestaurants with
  | [] => None
  | (restaurant, rusers) :: rest =>
      match find (fun u => u_email u =? email) rusers with
      | Some foundUser =>
          if u_password foundUser =? password
          then Some (foundUser, restaurant)
          else findLogin rest email password
      | None => findLogin rest email password
      end
  end.

(** The normal login: load every restaurant with its users, then search. *)
Definition login (email password : string) : Action (option (User * Restaurant)) :=
  allRestaurants <- getAllRestaurantsWithUsers ;;
  ret (findLogin allRestaurants email password).

(** [restaurantIdToSet]: the scope stored as [activeRestaurantId] at login. *)
Definition restaurantIdToSet (loggedInUser : User) (restaurantForUser : Restaurant) : string :=
  if role_eqb (u_role loggedInUser) superadmin then "all" else r_id restaurantForUser.

(** ** The rest of the directory: lookup and deletion of a restaurant *)

(** [getRestaurantById]; [None] is the source's [null]. *)
Definition getRestaurantById (id : string) : Action (option Restaurant) :=
  query (fun db => findFirst (fun r => r_id r =? id) (restaurants db)).

(** [delete(restaurants).where(eq(restaurants.id, id))].  Every table that
    references [restaurants.id] declares [onDelete: 'cascade'], so the rows of
    a deleted restaurant go with it; when no restaurant has the identifier no
    row is deleted. *)
Definition deleteRestaurants (id : string) : Action unit :=
  fun db =>
    if restaurantExists id db
    then (Ok tt,
          mkDb (filter (fun r => negb (r_id r =? id)) (restaurants db))
               (filter (fun u => negb (u_restaurantId u =? id)) (users db))
               (filter (fun c => negb (c_restaurantId c =? id)) (categories db))
               (filter (fun p => negb (p_restaurantId p =? id)) (products db))
               (filter (fun c => negb (cu_restaurantId c =? id)) (customers db))
               (filter (fun p => negb (pu_restaurantId p =? id)) (purchases db))
               (filter (fun x => negb (s_restaurantId x =? id)) (sales db)))
    else (Ok tt, db).

(** [deleteRestaurant] *)
Definition deleteRestaurant (id : string) : Action unit :=
  deleteRestaurants id.

(** ** The rest of the tenant-scoped store *)

Definition set_categories (l : list Category) (db : Db) : Db :=
  mkDb (restaurants db) (users db) l (products db) (customers db)
       (purchases db) (sales db).

Definition set_customers (l : list Customer) (db : Db) : Db :=
  mkDb (restaurants db) (users db) (categories db) (products db) l
       (purchases db) (sales db).

Definition set_purchases (l : list Purchase) (db : Db) : Db :=
  mkDb (restaurants db) (users db) (categories db) (products db)
       (customers db) l (sales db).

(** The value of [row!.field] when [findFirst] gave the row, and the
    runtime's [TypeError] when it gave [undefined].  The error is raised
    after the statements before it have run, outside any transaction. *)
Inductive Fetched (A : Type) : Type :=
  | Found (a : A)
  | TypeError.
Arguments Found {A} a.
Arguments TypeError {A}.

(** *** Products *)

(** [Omit<Product, 'id'>] *)
Record NewProduct : Type := mkNewProduct {
  np_name : string;
  np_price : Decimal;
  np_category : string;
  np_restaurantId : string
}.

(** [insert(products).values(p)] *)
Definition insertProduct (p : Product) : Action unit :=
  fun db =>
    if existsb (fun x => p_id x =? p_id p) (products db)
    then (Throw ER_DUP_ENTRY, db)
    else if negb (restaurantExists (p_restaurantId p) db)
    then (Throw ER_NO_REFERENCED_ROW, db)
    else (Ok tt, set_products (products db ++ [p]) db).

(** [addProduct]; [uuid] is the result of [crypto.randomUUID()]. *)
Definition addProduct (uuid : string) (product : NewProduct) : Action Product :=
  let newProduct := mkProduct uuid (np_name product) (np_price product)
                              (np_category product) (np_restaurantId product) in
  insertProduct newProduct ;;;
  ret newProduct.

(** [deleteProduct] *)
Definition deleteProduct (id : string) : Action unit :=
  fun db =>
    (Ok tt, set_products (filter (fun p => negb (p_id p =? id)) (products db)) db).

(** *** Categories *)

(** [Omit<Category, 'id'>] *)
Record NewCategory : Type := mkNewCategory {
  nc_name : string;
  nc_restaurantId : string
}.

(** [Partial<Omit<Category, 'id' | 'restaurantId'>>] *)
Record CategoryFields : Type := mkCategoryFields {
  cf_name : option string
}.

Definition setCategoryFields (f : CategoryFields) (c : Category) : Category :=
  mkCategory (c_id c) (orElse (cf_name f) (c_name c)) (c_restaurantId c).

(** [insert(categories).values(c)] *)
Definition insertCategory (c : Category) : Action unit :=
  fun db =>
    if existsb (fun x => c_id x =? c_id c) (categories db)
    then (Throw ER_DUP_ENTRY, db)
    else if negb (restaurantExists (c_restaurantId c) db)
    then (Throw ER_NO_REFERENCED_ROW, db)
    else (Ok tt, set_categories (categories db ++ [c]) db).

(** [addCategory] *)
Definition addCategory (uuid : string) (category : NewCategory) : Action Category :=
  let newCategory := mkCategory uuid (nc_name category) (nc_restaurantId category) in
  insertCategory newCategory ;;;
  ret newCategory.

(** [update(categories).set(fields).where(eq(categories.id, id))] *)
Definition updateCategories (id : string) (f : CategoryFields) : Action unit :=
  fun db =>
    (Ok tt,
     set_categories
       (map (fun c => if c_id c =? id then setCategoryFields f c else c)
            (categories db)) db).

(** [updateCategory]; the result is [None] where the source returns
    [undefined as Category]. *)
Definition updateCategory (id : string) (category : CategoryFields)
    : Action (option Category) :=
  updateCategories id category ;;;
  query (fun db => findFirst (fun c => c_id c =? id) (categories db)).

(** [deleteCategory] *)
Definition deleteCategory (id : string) : Action unit :=
  fun db =>
    (Ok tt,
     set_categories (filter (fun c => negb (c_id c =? id)) (categories db)) db).

(** *** Customers *)

(** [Omit<Customer, 'id'>] *)
Record NewCustomer : Type := mkNewCustomer {
  ncu_name : string;
  ncu_email : string;
  ncu_phone : string;
  ncu_restaurantId : string
}.

(** [Partial<Omit<Customer, 'id' | 'restaurantId'>>] *)
Record CustomerFields : Type := mkCustomerFields {
  cuf_name : option string;
  cuf_email : option string;
  cuf_phone : option string
}.

Definition setCustomerFields (f : CustomerFields) (c : Customer) : Customer :=
  mkCustomer (cu_id c)
             (orElse (cuf_name f) (cu_name c))
             (orElse (cuf_email f) (cu_email c))
             (orElse (cuf_phone f) (cu_phone c))
             (cu_restaurantId c).

(** [insert(customers).values(c)] *)
Definition insertCustomer (c : Customer) : Action unit :=
  fun db =>
    if existsb (fun x => cu_id x =? cu_id c) (customers db)
    then (Throw ER_DUP_ENTRY, db)
    else if negb (restaurantExists (cu_restaurantId c) db)
    then (Throw ER_NO_REFERENCED_ROW, db)
    else (Ok tt, set_customers (customers db ++ [c]) db).

(** [addCustomer] *)
Definition addCustomer (uuid : string) (customer : NewCustomer) : Action Customer :=
  let newCustomer := mkCustomer uuid (ncu_name customer) (ncu_email customer)
                                (ncu_phone customer) (ncu_restaurantId customer) in
  insertCustomer newCustomer ;;;
  ret newCustomer.

(** [update(customers).set(fields).where(eq(customers.id, id))] *)
Definition updateCustomers (id : string) (f : CustomerFields) : Action unit :=
  fun db =>
    (Ok tt,
     set_customers
       (map (fun c => if cu_id c =? id then setCustomerFields f c else c)
            (customers db)) db).

(** [updateCustomer] *)
Definition updateCustomer (id : string) (customer : CustomerFields)
    : Action (option Customer) :=
  updateCustomers id customer ;;;
  query (fun db => findFirst (fun c => cu_id c =? id) (customers db)).

(** [deleteCustomer] *)
Definition deleteCustomer (id : string) : Action unit :=
  fun db =>
    (Ok tt,
     set_customers (filter (fun c => negb (cu_id c =? id)) (customers db)) db).

(** *** Purchases *)

(** [Omit<Purchase, 'id'>] *)
Record NewPurchase : Type := mkNewPurchase {
  npu_productName : string;
  npu_supplier : option string;
  npu_quantity : Z;
  npu_unitPrice : Decimal;
  npu_purchaseDate : Z;
  npu_restaurantId : string
}.

(** [Partial<Omit<Purchase, 'id' | 'restaurantId'>>] *)
Record PurchaseFields : Type := mkPurchaseFields {
  puf_productName : option string;
  puf_supplier : option (option string);
  puf_quantity : option Z;
  puf_unitPrice : option Decimal;
  puf_purchaseDate : option Z
}.

Definition setPurchaseFields (f : PurchaseFields) (p : Purchase) : Purchase :=
  mkPurchase (pu_id p)
             (orElse (puf_productName f) (pu_productName p))
             (orElse (puf_supplier f) (pu_supplier p))
             (orElse (puf_quantity f) (pu_quantity p))
             (orElse (puf_unitPrice f) (pu_unitPrice p))
             (orElse (puf_purchaseDate f) (pu_purchaseDate p))
             (pu_restaurantId p).

(** [insert(purchases).values(p)] *)
Definition insertPurchase (p : Purchase) : Action unit :=
  fun db =>
    if existsb (fun x => pu_id x =? pu_id p) (purchases db)
    then (Throw ER_DUP_ENTRY, db)
    else if negb (restaurantExists (pu_restaurantId p) db)
    then (Throw ER_NO_REFERENCED_ROW, db)
    else (Ok tt, set_purchases (purchases db ++ [p]) db).

(** [addPurchase] *)
Definition addPurchase (uuid : string) (purchase : NewPurchase) : Action Purchase :=
  let newPurchase := mkPurchase uuid (npu_productName purchase)
                                (npu_supplier purchase) (npu_quantity purchase)
                                (npu_unitPrice purchase)
                                (npu_purchaseDate purchase)
                                (npu_restaurantId purchase) in
  insertPurchase newPurchase ;;;
  ret (purchaseView newPurchase).

(** [update(purchases).set(fields).where(eq(purchases.id, id))] *)
Definition updatePurchases (id : string) (f : PurchaseFields) : Action unit :=
  fun db =>
    (Ok tt,
     set_purchases
       (map (fun p => if pu_id p =? id then setPurchaseFields f p else p)
            (purchases db)) db).

(** [updatePurchase]: the result reads [updatedPurchase!.unitPrice]. *)
Definition updatePurchase (id : string) (purchase : PurchaseFields)
    : Action (Fetched Purchase) :=
  updatePurchases id purchase ;;;
  updatedPurchase <- query (fun db =>
      findFirst (fun p => pu_id p =? id) (purchases db)) ;;
  match updatedPurchase with
  | Some updatedPurchase => ret (Found (purchaseView updatedPurchase))
  | None => ret TypeError
  end.

(** [deletePurchase] *)
Definition deletePurchase (id : string) : Action unit :=
  fun db =>
    (Ok tt,
     set_purchases (filter (fun p => negb (pu_id p =? id)) (purchases db)) db).

(** *** Sales *)

(** [Partial<Omit<Sale, 'id' | 'restaurantId'>>] *)
Record SaleFields : Type := mkSaleFields {
  sf_customerName : option string;
  sf_tableNumber : option string;
  sf_items : option (list OrderItem);
  sf_totalPrice : option Decimal;
  sf_saleDate : option Z;
  sf_userId : option string;
  sf_userName : option string;
  sf_status : option Status
}.

Definition setSaleFields (f : SaleFields) (x : Sale) : Sale :=
  mkSale (s_id x)
         (orElse (sf_customerName f) (s_customerName x))
         (orElse (sf_tableNumber f) (s_tableNumber x))
         (orElse (sf_items f) (s_items x))
         (orElse (sf_totalPrice f) (s_totalPrice x))
         (orElse (sf_saleDate f) (s_saleDate x))
         (orElse (sf_userId f) (s_userId x))
         (orElse (sf_userName f) (s_userName x))
         (s_restaurantId x)
         (orElse (sf_status f) (s_status x)).

(** [update(sales).set(fields).where(eq(sales.id, id))] *)
Definition updateSales (id : string) (f : SaleFields) : Action unit :=
  fun db =>
    (Ok tt,
     set_sales
       (map (fun x => if s_id x =? id then setSaleFields f x else x) (sales db))
       db).

(** The tail shared by [updateSale] and [updateSaleStatus]: read the row back
    and build the result from [updatedSale!.items]. *)
Definition fetchUpdatedSale (id : string) : Action (Fetched Sale) :=
  updatedSale <- query (fun db => findFirst (fun x => s_id x =? id) (sales db)) ;;
  match updatedSale with
  | Some updatedSale => ret (Found (saleView updatedSale))
  | None => ret TypeError
  end.

(** [updateSale] *)
Definition updateSale (id : string) (sale : SaleFields) : Action (Fetched Sale) :=
  updateSales id sale ;;;
  fetchUpdatedSale id.

(** [updateSaleStatus]: [set({ status })]. *)
Definition updateSaleStatus (id : string) (status : Status) : Action (Fetched Sale) :=
  updateSales id (mkSaleFields None None None None None None None (Some status)) ;;;
  fetchUpdatedSale id.

(** [inArray(sales.id, ids)] *)
Definition inArray (ids : list string) (id : string) : bool :=
  existsb (fun i => id =? i) ids.

(** [deleteSales] *)
Definition deleteSales (ids : list string) : Action unit :=
  if (length ids =? 0)%nat then ret tt
  else fun db =>
         (Ok tt,
          set_sales (filter (fun x => negb (inArray ids (s_id x))) (sales db)) db).

(** ** The browser side: session storage, login form, dashboard *)

(** The three keys of [sessionStorage] the application uses.  A stored user
    is the value [JSON.parse] gives back for what [JSON.stringify] wrote. *)
Record Session : Type := mkSession {
  loggedInUser : option User;
  activeRestaurantId : option string;
  loggedInRestaurant : option string
}.

Definition noSession : Session := mkSession None None None.

(** The emergency loop of [LoginForm.onSubmit]: the first user with role
    superadmin, restaurant by restaurant. *)
Fixpoint findSuperadmin (allRestaurants : list (Restaurant * list User))
    : option User :=
  match allRestaurants with
  | [] => None
  | (_, rusers) :: rest =>
      match find (fun u => role_eqb (u_role u) superadmin) rusers with
      | Some found => Some found
      | None => findSuperadmin rest
      end
  end.

(** [LoginForm.onSubmit] on the validated form data.  The result is the
    session storage with which the form routes to the dashboard, or [None]
    when it shows the failure toast and writes nothing. *)
Definition onSubmit (email password : string) (st : Session) : Action (option Session) :=
  if (email =? "superadmin@example.com") && (password =? "password123") then
    allRestaurants <- getAllRestaurantsWithUsers ;;
    match findSuperadmin allRestaurants with
    | Some superAdminUser =>
        ret (Some (mkSession (Some superAdminUser) (Some "all")
                             (loggedInRestaurant st)))
    | None => ret None
    end
  else
    allRestaurants <- getAllRestaurantsWithUsers ;;
    match findLogin allRestaurants email password with
    | Some (loggedInUser, restaurantForUser) =>
        ret (Some (mkSession (Some loggedInUser)
                             (Some (restaurantIdToSet loggedInUser restaurantForUser))
                             (loggedInRestaurant st)))
    | None => ret None
    end.

(** [handleLogout]: the three keys are removed. *)
Definition handleLogout (st : Session) : Session := noSession.

(** A value read from the storage, in a JavaScript condition. *)
Definition present (o : option string) : option string :=
  match o with
  | Some v => if truthy v then Some v else None
  | None => None
  end.

(** The first effect of [DashboardLayout]: [None] is the redirect to the
    start page; otherwise the user and the active restaurant chosen (which
    stays [null] when none is set). *)
Definition layoutEffect (st : Session) : option (User * option string) :=
  match loggedInUser st with
  | None => None
  | Some currentUser =>
      if role_eqb (u_role currentUser) superadmin then
        Some (currentUser,
              Some (orElse (present (activeRestaurantId st)) "all"))
      else
        Some (currentUser, present (loggedInRestaurant st))
  end.

(** [handleRestaurantChange]: the new active restaurant and the storage. *)
Definition handleRestaurantChange (newId : string)
    (active : option string) (st : Session) : option string * Session :=
  if negb (truthy newId)
     || match active with Some a => newId =? a | None => false end
  then (active, st)
  else (Some newId,
        mkSession (loggedInUser st) (Some newId) (loggedInRestaurant st)).

(** An entry of the navigation: the link and the roles that see it. *)
Record MenuItem : Type := mkMenuItem {
  href : string;
  roles : list Role
}.

Definition allItems : list MenuItem :=
  [ mkMenuItem "/dashboard/informes" [superadmin; admin; seller];
    mkMenuItem "/dashboard/comidas" [superadmin; admin; seller; waiter];
    mkMenuItem "/dashboard/historial-ventas" [superadmin; admin; seller; waiter];
    mkMenuItem "/dashboard/menu" [superadmin; admin; seller; waiter];
    mkMenuItem "/dashboard/categorias" [superadmin; admin];
    mkMenuItem "/dashboard/stock" [superadmin; admin; seller];
    mkMenuItem "/dashboard/compras" [superadmin; admin; seller];
    mkMenuItem "/dashboard/clientes" [superadmin; admin; seller];
    mkMenuItem "/dashboard/usuarios" [superadmin; admin];
    mkMenuItem "/dashboard/superadmin" [superadmin] ].

(** [menuItems] *)
Definition menuItems (user : option User) : list MenuItem :=
  match user with
  | None => []
  | Some user =>
      filter (fun item => existsb (role_eqb (u_role user)) (roles item)) allItems
  end.

(** What the first effect of [InformesPage] decides. *)
Inductive InformesView : Type :=
  | Redirected (path : string)
  | Authorized (currentUser : User) (activeRestaurant : string).

Definition informesEffect (st : Session) : InformesView :=
  match loggedInUser st, present (activeRestaurantId st) with
  | Some user, Some restaurantId =>
      if role_eqb (u_role user) waiter
      then Redirected "/dashboard/menu"
      else Authorized user restaurantId
  | _, _ => Redirected "/"
  end.

(** [fetchData] of [InformesPage]: the three lists of the active restaurant. *)
Definition fetchData (activeRestaurant : string)
    : Action (list Sale * list Product * list Customer) :=
  fetchedSales <- getSalesForRestaurant activeRestaurant ;;
  fetchedProducts <- getProductsForRestaurant activeRestaurant ;;
  fetchedCustomers <- getCustomersForRestaurant activeRestaurant ;;
  ret (fetchedSales, fetchedProducts, fetchedCustomers).

(** What [InformesPage] loads for a session: nothing unless authorized. *)
Definition informesData (st : Session)
    : Action (option (list Sale * list Product * list Customer)) :=
  match informesEffect st with
  | Authorized _ activeRestaurant =>
      data <- fetchData activeRestaurant ;;
      ret (Some data)
  | Redirected _ => ret None
  end.

(** ** The two product tables of the reports page *)

(** [a.slice(-n)]: the last [n] elements, all of them when there are fewer. *)
Definition sliceLast {A} (n : nat) (a : list A) : list A :=
  skipn (length a - n) a.

(** [productSales.slice(0, 5)], on the list sorted by sales, best first. *)
Definition bestSellingProductsData {A} (productSales : list A) : list A :=
  firstn 5 productSales.

(** [productSales.slice(5).slice(-5).reverse()] *)
Definition leastSellingProductsData {A} (productSales : list A) : list A :=
  rev (sliceLast 5 (skipn 5 productSales)).

(** ** The connection singleton of [db/index.ts] *)

(** [mysql.createPool({ uri, connectionLimit: 5 })] *)
Record Pool : Type := mkPool {
  uri : string;
  connectionLimit : nat
}.

(** [drizzle(pool, { schema, mode: 'default' })] *)
Record Handle : Type := mkHandle {
  h_pool : Pool
}.

(** The process: [global.db], the module's [pool], the environment variable,
    and the number of pools opened so far. *)
Record Process : Type := mkProcess {
  global_db : option Handle;
  pool : option Pool;
  DATABASE_URL : option string;
  poolsOpened : nat
}.

Inductive GetDbError : Type :=
  | DatabaseUrlNotConfigured
  | ConnectionFailed.

(** [getDb]; [createPoolThrows] tells whether [mysql.createPool] throws. *)
Definition getDb (createPoolThrows : string -> bool) (p : Process)
    : (Handle + GetDbError) * Process :=
  match global_db p with
  | Some db => (inl db, p)
  | None =>
      match present (DATABASE_URL p) with
      | None => (inr DatabaseUrlNotConfigured, p)
      | Some url =>
          match pool p with
          | Some existing =>
              let db := mkHandle existing in
              (inl db, mkProcess (Some db) (Some existing) (DATABASE_URL p)
                                 (poolsOpened p))
          | None =>
              if createPoolThrows url
              then (inr ConnectionFailed, p)
              else
                let created := mkPool url 5 in
                let db := mkHandle created in
                (inl db, mkProcess (Some db) (Some created) (DATABASE_URL p)
                                   (S (poolsOpened p)))
          end
      end
  end.

(** ** Resulting databases, for the statements *)

(** The database after a registration that gave the admin the role [role]. *)
Definition registered (db : Db) (uuid1 uuid2 : string)
    (restaurantData : RestaurantData) (adminData : AdminData) (role : Role) : Db :=
  set_users
    (users db ++ [mkUser uuid2 (ad_name adminData) (ad_email adminData)
                         (ad_password adminData) role uuid1])
    (set_restaurants
       (restaurants db ++ [mkRestaurant uuid1 (rd_name restaurantData)
                                        (rd_address restaurantData)
                                        (rd_phone restaurantData)])
       db).

(** The users table after [set(fields)] on the rows with identifier [id]. *)
Definition usersAfterSet (id : string) (f : UserFields) (l : list User) : list User :=
  map (fun u => if u_id u =? id then setFields f u else u) l.

(** The foreign key of [users.restaurantId] holds for the fields of an update. *)
Definition restaurantIdReferenced (f : UserFields) (db : Db) : Prop :=
  match f_restaurantId f with
  | Some rid => restaurantExists rid db = true
  | None => True
  end.

(** ** Well-formed databases

    The constraints the schema declares for the directory tables. *)
Record wf (db : Db) : Prop := mkWf {
  wf_restaurant_ids : NoDup (map r_id (restaurants db));
  wf_user_ids : NoDup (map u_id (users db));
  wf_user_emails : NoDup (map u_email (users db));
  wf_user_restaurant :
    forall u, In u (users db) -> In (u_restaurantId u) (map r_id (restaurants db))
}.

(** An action keeps the schema's constraints, whatever its outcome. *)
Definition preserves {A} (m : Action A) : Prop :=
  forall db o db', wf db -> m db = (o, db') -> wf db'.

(** ** Sample data *)

Module Sample.

Definition elPuerto : Restaurant :=
  mkRestaurant "r1" "Marisqueria El Puerto" "Avenida del Mar, 123" "912 345 678".
Definition laBrasa : Restaurant :=
  mkRestaurant "r2" "La Brasa" "Calle Mayor, 7" "913 000 111".

Definition root : User :=
  mkUser "u1" "Root" "superadmin@example.com" "password123" superadmin "r1".
Definition ana : User :=
  mkUser "u2" "Ana" "admin@example.com" "password123" admin "r1".
Definition luis : User :=
  mkUser "u3" "Luis" "vendedor@example.com" "password123" seller "r1".
Definition bea : User :=
  mkUser "u4" "Bea" "bea@example.com" "secreto1" admin "r2".
Definition teo : User :=
  mkUser "u5" "Teo" "teo@example.com" "secreto2" waiter "r2".

Definition paella : Product := mkProduct "p1" "Paella" 1250%Z "Arroces y Paellas" "r1".
Definition chuleton : Product := mkProduct "p2" "Chuleton" 3200%Z "Carnes a la Brasa" "r2".

Definition arroces : Category := mkCategory "c1" "Arroces y Paellas" "r1".
Definition carnes : Category := mkCategory "c2" "Carnes a la Brasa" "r2".

Definition marta : Customer := mkCustomer "k1" "Marta" "marta@example.com" "600 000 001" "r1".
Definition pablo : Customer := mkCustomer "k2" "Pablo" "pablo@example.com" "600 000 002" "r2".

Definition arroz : Purchase := mkPurchase "b1" "Arroz bomba" (Some "Arrocera") 10%Z 250%Z 0%Z "r1".
Definition carbon : Purchase := mkPurchase "b2" "Carbon" None 4%Z 900%Z 0%Z "r2".

Definition mesa1 : Sale :=
  mkSale "s1" "Marta" "1" [mkOrderItem "p1" "Paella" 1250%Z 2%Z] 2500%Z 0%Z
         "u3" "Luis" "r1" paid.
Definition mesa2 : Sale :=
  mkSale "s2" "Pablo" "2" [mkOrderItem "p2" "Chuleton" 3200%Z 1%Z] 3200%Z 0%Z
         "u5" "Teo" "r2" pending.

(** Two tenants, each with its staff and its catalog. *)
Definition twoTenants : Db :=
  mkDb [elPuerto; laBrasa] [root; ana; luis; bea; teo]
       [arroces; carnes] [paella; chuleton] [marta; pablo]
       [arroz; carbon] [mesa1; mesa2].

(** The sale of the spec's scenario: 2 x 10.00 and 1 x 5.50. *)
(** The second tenant reduced to its admin. *)
Definition loneAdmin : Db :=
  mkDb [elPuerto; laBrasa] [root; ana; bea] [] [] [] [] [].

Definition scenarioItems : list OrderItem :=
  [mkOrderItem "p1" "Paella" 1000%Z 2%Z; mkOrderItem "p3" "Agua" 550%Z 1%Z].

(** A sale with those items whose caller-supplied total is 99.00. *)
Definition overcharged : NewSale :=
  mkNewSale "Marta" "3" scenarioItems 9900%Z 0%Z "u3" "Luis" "r1" pending.

(** The same sale with the total the items add up to, 25.50. *)
Definition consistent : NewSale :=
  mkNewSale "Marta" "3" scenarioItems 2550%Z 0%Z "u3" "Luis" "r1" pending.

(** The registrations of the spec's scenario: "A" in an empty system, then "B". *)
Definition restaurantA : RestaurantData := mkRestaurantData "A" "Calle A, 1" "910 000 001".
Definition adminA : AdminData := mkAdminData "Alba" "alba@example.com" "secretoA".
Definition restaurantB : RestaurantData := mkRestaurantData "B" "Calle B, 2" "910 000 002".
Definition adminB : AdminData := mkAdminData "Blas" "blas@example.com" "secretoB".

Definition afterA : Db :=
  registered emptyDb "ra" "ua" restaurantA adminA superadmin.

(** A new seller for the first tenant. *)
Definition eva : NewUser :=
  mkNewUser "Eva" "eva@example.com" "secreto3" seller "r1".

End Sample.

(** Further sample data. *)
Module Fixtures.

(** One tenant in which a seller was stored with the empty email. *)
Definition blank : User := mkUser "u7" "Sin correo" "" "secreto7" seller "r1".

Definition blankEmail : Db :=
  mkDb [Sample.elPuerto] [Sample.root; blank; Sample.luis] [] [] [] [] [].

(** A process in which no connection was asked for yet. *)
Definition fresh : Process :=
  mkProcess None None (Some "mysql://localhost/restaurante") 0.

End Fixtures.

(** ** Auxiliary facts *)

Ltac run := unfold bind, query, ret, throw, transaction; cbn beta iota.

Lemma count_pos_iff {A} (p : A -> bool) (rows : list A) :
  0 < count p rows <-> exists x, In x rows /\ p x = true.
Proof.
  unfold count. split.
  - intros H. destruct (filter p rows) as [|x l] eqn:E; [inversion H|].
    exists x. apply filter_In. rewrite E. now left.
  - intros [x Hx]. apply filter_In in Hx.
    destruct (filter p rows); [contradiction | simpl; lia].
Qed.

Lemma count_zero_iff {A} (p : A -> bool) (rows : list A) :
  count p rows = 0 <-> forall x, In x rows -> p x = false.
Proof.
  split.
  - intros H x Hx. destruct (p x) eqn:E; [|reflexivity].
    assert (0 < count p rows) by (apply count_pos_iff; eauto). lia.
  - intros H. destruct (Nat.eq_dec (count p rows) 0) as [|N]; [assumption|].
    assert (0 < count p rows) as P by lia.
    apply count_pos_iff in P. destruct P as [x [Hx Px]].
    rewrite (H x Hx) in Px. discriminate.
Qed.

Lemma existsb_false_iff {A} (p : A -> bool) (rows : list A) :
  existsb p rows = false <-> forall x, In x rows -> p x = false.
Proof.
  split.
  - intros H x Hx. destruct (p x) eqn:E; [|reflexivity].
    assert (existsb p rows = true) by (apply existsb_exists; eauto). congruence.
  - intros H. destruct (existsb p rows) eqn:E; [|reflexivity].
    apply existsb_exists in E. destruct E as [x [Hx Px]].
    rewrite (H x Hx) in Px. discriminate.
Qed.

Lemma role_eqb_eq (a b : Role) : role_eqb a b = true <-> a = b.
Proof. destruct a, b; simpl; split; intros H; congruence. Qed.

Lemma role_eqb_refl (a : Role) : role_eqb a a = true.
Proof. now destruct a. Qed.

Lemma findFirst_In {A} (p : A -> bool) (rows : list A) (x : A) :
  findFirst p rows = Some x -> In x rows /\ p x = true.
Proof. apply find_some. Qed.

Lemma findFirst_None {A} (p : A -> bool) (rows : list A) :
  findFirst p rows = None <-> forall x, In x rows -> p x = false.
Proof.
  split.
  - intros H x. exact (find_none p rows H x).
  - induction rows as [|y l IH]; intros H; [reflexivity|].
    simpl. rewrite (H y (or_introl eq_refl)). apply IH.
    intros x Hx. apply H. now right.
Qed.

(** ** Deleting a user *)

Section DeleteUser.

Variable db : Db.
Variables id currentUserId : string.

(** C1. Deleting a superadmin while at most one superadmin exists is denied,
    whoever asks: the call throws, the database is the one before the call,
    and so are the superadmins and their count. *)
Theorem deleteUser_sole_superadmin_denied (target : User) :
  findFirst (fun u => u_id u =? id) (users db) = Some target ->
  u_role target = superadmin ->
  count (fun u => role_eqb (u_role u) superadmin) (users db) <= 1 ->
  exists e,
    deleteUser id currentUserId db = (Throw e, db)
    /\ filter (fun u => role_eqb (u_role u) superadmin)
              (users (snd (deleteUser id currentUserId db)))
       = filter (fun u => role_eqb (u_role u) superadmin) (users db)
    /\ count (fun u => role_eqb (u_role u) superadmin)
             (users (snd (deleteUser id currentUserId db)))
       = count (fun u => role_eqb (u_role u) superadmin) (users db).
Proof.
  intros Hfind Hrole Hcount.
  assert (exists e, deleteUser id currentUserId db = (Throw e, db)) as [e He].
  { unfold deleteUser.
    destruct (id =? currentUserId); [eexists; reflexivity|].
    run. rewrite Hfind.
    destruct (findFirst (fun u => u_id u =? currentUserId) (users db))
      as [actor|]; cbn [option_map]; [|eexists; reflexivity].
    rewrite Hrole.
    destruct (u_role actor); cbn [role_eqb orb]; try (eexists; reflexivity).
    apply Nat.leb_le in Hcount. rewrite Hcount. eexists; reflexivity. }
  exists e. rewrite He. auto.
Qed.

(** The rows [delete(users).where(eq(users.id, id))] leaves. *)
Lemma count_one_filter_out {A} (p q : A -> bool) (rows : list A) (t : A) :
  In t rows -> p t = true -> q t = false ->
  count p rows = 1 -> count p (filter q rows) = 0.
Proof.
  intros Ht Hp Hq Hone. apply count_zero_iff. intros x Hx.
  apply filter_In in Hx. destruct Hx as [Hx Hqx].
  destruct (p x) eqn:Hpx; [exfalso|reflexivity].
  unfold count in Hone.
  assert (In x (filter p rows)) as Ix by (apply filter_In; auto).
  assert (In t (filter p rows)) as It by (apply filter_In; auto).
  destruct (filter p rows) as [|y [|z l]]; try discriminate.
  destruct Ix as [<-|[]]. destruct It as [<-|[]]. congruence.
Qed.

(** C9. A superadmin deleting another, existing user who is not the only
    superadmin succeeds, and no count of the target's restaurant is consulted:
    when the target was the last user of its restaurant, the restaurant is
    left with no user. *)
Theorem deleteUser_by_superadmin_ignores_last_user (actor target : User) :
  id <> currentUserId ->
  findFirst (fun u => u_id u =? currentUserId) (users db) = Some actor ->
  u_role actor = superadmin ->
  findFirst (fun u => u_id u =? id) (users db) = Some target ->
  (u_role target = superadmin ->
   1 < count (fun u => role_eqb (u_role u) superadmin) (users db)) ->
  deleteUser id currentUserId db
  = (Ok tt, set_users (filter (fun u => negb (u_id u =? id)) (users db)) db)
  /\ (count (fun u => u_restaurantId u =? u_restaurantId target) (users db) = 1 ->
      count (fun u => u_restaurantId u =? u_restaurantId target)
            (users (snd (deleteUser id currentUserId db))) = 0).
Proof.
  intros Hneq Hactor Hrole Htarget Hsole.
  assert (deleteUser id currentUserId db
          = (Ok tt, set_users (filter (fun u => negb (u_id u =? id)) (users db)) db))
    as Hrun.
  { unfold deleteUser. apply String.eqb_neq in Hneq. rewrite Hneq.
    run. rewrite Htarget, Hactor. cbn [option_map]. rewrite Hrole.
    destruct (role_eqb (u_role target) superadmin) eqn:E; [|reflexivity].
    apply role_eqb_eq in E. specialize (Hsole E).
    apply Nat.leb_gt in Hsole. rewrite Hsole. reflexivity. }
  split; [exact Hrun|].
  intros Hone. rewrite Hrun. cbn [snd set_users users].
  apply findFirst_In in Htarget. destruct Htarget as [Hin Hid].
  apply (count_one_filter_out _ _ _ target); auto.
  - apply String.eqb_refl.
  - rewrite Hid. reflexivity.
Qed.

(** C4, as the code has it. When the acting user is an admin, the deletion
    succeeds exactly when the target is another, existing user with role
    seller or waiter whose restaurant has more than one user; a target with
    role admin or superadmin is denied.  The restaurant of the target is not
    compared with the restaurant of the acting admin. *)
Theorem deleteUser_by_admin (actor : User) :
  findFirst (fun u => u_id u =? currentUserId) (users db) = Some actor ->
  u_role actor = admin ->
  (forall db',
     deleteUser id currentUserId db = (Ok tt, db') <->
     (id <> currentUserId
      /\ (exists target,
            findFirst (fun u => u_id u =? id) (users db) = Some target
            /\ (u_role target = seller \/ u_role target = waiter)
            /\ 1 < count (fun u => u_restaurantId u =? u_restaurantId target)
                         (users db))
      /\ db' = set_users (filter (fun u => negb (u_id u =? id)) (users db)) db))
  /\ (forall target,
        findFirst (fun u => u_id u =? id) (users db) = Some target ->
        u_role target = admin \/ u_role target = superadmin ->
        exists e, deleteUser id currentUserId db = (Throw e, db)).
Proof.
  intros Hactor Hrole. split.
  - intros db'. unfold deleteUser.
    destruct (id =? currentUserId) eqn:Eid.
    { split; [discriminate|]. intros [N _]. apply String.eqb_eq in Eid. contradiction. }
    apply String.eqb_neq in Eid.
    run.
    destruct (findFirst (fun u => u_id u =? id) (users db)) as [target|].
    2:{ split; [discriminate|]. intros [_ [[t [F _]] _]]. discriminate. }
    rewrite Hactor. cbn [option_map]. rewrite Hrole.
    destruct (u_role target) eqn:Et; cbn [role_eqb orb].
    1,2: split; [discriminate|];
         intros [_ [[t [F [[R|R] _]]] _]]; inversion F; subst t; congruence.
    all: destruct (Nat.leb (count (fun u => u_restaurantId u =? u_restaurantId target)
                                  (users db)) 1) eqn:Ec.
    1,3: split; [discriminate|];
         intros [_ [[t [F [_ C]]] _]]; inversion F; subst t;
         apply Nat.leb_le in Ec; lia.
    all: apply Nat.leb_gt in Ec; unfold deleteUsers; split;
         [ intros H; inversion H; subst db'; split; [assumption|];
           split; [exists target; rewrite Et; auto | reflexivity]
         | intros [_ [_ ->]]; reflexivity ].
  - intros target Htarget Hr. unfold deleteUser.
    destruct (id =? currentUserId); [eexists; reflexivity|].
    run. rewrite Htarget, Hactor. cbn [option_map]. rewrite Hrole.
    destruct Hr as [-> | ->]; cbn [role_eqb orb]; eexists; reflexivity.
Qed.

End DeleteUser.

(** ** Registration and user creation *)

Section Registration.

Variable db : Db.

Lemma createRestaurant_runs (uuid1 uuid2 : string)
    (restaurantData : RestaurantData) (adminData : AdminData) :
  count (fun u => u_email u =? ad_email adminData) (users db) = 0 ->
  existsb (fun r => r_id r =? uuid1) (restaurants db) = false ->
  existsb (fun u => u_id u =? uuid2) (users db) = false ->
  createRestaurant uuid1 uuid2 restaurantData adminData db
  = (Ok uuid1,
     registered db uuid1 uuid2 restaurantData adminData
       (if (length (restaurants db) =? 0)%nat then superadmin else admin)).
Proof.
  intros Hemail Hrid Huid. unfold createRestaurant. run.
  rewrite Hemail. cbn [Nat.ltb Nat.leb].
  unfold insertRestaurant. cbn [r_id]. rewrite Hrid.
  unfold insertUser. cbn [u_id u_email u_restaurantId set_restaurants users].
  rewrite Huid.
  assert (existsb (fun x => u_email x =? ad_email adminData) (users db) = false) as E.
  { apply existsb_false_iff. now apply count_zero_iff. }
  rewrite E.
  unfold restaurantExists. cbn [restaurants set_restaurants].
  rewrite existsb_app. cbn [existsb r_id]. rewrite String.eqb_refl.
  rewrite !orb_true_r. cbn [negb].
  reflexivity.
Qed.

Lemma createRestaurant_ok_inv (uuid1 uuid2 : string)
    (restaurantData : RestaurantData) (adminData : AdminData)
    (rid : string) (db' : Db) :
  createRestaurant uuid1 uuid2 restaurantData adminData db = (Ok rid, db') ->
  rid = uuid1
  /\ db' = registered db uuid1 uuid2 restaurantData adminData
             (if (length (restaurants db) =? 0)%nat then superadmin else admin).
Proof.
  unfold createRestaurant. run.
  destruct (Nat.ltb 0 (count (fun u => u_email u =? ad_email adminData) (users db)));
    [discriminate|].
  unfold insertRestaurant. cbn [r_id].
  destruct (existsb (fun x => r_id x =? uuid1) (restaurants db)); [discriminate|].
  unfold insertUser. cbn [u_id u_email u_restaurantId set_restaurants users].
  destruct (existsb (fun x => u_id x =? uuid2) (users db)); [discriminate|].
  destruct (existsb (fun x => u_email x =? ad_email adminData) (users db));
    [discriminate|].
  match goal with |- context [negb ?b] => destruct b end; cbn [negb];
    [|discriminate].
  intros H. inversion H. split; reflexivity.
Qed.

(** C2. A registration made while no restaurant exists gives the new admin the
    role superadmin; one made while some restaurant exists gives the role
    admin.  In both cases the registration goes through when the email is
    unused and the two identifiers are new, and whenever it goes through the
    database is the old one plus the restaurant and that admin. *)
Theorem createRestaurant_bootstrap_role (uuid1 uuid2 : string)
    (restaurantData : RestaurantData) (adminData : AdminData) :
  let goes_through role :=
    (count (fun u => u_email u =? ad_email adminData) (users db) = 0 ->
     existsb (fun r => r_id r =? uuid1) (restaurants db) = false ->
     existsb (fun u => u_id u =? uuid2) (users db) = false ->
     createRestaurant uuid1 uuid2 restaurantData adminData db
     = (Ok uuid1, registered db uuid1 uuid2 restaurantData adminData role))
    /\ (forall rid db',
          createRestaurant uuid1 uuid2 restaurantData adminData db = (Ok rid, db') ->
          rid = uuid1
          /\ db' = registered db uuid1 uuid2 restaurantData adminData role
          /\ exists newAdmin,
               users db' = users db ++ [newAdmin]
               /\ u_role newAdmin = role
               /\ u_restaurantId newAdmin = rid) in
  (length (restaurants db) = 0 -> goes_through superadmin)
  /\ (0 < length (restaurants db) -> goes_through admin).
Proof.
  cbv zeta.
  assert (forall role,
            (if (length (restaurants db) =? 0)%nat then superadmin else admin) = role ->
            (count (fun u => u_email u =? ad_email adminData) (users db) = 0 ->
             existsb (fun r => r_id r =? uuid1) (restaurants db) = false ->
             existsb (fun u => u_id u =? uuid2) (users db) = false ->
             createRestaurant uuid1 uuid2 restaurantData adminData db
             = (Ok uuid1, registered db uuid1 uuid2 restaurantData adminData role))
            /\ (forall rid db',
                  createRestaurant uuid1 uuid2 restaurantData adminData db
                  = (Ok rid, db') ->
                  rid = uuid1
                  /\ db' = registered db uuid1 uuid2 restaurantData adminData role
                  /\ exists newAdmin,
                       users db' = users db ++ [newAdmin]
                       /\ u_role newAdmin = role
                       /\ u_restaurantId newAdmin = rid)) as Hgen.
  { intros role <-. split.
    - apply createRestaurant_runs.
    - intros rid db' H. apply createRestaurant_ok_inv in H. destruct H as [-> ->].
      repeat split. eexists. repeat split. }
  split; intros Hlen; apply Hgen.
  - rewrite Hlen. reflexivity.
  - destruct (length (restaurants db)); [lia|reflexivity].
Qed.

(** C5. Once some user has the email [e], a registration whose admin has the
    email [e] and an [addUser] with the email [e] both throw the
    email-in-use error, for any restaurant, and leave the database as it was:
    no user row and no restaurant row is added. *)
Theorem duplicate_email_rejected (e : string) :
  (exists u, In u (users db) /\ u_email u = e) ->
  (forall uuid1 uuid2 restaurantData adminData,
     ad_email adminData = e ->
     createRestaurant uuid1 uuid2 restaurantData adminData db
     = (Throw EmailInUseByAnotherUser, db))
  /\ (forall uuid userData,
        nu_email userData = e ->
        addUser uuid userData db = (Throw EmailInUse, db)).
Proof.
  intros [u [Hin Hu]].
  assert (Nat.ltb 0 (count (fun x => u_email x =? e) (users db)) = true) as Hpos.
  { apply Nat.ltb_lt. apply count_pos_iff. exists u. split; [assumption|].
    rewrite Hu. apply String.eqb_refl. }
  split.
  - intros uuid1 uuid2 rd ad He. unfold createRestaurant. run.
    rewrite He, Hpos. reflexivity.
  - intros uuid nu He. unfold addUser. run. rewrite He, Hpos. reflexivity.
Qed.

End Registration.

(** ** Updating a user *)

Section UpdateUser.

Variable db : Db.

Lemma find_usersAfterSet (id key : string) (f : UserFields) (l : list User) :
  findFirst (fun u => u_id u =? key) (usersAfterSet id f l)
  = option_map (fun u => if u_id u =? id then setFields f u else u)
               (findFirst (fun u => u_id u =? key) l).
Proof.
  unfold findFirst, usersAfterSet. induction l as [|x l IH]; [reflexivity|].
  cbn [map find].
  assert (u_id (if u_id x =? id then setFields f x else x) = u_id x) as ->
    by (destruct (u_id x =? id); reflexivity).
  destruct (u_id x =? key); [reflexivity | exact IH].
Qed.

Lemma find_by_id_In (l : list User) (t : User) :
  NoDup (map u_id l) -> In t l ->
  findFirst (fun u => u_id u =? u_id t) l = Some t.
Proof.
  unfold findFirst. induction l as [|x l IH]; intros Hnd Hin; [contradiction|].
  cbn [map] in Hnd. inversion Hnd as [|? ? Hx Hl]; subst.
  cbn [find]. destruct Hin as [->|Hin].
  - now rewrite String.eqb_refl.
  - destruct (u_id x =? u_id t) eqn:E; [|now apply IH].
    apply String.eqb_eq in E. exfalso. apply Hx. rewrite E. now apply in_map.
Qed.

Lemma email_owner_unique (l : list User) (t x : User) :
  NoDup (map u_email l) -> In t l -> In x l -> u_email x = u_email t -> x = t.
Proof.
  induction l as [|y l IH]; intros Hnd Ht Hx He; [contradiction|].
  cbn [map] in Hnd. inversion Hnd as [|? ? Hy Hl]; subst.
  destruct Ht as [->|Ht], Hx as [->|Hx]; auto.
  - exfalso. apply Hy. rewrite <- He. now apply in_map.
  - exfalso. apply Hy. rewrite He. now apply in_map.
Qed.

Lemma updateUsers_runs (id : string) (f : UserFields) :
  existsb (fun u => u_id u =? id) (users db) = true ->
  (forall e, f_email f = Some e ->
     forall x, In x (users db) -> u_email x = e -> u_id x = id) ->
  restaurantIdReferenced f db ->
  updateUsers id f db = (Ok tt, set_users (usersAfterSet id f (users db)) db).
Proof.
  intros Hex Hmail Hfk. unfold updateUsers. rewrite Hex. cbn [negb].
  assert (match f_email f with
          | Some e => existsb (fun u => (u_email u =? e) && negb (u_id u =? id))
                              (users db)
          | None => false
          end = false) as ->.
  { destruct (f_email f) as [e|]; [|reflexivity].
    apply existsb_false_iff. intros x Hx.
    destruct (u_email x =? e) eqn:E; [|reflexivity].
    apply String.eqb_eq in E. rewrite (Hmail e eq_refl x Hx E).
    now rewrite String.eqb_refl. }
  unfold restaurantIdReferenced in Hfk.
  destruct (f_restaurantId f); [rewrite Hfk|]; reflexivity.
Qed.

Lemma usersAfterSet_absent (id : string) (f : UserFields) (l : list User) :
  existsb (fun u => u_id u =? id) l = false -> usersAfterSet id f l = l.
Proof.
  intros H. unfold usersAfterSet. rewrite <- (map_id l) at 2.
  apply map_ext_in. intros u Hu.
  now rewrite (proj1 (existsb_false_iff _ _) H u Hu).
Qed.

Lemma set_users_same : set_users (users db) db = db.
Proof. now destruct db. Qed.

Lemma updateUsers_ok_inv (id : string) (f : UserFields) (db' : Db) :
  updateUsers id f db = (Ok tt, db') ->
  db' = set_users (usersAfterSet id f (users db)) db.
Proof.
  unfold updateUsers.
  destruct (existsb (fun u => u_id u =? id) (users db)) eqn:Hex; cbn [negb].
  - repeat match goal with
           | |- context [if ?b then _ else _] => destruct b
           end; try discriminate.
    intros H. now inversion H.
  - intros H. assert (db' = db) as -> by now inversion H.
    rewrite usersAfterSet_absent by assumption.
    now rewrite set_users_same.
Qed.

Lemma updateUser_ok_inv (id : string) (f : UserFields) (r : option User) (db' : Db) :
  updateUser id f db = (Ok r, db') ->
  db' = set_users (usersAfterSet id f (users db)) db
  /\ r = findFirst (fun u => u_id u =? id) (users db').
Proof.
  unfold updateUser. run.
  assert (forall (o : Outcome unit) (d : Db),
            (let (o0, d0) := (o, d) in
             match o0 with
             | Ok _ =>
                 let (o1, d1) := updateUsers id f d0 in
                 match o1 with
                 | Ok _ => (Ok (findFirst (fun u => u_id u =? id) (users d1)), d1)
                 | Throw e => (Throw e, d1)
                 end
             | Throw e => (Throw e, d0)
             end) = (Ok r, db') ->
            d = db -> o = Ok tt ->
            db' = set_users (usersAfterSet id f (users db)) db
            /\ r = findFirst (fun u => u_id u =? id) (users db')) as Hgen.
  { intros o d H -> ->. cbn iota in H.
    destruct (updateUsers id f db) as [[[]|e] d1] eqn:E; [|discriminate].
    inversion H; subst. apply updateUsers_ok_inv in E. now subst. }
  destruct (f_email f) as [e|]; [destruct (truthy e)|].
  - destruct (findFirst (fun u => (u_email u =? e) && negb (u_id u =? id)) (users db));
      [discriminate|].
    intros H. now apply (Hgen (Ok tt) db).
  - intros H. now apply (Hgen (Ok tt) db).
  - intros H. now apply (Hgen (Ok tt) db).
Qed.

Lemma updateProduct_ok_inv (id : string) (f : ProductFields)
    (r : option Product) (db' : Db) :
  updateProduct id f db = (Ok r, db') ->
  db' = set_products
          (map (fun p => if p_id p =? id then setProductFields f p else p)
               (products db)) db.
Proof.
  unfold updateProduct, updateProducts. run. intros H. now inversion H.
Qed.

Lemma updateUser_target_found (id : string) (f : UserFields) (u : User) :
  In u (users db) -> u_id u = id ->
  (forall e, f_email f = Some e -> truthy e = true ->
     forall x, In x (users db) -> u_email x = e -> u_id x = id) ->
  (forall e, f_email f = Some e ->
     forall x, In x (users db) -> u_email x = e -> u_id x = id) ->
  restaurantIdReferenced f db ->
  exists x,
    findFirst (fun v => u_id v =? id) (users db) = Some x
    /\ u_id x = id
    /\ updateUser id f db
       = (Ok (Some (setFields f x)), set_users (usersAfterSet id f (users db)) db).
Proof.
  intros Hin Hid Happ Hdb Hfk.
  destruct (findFirst (fun v => u_id v =? id) (users db)) as [x|] eqn:Hx.
  2:{ exfalso. pose proof (proj1 (findFirst_None _ _) Hx u Hin) as N.
      cbn beta in N. rewrite Hid, String.eqb_refl in N. discriminate. }
  exists x. destruct (findFirst_In _ _ _ Hx) as [Hxin Hxid].
  apply String.eqb_eq in Hxid. repeat split; [assumption|].
  assert (existsb (fun v => u_id v =? id) (users db) = true) as Hex.
  { apply existsb_exists. exists u. split; [assumption|].
    rewrite Hid. apply String.eqb_refl. }
  unfold updateUser. run.
  assert (forall e, f_email f = Some e -> truthy e = true ->
            findFirst (fun v => (u_email v =? e) && negb (u_id v =? id)) (users db)
            = None) as Hnone.
  { intros e He Ht. apply findFirst_None. intros y Hy.
    destruct (u_email y =? e) eqn:E; [|reflexivity].
    apply String.eqb_eq in E. rewrite (Happ e He Ht y Hy E).
    now rewrite String.eqb_refl. }
  assert ((let (o, d) := updateUsers id f db in
           match o with
           | Ok _ => (Ok (findFirst (fun v => u_id v =? id) (users d)), d)
           | Throw e => (Throw e, d)
           end)
          = (Ok (Some (setFields f x)),
             set_users (usersAfterSet id f (users db)) db)) as Hrun.
  { rewrite (updateUsers_runs id f Hex Hdb Hfk).
    cbn [set_users users]. rewrite find_usersAfterSet, Hx. cbn [option_map].
    rewrite Hxid, String.eqb_refl. reflexivity. }
  destruct (f_email f) as [e|]; [destruct (truthy e) eqn:Ht|].
  - rewrite (Hnone e eq_refl Ht). exact Hrun.
  - exact Hrun.
  - exact Hrun.
Qed.

(** X13. With the empty string as email the application's check is skipped and the
    UNIQUE index alone stands: the update of an existing user is refused by
    the storage when another user has the empty email. *)
Lemma updateUser_empty_email (id : string) (fields : UserFields) :
  f_email fields = Some "" ->
  existsb (fun u => u_id u =? id) (users db) = true ->
  (exists other, In other (users db) /\ u_id other <> id /\ u_email other = "") ->
  updateUser id fields db = (Throw ER_DUP_ENTRY, db).
Proof.
  intros Hemail Hex [other [Hin [Hid He]]].
  unfold updateUser. run. rewrite Hemail. cbn [truthy String.eqb negb].
  unfold updateUsers. rewrite Hex, Hemail. cbn [negb].
  assert (existsb (fun u => (u_email u =? "") && negb (u_id u =? id)) (users db)
          = true) as ->; [|reflexivity].
  apply existsb_exists. exists other. split; [assumption|].
  apply String.eqb_neq in Hid. now rewrite He, Hid.
Qed.

Lemma transaction_throw {A} (body : Action A) (e : Error) (db' : Db) :
  transaction body db = (Throw e, db') -> db' = db.
Proof.
  unfold transaction. destruct (body db) as [[a|e'] d]; intros H; now inversion H.
Qed.

(** X14. [updateRestaurant] with admin fields whose email belongs to another
    user throws, and the transaction takes the restaurant update back as
    well. *)
Lemma updateRestaurant_email_conflict (id : string)
    (restaurantData : RestaurantFields) (adminData : AdminUpdate) :
  au_id adminData <> "" ->
  (exists other,
     In other (users db)
     /\ u_id other <> au_id adminData /\ u_email other = au_email adminData) ->
  updateRestaurant id restaurantData (Some adminData) db
  = (Throw EmailRegisteredByAnother, db).
Proof.
  intros Hid [other [Hin [Hne He]]].
  assert (truthy (au_id adminData) = true) as Ht.
  { unfold truthy. apply String.eqb_neq in Hid. now rewrite Hid. }
  assert (exists u,
            findFirst (fun u => (u_email u =? au_email adminData)
                                && negb (u_id u =? au_id adminData)) (users db)
            = Some u) as [u Hu].
  { destruct (findFirst _ (users db)) eqn:F; [eauto|].
    pose proof (proj1 (findFirst_None _ _) F other Hin) as N. cbn beta in N.
    apply String.eqb_neq in Hne. rewrite He, String.eqb_refl, Hne in N.
    discriminate. }
  unfold updateRestaurant, transaction. run. rewrite Ht.
  destruct (hasKeys restaurantData); unfold updateRestaurants;
    cbn [set_restaurants users]; rewrite Hu; reflexivity.
Qed.

(** A registration that throws leaves nothing behind: neither row is kept. *)
Lemma createRestaurant_atomic (uuid1 uuid2 : string)
    (restaurantData : RestaurantData) (adminData : AdminData)
    (e : Error) (db' : Db) :
  createRestaurant uuid1 uuid2 restaurantData adminData db = (Throw e, db') ->
  db' = db.
Proof.
  unfold createRestaurant, bind at 1 2, query, throw.
  destruct (Nat.ltb 0 _); [intros H; now inversion H|].
  apply transaction_throw.
Qed.

(** C8. Let the fields of [updateUser id fields] carry an email [e] (a
    non-empty string).  If a user with another identifier has the email [e],
    the call throws the email-in-use error and the database is left as it
    was.  If the user [id] itself has the email [e], in a database that meets
    the schema's constraints, the call succeeds and returns the updated
    row, whose email is [e]. *)
Theorem updateUser_email_uniqueness (id e : string) (fields : UserFields) :
  f_email fields = Some e ->
  e <> "" ->
  ((exists other, In other (users db) /\ u_id other <> id /\ u_email other = e) ->
   updateUser id fields db = (Throw EmailInUseByAnotherUser, db))
  /\ (forall target,
        wf db ->
        In target (users db) -> u_id target = id -> u_email target = e ->
        restaurantIdReferenced fields db ->
        updateUser id fields db
        = (Ok (Some (setFields fields target)),
           set_users (usersAfterSet id fields (users db)) db)
        /\ u_email (setFields fields target) = e).
Proof.
  intros Hemail Hne.
  assert (truthy e = true) as Htruthy.
  { unfold truthy. apply String.eqb_neq in Hne. now rewrite Hne. }
  split.
  - intros [other [Hin [Hid He]]].
    unfold updateUser. run. rewrite Hemail, Htruthy.
    destruct (findFirst (fun u => (u_email u =? e) && negb (u_id u =? id)) (users db))
      eqn:F; [reflexivity|].
    pose proof (proj1 (findFirst_None _ _) F other Hin) as N. cbn beta in N.
    apply String.eqb_neq in Hid. rewrite He, String.eqb_refl, Hid in N.
    discriminate.
  - intros target Hwf Hin Hid He Hfk.
    assert (forall e', f_email fields = Some e' ->
              forall x, In x (users db) -> u_email x = e' -> u_id x = id) as Hown.
    { intros e' He' x Hx Hxe. rewrite Hemail in He'. inversion He'; subst e'.
      rewrite (email_owner_unique (users db) target x); auto.
      - apply (wf_user_emails db Hwf).
      - congruence. }
    destruct (updateUser_target_found id fields target Hin Hid
                (fun e' He' _ => Hown e' He') Hown Hfk) as [x [Hx [_ Hrun]]].
    rewrite <- Hid in Hx. rewrite (find_by_id_In (users db) target) in Hx;
      [|apply (wf_user_ids db Hwf)|assumption].
    inversion Hx; subst x. split; [exact Hrun|].
    unfold setFields. cbn [u_email]. rewrite Hemail. reflexivity.
Qed.

(** C10. [updateUser id fields] changes, in the rows of the user [id], the
    supplied fields and nothing else, and no other row or table; a new
    restaurant (one that exists) and a new role are among the fields it
    applies: after [updateUser] with only [restaurantId = rid] the user
    belongs to [rid].  [updateProduct] has no such field and keeps every
    product in its restaurant. *)
Theorem updateUser_writes_supplied_fields (id : string) (fields : UserFields) :
  (forall r db',
     updateUser id fields db = (Ok r, db') ->
     users db' = usersAfterSet id fields (users db)
     /\ r = findFirst (fun u => u_id u =? id) (users db')
     /\ (forall v, In v (users db) -> u_id v <> id -> In v (users db'))
     /\ restaurants db' = restaurants db
     /\ categories db' = categories db
     /\ products db' = products db
     /\ customers db' = customers db
     /\ purchases db' = purchases db
     /\ sales db' = sales db)
  /\ (forall u,
        u_id (setFields fields u) = u_id u
        /\ u_name (setFields fields u) = orElse (f_name fields) (u_name u)
        /\ u_email (setFields fields u) = orElse (f_email fields) (u_email u)
        /\ u_password (setFields fields u) = orElse (f_password fields) (u_password u)
        /\ u_role (setFields fields u) = orElse (f_role fields) (u_role u)
        /\ u_restaurantId (setFields fields u)
           = orElse (f_restaurantId fields) (u_restaurantId u))
  /\ (forall u rid,
        In u (users db) -> u_id u = id -> restaurantExists rid db = true ->
        exists u' db',
          updateUser id (mkUserFields None None None None (Some rid)) db
          = (Ok (Some u'), db')
          /\ u_id u' = id
          /\ u_restaurantId u' = rid
          /\ (forall v, In v (users db') -> u_id v = id -> u_restaurantId v = rid))
  /\ (forall u role,
        In u (users db) -> u_id u = id ->
        exists u' db',
          updateUser id (mkUserFields None None None (Some role) None) db
          = (Ok (Some u'), db')
          /\ u_id u' = id
          /\ u_role u' = role)
  /\ (forall pid product r db',
        updateProduct pid product db = (Ok r, db') ->
        map p_restaurantId (products db') = map p_restaurantId (products db)).
Proof.
  split; [|split; [|split; [|split]]].
  - intros r db' H. apply updateUser_ok_inv in H. destruct H as [-> ->].
    cbn [set_users users restaurants categories products customers purchases sales].
    repeat split.
    intros v Hv Hne. unfold usersAfterSet. apply in_map_iff. exists v.
    apply String.eqb_neq in Hne. now rewrite Hne.
  - intros u. repeat split.
  - intros u rid Hin Hid Hfk.
    destruct (updateUser_target_found id (mkUserFields None None None None (Some rid))
                u Hin Hid) as [x [_ [Hxid Hrun]]];
      try (cbn [f_email]; discriminate); [exact Hfk|].
    eexists. eexists. split; [exact Hrun|]. repeat split; [exact Hxid|].
    cbn [set_users users]. intros v Hv Hvid. unfold usersAfterSet in Hv.
    apply in_map_iff in Hv. destruct Hv as [w [Hw _]].
    destruct (u_id w =? id) eqn:E.
    + subst v. reflexivity.
    + subst v. apply String.eqb_neq in E. contradiction.
  - intros u role Hin Hid.
    destruct (updateUser_target_found id (mkUserFields None None None (Some role) None)
                u Hin Hid) as [x [_ [Hxid Hrun]]];
      try (cbn [f_email]; discriminate); [exact I|].
    eexists. eexists. split; [exact Hrun|]. split; [exact Hxid|reflexivity].
  - intros pid product r db' H. apply updateProduct_ok_inv in H. subst db'.
    cbn [set_products products]. rewrite map_map. apply map_ext.
    intros p. destruct (p_id p =? pid); reflexivity.
Qed.

End UpdateUser.

(** ** The tenant-scoped store *)

Section Store.

Variable db : Db.

Lemma purchaseView_same (p : Purchase) : purchaseView p = p.
Proof. now destruct p. Qed.

Lemma saleView_same (s : Sale) : saleView s = s.
Proof. now destruct s. Qed.

Lemma map_purchaseView (l : list Purchase) : map purchaseView l = l.
Proof.
  induction l as [|p l IH]; [reflexivity|].
  cbn [map]. now rewrite purchaseView_same, IH.
Qed.

Lemma map_saleView (l : list Sale) : map saleView l = l.
Proof.
  induction l as [|x l IH]; [reflexivity|].
  cbn [map]. now rewrite saleView_same, IH.
Qed.

Lemma filter_scope {A} (key : A -> string) (scope : string) (rows : list A) (x : A) :
  In x (filter (fun r => key r =? scope) rows) <-> In x rows /\ key x = scope.
Proof.
  rewrite filter_In. split; intros [H E]; split; auto; now apply String.eqb_eq.
Qed.

(** C3, as the code has it. The list operations receive the scope value and
    nothing about the caller.  With the scope "all" each returns every row of
    its table; with any other scope, exactly the rows whose restaurant is the
    scope.  The login form stores "all" as the scope only for a superadmin,
    and the restaurant of the user for every other role. *)
Theorem list_scope_is_the_only_filter (scope : string) :
  (scope = "all" ->
   getProductsForRestaurant scope db = (Ok (products db), db)
   /\ getCategoriesForRestaurant scope db = (Ok (categories db), db)
   /\ getCustomersForRestaurant scope db = (Ok (customers db), db)
   /\ getPurchasesForRestaurant scope db = (Ok (purchases db), db)
   /\ getSalesForRestaurant scope db = (Ok (sales db), db))
  /\ (scope <> "all" ->
      getProductsForRestaurant scope db
      = (Ok (filter (fun r => p_restaurantId r =? scope) (products db)), db)
      /\ getCategoriesForRestaurant scope db
         = (Ok (filter (fun r => c_restaurantId r =? scope) (categories db)), db)
      /\ getCustomersForRestaurant scope db
         = (Ok (filter (fun r => cu_restaurantId r =? scope) (customers db)), db)
      /\ getPurchasesForRestaurant scope db
         = (Ok (filter (fun r => pu_restaurantId r =? scope) (purchases db)), db)
      /\ getSalesForRestaurant scope db
         = (Ok (filter (fun r => s_restaurantId r =? scope) (sales db)), db)
      /\ (forall r, In r (filter (fun r => p_restaurantId r =? scope) (products db))
                    -> p_restaurantId r = scope)
      /\ (forall r, In r (filter (fun r => c_restaurantId r =? scope) (categories db))
                    -> c_restaurantId r = scope)
      /\ (forall r, In r (filter (fun r => cu_restaurantId r =? scope) (customers db))
                    -> cu_restaurantId r = scope)
      /\ (forall r, In r (filter (fun r => pu_restaurantId r =? scope) (purchases db))
                    -> pu_restaurantId r = scope)
      /\ (forall r, In r (filter (fun r => s_restaurantId r =? scope) (sales db))
                    -> s_restaurantId r = scope))
  /\ (forall loggedInUser restaurantForUser,
        (u_role loggedInUser = superadmin ->
         restaurantIdToSet loggedInUser restaurantForUser = "all")
        /\ (u_role loggedInUser <> superadmin ->
            restaurantIdToSet loggedInUser restaurantForUser
            = r_id restaurantForUser)).
Proof.
  split; [|split].
  - intros ->.
    unfold getProductsForRestaurant, getCategoriesForRestaurant,
      getCustomersForRestaurant, getPurchasesForRestaurant, getSalesForRestaurant.
    cbn [String.eqb Ascii.eqb Bool.eqb andb]. run.
    now rewrite map_purchaseView, map_saleView.
  - intros Hne. apply String.eqb_neq in Hne.
    unfold getProductsForRestaurant, getCategoriesForRestaurant,
      getCustomersForRestaurant, getPurchasesForRestaurant, getSalesForRestaurant.
    rewrite Hne. run. rewrite map_purchaseView, map_saleView.
    repeat split; intros r Hr; now apply filter_scope in Hr.
  - intros u r. unfold restaurantIdToSet. split.
    + intros ->. reflexivity.
    + intros Hne. destruct (role_eqb (u_role u) superadmin) eqn:E; [|reflexivity].
      apply role_eqb_eq in E. contradiction.
Qed.

Lemma insertSale_runs (s : Sale) :
  existsb (fun x => s_id x =? s_id s) (sales db) = false ->
  restaurantExists (s_restaurantId s) db = true ->
  insertSale s db = (Ok tt, set_sales (sales db ++ [s]) db).
Proof.
  intros Hid Hfk. unfold insertSale. now rewrite Hid, Hfk.
Qed.

(** C7, as the code has it. [addSale] checks nothing about the total: with a
    new identifier and an existing restaurant it stores the caller's total
    and the caller's items as they are, so the stored total is the sum of
    price times quantity over the items exactly when the caller supplied
    that sum. *)
Theorem addSale_persists_supplied_total (uuid : string) (sale : NewSale) :
  existsb (fun x => s_id x =? uuid) (sales db) = false ->
  restaurantExists (ns_restaurantId sale) db = true ->
  exists stored,
    addSale uuid sale db = (Ok stored, set_sales (sales db ++ [stored]) db)
    /\ s_id stored = uuid
    /\ s_items stored = ns_items sale
    /\ s_totalPrice stored = ns_totalPrice sale
    /\ (s_totalPrice stored = itemsTotal (s_items stored)
        <-> ns_totalPrice sale = itemsTotal (ns_items sale)).
Proof.
  intros Hid Hfk. unfold addSale. run.
  rewrite insertSale_runs by assumption. rewrite saleView_same.
  eexists. split; [reflexivity|]. cbn [s_id s_items s_totalPrice].
  repeat split; auto.
Qed.

End Store.

(** ** Passwords *)

Section Passwords.

Variable db : Db.

Lemma createRestaurant_password (uuid1 uuid2 rid : string)
    (restaurantData : RestaurantData) (adminData : AdminData) (db' : Db) :
  createRestaurant uuid1 uuid2 restaurantData adminData db = (Ok rid, db') ->
  exists newAdmin,
    users db' = users db ++ [newAdmin]
    /\ u_password newAdmin = ad_password adminData.
Proof.
  intros H. apply createRestaurant_ok_inv in H. destruct H as [_ ->].
  eexists. split; reflexivity.
Qed.

Lemma addUser_password (uuid : string) (userData : NewUser) (u : User) (db' : Db) :
  addUser uuid userData db = (Ok u, db') ->
  users db' = users db ++ [u] /\ u_password u = nu_password userData.
Proof.
  unfold addUser. run.
  destruct (Nat.ltb 0 (count (fun x => u_email x =? nu_email userData) (users db)));
    [discriminate|].
  unfold insertUser.
  repeat match goal with
         | |- context [if ?b then _ else _] => destruct b
         end; try discriminate.
  intros H. inversion H. split; reflexivity.
Qed.

Lemma updateUser_password (id pw : string) (fields : UserFields)
    (r : option User) (db' : Db) :
  f_password fields = Some pw ->
  updateUser id fields db = (Ok r, db') ->
  forall v, In v (users db') -> u_id v = id -> u_password v = pw.
Proof.
  intros Hpw H v Hv Hid. apply updateUser_ok_inv in H. destruct H as [-> _].
  cbn [set_users users] in Hv. unfold usersAfterSet in Hv.
  apply in_map_iff in Hv. destruct Hv as [w [Hw _]].
  destruct (u_id w =? id) eqn:E.
  - subst v. unfold setFields. cbn [u_password]. now rewrite Hpw.
  - subst v. apply String.eqb_neq in E. contradiction.
Qed.

(** The login accepts a user only when the stored password is the typed one. *)
Lemma findLogin_compares_stored_password
    (allRestaurants : list (Restaurant * list User)) (email password : string)
    (u : User) (r : Restaurant) :
  findLogin allRestaurants email password = Some (u, r) ->
  u_email u = email /\ u_password u = password.
Proof.
  induction allRestaurants as [|[r0 us] rest IH]; [discriminate|].
  cbn [findLogin].
  destruct (find (fun x => u_email x =? email) us) as [found|] eqn:F; [|exact IH].
  destruct (u_password found =? password) eqn:P; [|exact IH].
  intros H. inversion H; subst. apply find_some in F. destruct F as [_ F].
  split; now apply String.eqb_eq.
Qed.

End Passwords.

(** ** The schema's constraints are kept by the directory actions *)

Section Invariant.

Lemma wf_emptyDb : wf emptyDb.
Proof. split; cbn; try constructor. intros u []. Qed.

Lemma preserves_ret {A} (a : A) : preserves (ret a).
Proof. intros db o db' W H. unfold ret in H. inversion H; subst. exact W. Qed.

Lemma preserves_throw {A} (e : Error) : preserves (@throw A e).
Proof. intros db o db' W H. unfold throw in H. inversion H; subst. exact W. Qed.

Lemma preserves_query {A} (q : Db -> A) : preserves (query q).
Proof. intros db o db' W H. unfold query in H. inversion H; subst. exact W. Qed.

Lemma preserves_bind {A B} (m : Action A) (k : A -> Action B) :
  preserves m -> (forall a, preserves (k a)) -> preserves (bind m k).
Proof.
  intros Hm Hk db o db' W. unfold bind.
  destruct (m db) as [[a|e] d] eqn:E; intros H.
  - exact (Hk a d o db' (Hm db _ d W E) H).
  - inversion H; subst. exact (Hm db _ db' W E).
Qed.

Lemma preserves_transaction {A} (body : Action A) :
  preserves body -> preserves (transaction body).
Proof.
  intros Hb db o db' W. unfold transaction.
  destruct (body db) as [[a|e] d] eqn:E; intros H; inversion H; subst.
  - exact (Hb db _ db' W E).
  - exact W.
Qed.

Lemma preserves_if {A} (b : bool) (m1 m2 : Action A) :
  preserves m1 -> preserves m2 -> preserves (if b then m1 else m2).
Proof. now destruct b. Qed.

Lemma NoDup_snoc {A} (l : list A) (x : A) :
  NoDup l -> ~ In x l -> NoDup (l ++ [x]).
Proof.
  intros Hl Hx. apply NoDup_app; [assumption|repeat constructor; intros []|].
  intros a Ha [<-|[]]. contradiction.
Qed.

Lemma not_in_keys {A} (key : A -> string) (k : string) (l : list A) :
  existsb (fun x => key x =? k) l = false -> ~ In k (map key l).
Proof.
  intros H Hin. apply in_map_iff in Hin. destruct Hin as [x [Hk Hx]].
  pose proof (proj1 (existsb_false_iff _ _) H x Hx) as N. cbn beta in N.
  rewrite Hk, String.eqb_refl in N. discriminate.
Qed.

Lemma in_keys {A} (key : A -> string) (k : string) (l : list A) :
  existsb (fun x => key x =? k) l = true -> In k (map key l).
Proof.
  intros H. apply existsb_exists in H. destruct H as [x [Hx Hk]].
  apply String.eqb_eq in Hk. subst k. now apply in_map.
Qed.

Lemma preserves_insertRestaurant (r : Restaurant) : preserves (insertRestaurant r).
Proof.
  intros db o db' W. unfold insertRestaurant.
  destruct (existsb (fun x => r_id x =? r_id r) (restaurants db)) eqn:E;
    intros H; inversion H; subst; [exact W|].
  destruct W as [Wr Wi We Wf]. split; cbn [set_restaurants restaurants users].
  - rewrite map_app. apply NoDup_snoc; [assumption|]. now apply not_in_keys.
  - assumption.
  - assumption.
  - intros u Hu. rewrite map_app. apply in_or_app. left. now apply Wf.
Qed.

Lemma preserves_insertUser (u : User) : preserves (insertUser u).
Proof.
  intros db o db' W. unfold insertUser.
  destruct (existsb (fun x => u_id x =? u_id u) (users db)) eqn:Ei;
    [intros H; inversion H; subst; exact W|].
  destruct (existsb (fun x => u_email x =? u_email u) (users db)) eqn:Ee;
    [intros H; inversion H; subst; exact W|].
  destruct (restaurantExists (u_restaurantId u) db) eqn:Er; cbn [negb];
    intros H; inversion H; subst; [|exact W].
  destruct W as [Wr Wi We Wf]. split; cbn [set_users restaurants users].
  - assumption.
  - rewrite map_app. apply NoDup_snoc; [assumption|]. now apply not_in_keys.
  - rewrite map_app. apply NoDup_snoc; [assumption|]. now apply not_in_keys.
  - intros v Hv. apply in_app_or in Hv. destruct Hv as [Hv|[<-|[]]].
    + now apply Wf.
    + now apply in_keys.
Qed.

Lemma NoDup_keys_filter {A} (key : A -> string) (p : A -> bool) (l : list A) :
  NoDup (map key l) -> NoDup (map key (filter p l)).
Proof.
  induction l as [|x l IH]; intros H; [constructor|].
  cbn [map] in H. inversion H as [|? ? Hx Hl]; subst.
  cbn [filter]. destruct (p x); [|now apply IH].
  cbn [map]. constructor; [|now apply IH].
  intros Hin. apply Hx. apply in_map_iff in Hin. destruct Hin as [y [Hy Hyin]].
  apply filter_In in Hyin. rewrite <- Hy. apply in_map. tauto.
Qed.

Lemma preserves_deleteUsers (id : string) : preserves (deleteUsers id).
Proof.
  intros db o db' W H. unfold deleteUsers in H. inversion H; subst.
  destruct W as [Wr Wi We Wf]. split; cbn [set_users restaurants users].
  - assumption.
  - now apply NoDup_keys_filter.
  - now apply NoDup_keys_filter.
  - intros u Hu. apply filter_In in Hu. now apply Wf.
Qed.

Lemma usersAfterSet_ids (id : string) (f : UserFields) (l : list User) :
  map u_id (usersAfterSet id f l) = map u_id l.
Proof.
  unfold usersAfterSet. rewrite map_map. apply map_ext.
  intros u. now destruct (u_id u =? id).
Qed.

Lemma usersAfterSet_emails (id : string) (f : UserFields) (l : list User) :
  NoDup (map u_id l) -> NoDup (map u_email l) ->
  (forall e, f_email f = Some e ->
     forall x, In x l -> u_email x = e -> u_id x = id) ->
  NoDup (map u_email (usersAfterSet id f l)).
Proof.
  destruct (f_email f) as [e|] eqn:Fe.
  2:{ intros _ H _. unfold usersAfterSet. rewrite map_map.
      erewrite map_ext; [exact H|]. intros u. cbn beta.
      destruct (u_id u =? id); [|reflexivity].
      unfold setFields. cbn [u_email]. now rewrite Fe. }
  intros Hid Hem Hown. specialize (Hown e eq_refl).
  induction l as [|x l IH]; [constructor|].
  cbn [map] in Hid, Hem. inversion Hid as [|? ? Hxi Hli]; subst.
  inversion Hem as [|? ? Hxe Hle]; subst.
  unfold usersAfterSet. cbn [map]. constructor.
  2:{ apply IH; auto. intros y Hy. apply Hown. now right. }
  intros Hin. apply in_map_iff in Hin. destruct Hin as [y' [Hy' Hin]].
  apply in_map_iff in Hin. destruct Hin as [y [<- Hy]].
  destruct (u_id x =? id) eqn:Ex, (u_id y =? id) eqn:Ey.
  - apply String.eqb_eq in Ex, Ey. apply Hxi. rewrite Ex, <- Ey. now apply in_map.
  - unfold setFields in Hy'. cbn [u_email] in Hy'. rewrite Fe in Hy'. cbn in Hy'.
    apply String.eqb_neq in Ey. apply Ey. apply Hown; [now right|assumption].
  - unfold setFields in Hy'. cbn [u_email] in Hy'. rewrite Fe in Hy'. cbn in Hy'.
    apply String.eqb_neq in Ex. apply Ex. apply Hown; [now left|congruence].
  - apply Hxe. rewrite <- Hy'. now apply in_map.
Qed.

Lemma preserves_updateUsers (id : string) (f : UserFields) :
  preserves (updateUsers id f).
Proof.
  intros db o db' W. unfold updateUsers.
  destruct (negb (existsb (fun u => u_id u =? id) (users db)));
    [intros H; inversion H; subst; exact W|].
  destruct (match f_email f with
            | Some e => existsb (fun u => (u_email u =? e) && negb (u_id u =? id))
                                (users db)
            | None => false
            end) eqn:Ee; [intros H; inversion H; subst; exact W|].
  destruct (match f_restaurantId f with
            | Some rid => negb (restaurantExists rid db)
            | None => false
            end) eqn:Er; intros H; inversion H; subst; [exact W|].
  destruct W as [Wr Wi We Wf]. split; cbn [set_users restaurants users].
  - assumption.
  - fold (usersAfterSet id f (users db)). now rewrite usersAfterSet_ids.
  - fold (usersAfterSet id f (users db)). apply usersAfterSet_emails; auto.
    intros e Fe x Hx Hxe. rewrite Fe in Ee.
    pose proof (proj1 (existsb_false_iff _ _) Ee x Hx) as N. cbn beta in N.
    rewrite Hxe, String.eqb_refl in N. cbn [andb] in N.
    destruct (u_id x =? id) eqn:E; [now apply String.eqb_eq|discriminate].
  - intros v Hv. apply in_map_iff in Hv. destruct Hv as [w [<- Hw]].
    destruct (u_id w =? id); [|now apply Wf].
    unfold setFields. cbn [u_restaurantId].
    destruct (f_restaurantId f) as [rid|]; cbn [orElse]; [|now apply Wf].
    apply in_keys. unfold restaurantExists in Er.
    now destruct (existsb (fun r => r_id r =? rid) (restaurants db)).
Qed.

Lemma preserves_updateRestaurants (id : string) (f : RestaurantFields) :
  preserves (updateRestaurants id f).
Proof.
  intros db o db' W H. unfold updateRestaurants in H. inversion H; subst.
  assert (map r_id (map (fun r => if r_id r =? id then setRestaurantFields f r else r)
                        (restaurants db)) = map r_id (restaurants db)) as E.
  { rewrite map_map. apply map_ext. intros r. now destruct (r_id r =? id). }
  destruct W as [Wr Wi We Wf].
  split; cbn [set_restaurants restaurants users]; try rewrite E; assumption.
Qed.

Create HintDb keeps.
#[local] Hint Resolve preserves_ret preserves_throw preserves_query
  preserves_transaction preserves_insertRestaurant preserves_insertUser
  preserves_deleteUsers preserves_updateUsers preserves_updateRestaurants : keeps.

Ltac keeps :=
  repeat first
    [ apply preserves_bind; [|intros ?]
    | apply preserves_if
    | match goal with
      | |- preserves (match ?x with _ => _ end) => destruct x
      end
    | solve [auto with keeps] ].

Lemma preserves_createRestaurant (uuid1 uuid2 : string)
    (restaurantData : RestaurantData) (adminData : AdminData) :
  preserves (createRestaurant uuid1 uuid2 restaurantData adminData).
Proof. unfold createRestaurant. keeps. apply preserves_transaction. keeps. Qed.

Lemma preserves_addUser (uuid : string) (userData : NewUser) :
  preserves (addUser uuid userData).
Proof. unfold addUser. keeps. Qed.

Lemma preserves_updateUser (id : string) (userData : UserFields) :
  preserves (updateUser id userData).
Proof. unfold updateUser. keeps. Qed.

Lemma preserves_deleteUser (id currentUserId : string) :
  preserves (deleteUser id currentUserId).
Proof. unfold deleteUser. keeps. Qed.

Lemma preserves_updateRestaurant (id : string) (restaurantData : RestaurantFields)
    (adminData : option AdminUpdate) :
  preserves (updateRestaurant id restaurantData adminData).
Proof. unfold updateRestaurant. apply preserves_transaction. keeps. Qed.

End Invariant.

(** ** The claims on the sample data *)

Section Scenarios.

Import Sample.

Lemma wf_twoTenants : wf twoTenants.
Proof.
  split; cbn.
  - repeat (constructor; [cbn; intuition discriminate|]). constructor.
  - repeat (constructor; [cbn; intuition discriminate|]). constructor.
  - repeat (constructor; [cbn; intuition discriminate|]). constructor.
  - intros u H. repeat (destruct H as [<-|H]; [cbn; auto|]). contradiction.
Qed.

(** The only superadmin cannot be deleted by the admin of its restaurant. *)
Lemma deleteUser_sole_superadmin_denied_witness :
  exists e, deleteUser "u1" "u2" loneAdmin = (Throw e, loneAdmin).
Proof.
  destruct (deleteUser_sole_superadmin_denied loneAdmin "u1" "u2" root)
    as [e [H _]]; [reflexivity | reflexivity | vm_compute; lia |].
  exists e. exact H.
Defined.

(** Restaurant "A" in an empty system, then restaurant "B". *)
Lemma createRestaurant_bootstrap_role_witness :
  createRestaurant "ra" "ua" restaurantA adminA emptyDb
  = (Ok "ra", registered emptyDb "ra" "ua" restaurantA adminA superadmin)
  /\ createRestaurant "rb" "ub" restaurantB adminB afterA
     = (Ok "rb", registered afterA "rb" "ub" restaurantB adminB admin).
Proof.
  split.
  - apply (proj1 (createRestaurant_bootstrap_role emptyDb "ra" "ua" restaurantA adminA));
      reflexivity.
  - apply (proj2 (createRestaurant_bootstrap_role afterA "rb" "ub" restaurantB adminB));
      [vm_compute; lia | reflexivity | reflexivity | reflexivity].
Defined.

(** C4 fails as stated: the admin of "r1" deletes the waiter of "r2", a
    restaurant with two users. *)
Lemma deleteUser_admin_crosses_restaurants :
  findFirst (fun u => u_id u =? "u2") (users twoTenants) = Some ana
  /\ u_role ana = admin
  /\ findFirst (fun u => u_id u =? "u5") (users twoTenants) = Some teo
  /\ u_role teo = waiter
  /\ u_restaurantId teo <> u_restaurantId ana
  /\ deleteUser "u5" "u2" twoTenants
     = (Ok tt, set_users [root; ana; luis; bea] twoTenants).
Proof. repeat split; try reflexivity. cbn. discriminate. Qed.

Lemma deleteUser_by_admin_witness :
  deleteUser "u3" "u2" twoTenants = (Ok tt, set_users [root; ana; bea; teo] twoTenants)
  /\ exists e, deleteUser "u4" "u2" twoTenants = (Throw e, twoTenants).
Proof.
  pose proof (deleteUser_by_admin twoTenants "u3" "u2" ana eq_refl eq_refl) as [H _].
  pose proof (deleteUser_by_admin twoTenants "u4" "u2" ana eq_refl eq_refl) as [_ D].
  split.
  - apply H. split; [discriminate|]. split; [|reflexivity].
    exists luis. split; [reflexivity|]. split; [now left|]. vm_compute. lia.
  - apply (D bea); [reflexivity | now left].
Defined.

(** The superadmin deletes the only user of "r2". *)
Lemma deleteUser_by_superadmin_ignores_last_user_witness :
  deleteUser "u4" "u1" loneAdmin = (Ok tt, set_users [root; ana] loneAdmin)
  /\ count (fun u => u_restaurantId u =? "r2")
           (users (snd (deleteUser "u4" "u1" loneAdmin))) = 0.
Proof.
  destruct (deleteUser_by_superadmin_ignores_last_user loneAdmin "u4" "u1" root bea)
    as [H Z]; [discriminate | reflexivity | reflexivity | reflexivity
               | cbn; discriminate |].
  split; [exact H | apply Z; reflexivity].
Defined.

Lemma duplicate_email_rejected_witness :
  createRestaurant "r3" "u6" restaurantA
    (mkAdminData "Otro" "admin@example.com" "secreto9") twoTenants
  = (Throw EmailInUseByAnotherUser, twoTenants)
  /\ addUser "u6" (mkNewUser "Otro" "admin@example.com" "secreto9" waiter "r2")
       twoTenants
     = (Throw EmailInUse, twoTenants).
Proof.
  destruct (duplicate_email_rejected twoTenants "admin@example.com") as [C A].
  - exists ana. split; [cbn; tauto | reflexivity].
  - split; [apply C | apply A]; reflexivity.
Defined.

Lemma updateUser_email_uniqueness_witness :
  updateUser "u3" (mkUserFields None (Some "admin@example.com") None None None)
    twoTenants
  = (Throw EmailInUseByAnotherUser, twoTenants)
  /\ updateUser "u3" (mkUserFields (Some "Luis M.") (Some "vendedor@example.com")
                                   None None None) twoTenants
     = (Ok (Some (mkUser "u3" "Luis M." "vendedor@example.com" "password123"
                         seller "r1")),
        set_users [root; ana;
                   mkUser "u3" "Luis M." "vendedor@example.com" "password123"
                          seller "r1";
                   bea; teo] twoTenants).
Proof.
  split.
  - apply (proj1 (updateUser_email_uniqueness twoTenants "u3" "admin@example.com"
                    (mkUserFields None (Some "admin@example.com") None None None)
                    eq_refl ltac:(discriminate))).
    exists ana. split; [cbn; tauto|]. split; [discriminate | reflexivity].
  - apply (proj2 (updateUser_email_uniqueness twoTenants "u3" "vendedor@example.com"
                    (mkUserFields (Some "Luis M.") (Some "vendedor@example.com")
                                  None None None)
                    eq_refl ltac:(discriminate)) luis wf_twoTenants).
    + cbn; tauto.
    + reflexivity.
    + reflexivity.
    + exact I.
Defined.

Lemma updateUser_writes_supplied_fields_witness :
  exists u' db',
    updateUser "u3" (mkUserFields None None None None (Some "r2")) twoTenants
    = (Ok (Some u'), db')
    /\ u_id u' = "u3"
    /\ u_restaurantId u' = "r2".
Proof.
  destruct (updateUser_writes_supplied_fields twoTenants "u3" noFields)
    as [_ [_ [H _]]].
  destruct (H luis "r2") as [u' [db' [R [I [T _]]]]];
    [cbn; tauto | reflexivity | reflexivity |].
  exists u', db'. auto.
Defined.

(** C3 fails as stated: for a seller of "r1", the scope "all" yields the rows
    of "r2" as well. *)
Lemma list_all_returns_other_tenants :
  In luis (users twoTenants)
  /\ u_role luis <> superadmin
  /\ getProductsForRestaurant "all" twoTenants = (Ok [paella; chuleton], twoTenants)
  /\ getSalesForRestaurant "all" twoTenants = (Ok [mesa1; mesa2], twoTenants)
  /\ p_restaurantId chuleton <> u_restaurantId luis
  /\ s_restaurantId mesa2 <> u_restaurantId luis.
Proof.
  repeat split; try reflexivity; cbn; try tauto; discriminate.
Qed.

Lemma list_scope_is_the_only_filter_witness :
  getProductsForRestaurant "r1" twoTenants = (Ok [paella], twoTenants)
  /\ getSalesForRestaurant "all" twoTenants = (Ok [mesa1; mesa2], twoTenants)
  /\ restaurantIdToSet luis elPuerto = "r1".
Proof.
  pose proof (list_scope_is_the_only_filter twoTenants "r1") as [_ [S L]].
  pose proof (list_scope_is_the_only_filter twoTenants "all") as [A _].
  split; [|split].
  - apply S. discriminate.
  - apply A. reflexivity.
  - apply (L luis elPuerto). discriminate.
Defined.

(** C7 fails as stated: items worth 25.50 are stored with the total 99.00 the
    caller supplied. *)
Lemma addSale_keeps_inconsistent_total :
  itemsTotal (ns_items overcharged) = 2550%Z
  /\ exists stored,
       addSale "s3" overcharged twoTenants
       = (Ok stored, set_sales [mesa1; mesa2; stored] twoTenants)
       /\ s_items stored = scenarioItems
       /\ s_totalPrice stored = 9900%Z
       /\ s_totalPrice stored <> itemsTotal (s_items stored).
Proof.
  split; [reflexivity|]. eexists. split; [reflexivity|].
  cbn. repeat split. discriminate.
Qed.

Lemma addSale_persists_supplied_total_witness :
  exists stored,
    addSale "s3" consistent twoTenants
    = (Ok stored, set_sales [mesa1; mesa2; stored] twoTenants)
    /\ s_totalPrice stored = 2550%Z
    /\ s_totalPrice stored = itemsTotal (s_items stored).
Proof.
  destruct (addSale_persists_supplied_total twoTenants "s3" consistent)
    as [stored [R [_ [_ [T E]]]]]; [reflexivity | reflexivity |].
  exists stored. split; [exact R|]. split; [exact T|]. apply E. reflexivity.
Defined.

(** [updateRestaurant] stores a new password of six characters or more as it
    is given, and leaves the stored one when the new one is shorter. *)
Example updateRestaurant_password_as_given :
  updateRestaurant "r1" (mkRestaurantFields None None None)
    (Some (mkAdminUpdate "u2" "admin@example.com" (Some "nuevo123"))) twoTenants
  = (Ok (Some (elPuerto,
               [root;
                mkUser "u2" "Ana" "admin@example.com" "nuevo123" admin "r1";
                luis])),
     set_users [root;
                mkUser "u2" "Ana" "admin@example.com" "nuevo123" admin "r1";
                luis; bea; teo] twoTenants)
  /\ updateRestaurant "r1" (mkRestaurantFields None None None)
       (Some (mkAdminUpdate "u2" "admin@example.com" (Some "corta"))) twoTenants
     = (Ok (Some (elPuerto, [root; ana; luis])), twoTenants).
Proof. split; reflexivity. Qed.

(** C6, on the code. [addUser] with the password "secreto3" leaves a row whose
    password column is "secreto3": the value is stored as supplied, and it is
    that value the login compares with the typed password. *)
Theorem addUser_stores_plaintext_password :
  addUser "u6" eva twoTenants
  = (Ok (mkUser "u6" "Eva" "eva@example.com" "secreto3" seller "r1"),
     set_users [root; ana; luis; bea; teo;
                mkUser "u6" "Eva" "eva@example.com" "secreto3" seller "r1"]
               twoTenants)
  /\ (forall db', snd (addUser "u6" eva twoTenants) = db' ->
        forall u, In u (users db') -> u_id u = "u6" ->
                  u_password u = nu_password eva)
  /\ fst ((addUser "u6" eva ;;; login "eva@example.com" "secreto3") twoTenants)
     = Ok (Some (mkUser "u6" "Eva" "eva@example.com" "secreto3" seller "r1",
                 elPuerto)).
Proof.
  split; [reflexivity|]. split; [|reflexivity].
  intros db' <- u Hu Hid. cbn in Hu.
  repeat (destruct Hu as [<-|Hu]; [try discriminate Hid; try reflexivity|]).
  contradiction.
Qed.

End Scenarios.

(** ** Deleting a restaurant *)

Section DeleteRestaurant.

Variable db : Db.
Variable id : string.

Lemma filter_cascaded {A} (key : A -> string) (rows : list A) :
  filter (fun r => key r =? id) (filter (fun r => negb (key r =? id)) rows) = [].
Proof.
  induction rows as [|x l IH]; [reflexivity|].
  cbn [filter]. destruct (key x =? id) eqn:E; cbn [negb]; [exact IH|].
  cbn [filter]. now rewrite E.
Qed.

Lemma filter_other_scope {A} (key : A -> string) (scope : string) (rows : list A) :
  scope <> id ->
  filter (fun r => key r =? scope) (filter (fun r => negb (key r =? id)) rows)
  = filter (fun r => key r =? scope) rows.
Proof.
  intros Hne. induction rows as [|x l IH]; [reflexivity|].
  cbn [filter]. destruct (key x =? id) eqn:E; cbn [negb].
  - apply String.eqb_eq in E.
    assert ((key x =? scope) = false) as ->; [|exact IH].
    apply String.eqb_neq. congruence.
  - cbn [filter]. destruct (key x =? scope); [now rewrite IH | exact IH].
Qed.

(** X1. Deleting an existing restaurant takes with it every row that belongs
    to it: afterwards the restaurant is not found, no user refers to it and
    its five listings are empty, while every listing of another restaurant
    and every user of another restaurant is as before. *)
Theorem deleteRestaurant_cascade :
  restaurantExists id db = true ->
  id <> "all" ->
  exists db',
    deleteRestaurant id db = (Ok tt, db')
    /\ getRestaurantById id db' = (Ok None, db')
    /\ (forall u, In u (users db') <-> In u (users db) /\ u_restaurantId u <> id)
    /\ getProductsForRestaurant id db' = (Ok [], db')
    /\ getCategoriesForRestaurant id db' = (Ok [], db')
    /\ getCustomersForRestaurant id db' = (Ok [], db')
    /\ getPurchasesForRestaurant id db' = (Ok [], db')
    /\ getSalesForRestaurant id db' = (Ok [], db')
    /\ (forall scope, scope <> id -> scope <> "all" ->
          fst (getProductsForRestaurant scope db')
          = fst (getProductsForRestaurant scope db)
          /\ fst (getCategoriesForRestaurant scope db')
             = fst (getCategoriesForRestaurant scope db)
          /\ fst (getCustomersForRestaurant scope db')
             = fst (getCustomersForRestaurant scope db)
          /\ fst (getPurchasesForRestaurant scope db')
             = fst (getPurchasesForRestaurant scope db)
          /\ fst (getSalesForRestaurant scope db')
             = fst (getSalesForRestaurant scope db)).
Proof.
  intros Hex Hall. unfold deleteRestaurant, deleteRestaurants. rewrite Hex.
  eexists. split; [reflexivity|].
  apply String.eqb_neq in Hall.
  unfold getRestaurantById, getProductsForRestaurant, getCategoriesForRestaurant,
    getCustomersForRestaurant, getPurchasesForRestaurant, getSalesForRestaurant.
  rewrite Hall. run.
  cbn [restaurants users categories products customers purchases sales].
  rewrite !filter_cascaded. cbn [map].
  split; [|split; [|repeat (split; [reflexivity|])]].
  - assert (findFirst (fun r => r_id r =? id)
                      (filter (fun r => negb (r_id r =? id)) (restaurants db))
            = None) as ->; [|reflexivity].
    apply findFirst_None. intros r Hr. apply filter_In in Hr.
    destruct Hr as [_ Hr]. now destruct (r_id r =? id).
  - intros u. rewrite filter_In. split; intros [Hin Hk]; split; auto.
    + intros E. rewrite E, String.eqb_refl in Hk. discriminate.
    + apply String.eqb_neq in Hk. now rewrite Hk.
  - intros scope Hne Hs. apply String.eqb_neq in Hs. rewrite Hs. run.
    cbn [fst restaurants users categories products customers purchases sales].
    rewrite !filter_other_scope by assumption.
    repeat split.
Qed.

(** X2. [deleteRestaurant] asks nothing about superadmins: when every
    superadmin belongs to the restaurant deleted, none is left afterwards. *)
Theorem deleteRestaurant_removes_every_superadmin :
  restaurantExists id db = true ->
  (forall u, In u (users db) -> u_role u = superadmin -> u_restaurantId u = id) ->
  fst (deleteRestaurant id db) = Ok tt
  /\ count (fun u => role_eqb (u_role u) superadmin)
           (users (snd (deleteRestaurant id db))) = 0.
Proof.
  intros Hex Hall. unfold deleteRestaurant, deleteRestaurants. rewrite Hex.
  split; [reflexivity|]. cbn [snd users]. apply count_zero_iff.
  intros u Hu. apply filter_In in Hu. destruct Hu as [Hin Hk].
  destruct (role_eqb (u_role u) superadmin) eqn:E; [|reflexivity].
  apply role_eqb_eq in E. rewrite (Hall u Hin E), String.eqb_refl in Hk.
  discriminate.
Qed.

Lemma preserves_deleteRestaurants : preserves (deleteRestaurants id).
Proof.
  intros d o d' W. unfold deleteRestaurants.
  destruct (restaurantExists id d); intros H; inversion H; subst; [|exact W].
  destruct W as [Wr Wi We Wf]. split; cbn [restaurants users].
  - now apply NoDup_keys_filter.
  - now apply NoDup_keys_filter.
  - now apply NoDup_keys_filter.
  - intros u Hu. apply filter_In in Hu. destruct Hu as [Hin Hk].
    specialize (Wf u Hin). apply in_map_iff in Wf. destruct Wf as [r [Hr Hrin]].
    apply in_map_iff. exists r. split; [assumption|].
    apply filter_In. split; [assumption|]. now rewrite Hr.
Qed.

End DeleteRestaurant.

Lemma deleteRestaurant_cascade_witness :
  exists db',
    deleteRestaurant "r2" Sample.twoTenants = (Ok tt, db')
    /\ getSalesForRestaurant "r2" db' = (Ok [], db')
    /\ fst (getSalesForRestaurant "r1" db') = Ok [Sample.mesa1].
Proof.
  destruct (deleteRestaurant_cascade Sample.twoTenants "r2")
    as [db' [R [_ [_ [_ [_ [_ [_ [S K]]]]]]]]]; [reflexivity | discriminate |].
  exists db'. split; [exact R|]. split; [exact S|].
  destruct (K "r1") as [_ [_ [_ [_ E]]]]; [discriminate | discriminate |].
  rewrite E. reflexivity.
Defined.

Lemma deleteRestaurant_removes_every_superadmin_witness :
  count (fun u => role_eqb (u_role u) superadmin) (users Sample.twoTenants) = 1
  /\ count (fun u => role_eqb (u_role u) superadmin)
           (users (snd (deleteRestaurant "r1" Sample.twoTenants))) = 0.
Proof.
  split; [reflexivity|].
  apply (deleteRestaurant_removes_every_superadmin Sample.twoTenants "r1");
    [reflexivity|].
  intros u H. cbn in H.
  repeat (destruct H as [<-|H]; [cbn; intros; try discriminate; reflexivity|]).
  contradiction.
Defined.

(** ** The directory as a whole *)

Section Directory.

Variable db : Db.

Lemma preserves_snd {A} (m : Action A) :
  preserves m -> wf db -> wf (snd (m db)).
Proof.
  intros Hm W. destruct (m db) as [o d] eqn:E. exact (Hm db o d W E).
Qed.


Lemma insertUser_throw (u : User) (e : Error) (db' : Db) :
  insertUser u db = (Throw e, db') -> db' = db.
Proof.
  unfold insertUser.
  repeat match goal with
         | |- context [if ?b then _ else _] => destruct b
         end; intros H; now inversion H.
Qed.

Lemma updateUsers_throw (id : string) (f : UserFields) (e : Error) (db' : Db) :
  updateUsers id f db = (Throw e, db') -> db' = db.
Proof.
  unfold updateUsers.
  repeat match goal with
         | |- context [if ?b then _ else _] => destruct b
         end; intros H; now inversion H.
Qed.

Lemma addUser_throw (uuid : string) (userData : NewUser) (e : Error) (db' : Db) :
  addUser uuid userData db = (Throw e, db') -> db' = db.
Proof.
  unfold addUser. run.
  destruct (Nat.ltb 0 _); [intros H; now inversion H|].
  destruct (insertUser _ db) as [[[]|e'] d] eqn:E; intros H; inversion H; subst.
  now apply insertUser_throw in E.
Qed.

Lemma updateUser_throw (id : string) (userData : UserFields) (e : Error) (db' : Db) :
  updateUser id userData db = (Throw e, db') -> db' = db.
Proof.
  unfold updateUser. run.
  assert ((let (o, d) := updateUsers id userData db in
           match o with
           | Ok _ => (Ok (findFirst (fun u => u_id u =? id) (users d)), d)
           | Throw e0 => (Throw e0, d)
           end) = (Throw e, db') -> db' = db) as Hgen.
  { destruct (updateUsers id userData db) as [[[]|e'] d] eqn:E;
      intros H; inversion H; subst.
    now apply updateUsers_throw in E. }
  destruct (f_email userData) as [email|]; [destruct (truthy email)|]; auto.
  destruct (findFirst _ (users db)); [intros H; now inversion H | exact Hgen].
Qed.

Lemma deleteUser_throw (id currentUserId : string) (e : Error) (db' : Db) :
  deleteUser id currentUserId db = (Throw e, db') -> db' = db.
Proof.
  unfold deleteUser, deleteUsers. run.
  repeat match goal with
         | |- context [if ?b then _ else _] => destruct b
         | |- context [match findFirst ?p ?l with _ => _ end] =>
             destruct (findFirst p l)
         | |- context [match option_map ?g ?o with _ => _ end] =>
             destruct o; cbn [option_map]
         | |- context [match u_role ?u with _ => _ end] => destruct (u_role u)
         end; intros H; now inversion H.
Qed.

(** X4. A directory action that throws has written nothing: the database
    after the throw is the database before the call, also when the throw
    comes from the storage in the middle of a registration. *)
Theorem directory_actions_throw_without_writing (e : Error) (db' : Db) :
  (forall uuid1 uuid2 restaurantData adminData,
     createRestaurant uuid1 uuid2 restaurantData adminData db = (Throw e, db') ->
     db' = db)
  /\ (forall id restaurantData adminData,
        updateRestaurant id restaurantData adminData db = (Throw e, db') ->
        db' = db)
  /\ (forall uuid userData, addUser uuid userData db = (Throw e, db') -> db' = db)
  /\ (forall id userData, updateUser id userData db = (Throw e, db') -> db' = db)
  /\ (forall id currentUserId,
        deleteUser id currentUserId db = (Throw e, db') -> db' = db)
  /\ (forall id, deleteRestaurant id db <> (Throw e, db')).
Proof.
  repeat split; intros.
  - eapply createRestaurant_atomic; eassumption.
  - unfold updateRestaurant in H. eapply transaction_throw; eassumption.
  - eapply addUser_throw; eassumption.
  - eapply updateUser_throw; eassumption.
  - eapply deleteUser_throw; eassumption.
  - unfold deleteRestaurant, deleteRestaurants.
    destruct (restaurantExists id db); discriminate.
Qed.

End Directory.


Lemma directory_actions_throw_without_writing_witness :
  fst (createRestaurant "r3" "u1" Sample.restaurantB Sample.adminB Sample.twoTenants)
  = Throw ER_DUP_ENTRY
  /\ snd (createRestaurant "r3" "u1" Sample.restaurantB Sample.adminB
            Sample.twoTenants)
     = Sample.twoTenants.
Proof.
  split; [reflexivity|].
  apply (proj1 (directory_actions_throw_without_writing
                  Sample.twoTenants ER_DUP_ENTRY
                  (snd (createRestaurant "r3" "u1" Sample.restaurantB
                          Sample.adminB Sample.twoTenants)))
               "r3" "u1" Sample.restaurantB Sample.adminB).
  reflexivity.
Defined.

(** ** The deletion policy, continued *)

Section DeletionPolicy.

Variable db : Db.
Variables id currentUserId : string.

Lemma deleteUser_ok_inv (db' : Db) :
  deleteUser id currentUserId db = (Ok tt, db') ->
  id <> currentUserId
  /\ db' = set_users (filter (fun u => negb (u_id u =? id)) (users db)) db
  /\ exists target actor,
       findFirst (fun u => u_id u =? id) (users db) = Some target
       /\ findFirst (fun u => u_id u =? currentUserId) (users db) = Some actor
       /\ ((u_role actor = superadmin
            /\ (u_role target = superadmin ->
                1 < count (fun u => role_eqb (u_role u) superadmin) (users db)))
           \/ (u_role actor = admin
               /\ (u_role target = seller \/ u_role target = waiter)
               /\ 1 < count (fun u => u_restaurantId u =? u_restaurantId target)
                            (users db))).
Proof.
  unfold deleteUser, deleteUsers.
  destruct (id =? currentUserId) eqn:Eid; [discriminate|].
  apply String.eqb_neq in Eid. run.
  destruct (findFirst (fun u => u_id u =? id) (users db)) as [target|];
    [|discriminate].
  destruct (findFirst (fun u => u_id u =? currentUserId) (users db)) as [actor|];
    cbn [option_map]; [|discriminate].
  destruct (u_role actor) eqn:Ea; try discriminate.
  - destruct (role_eqb (u_role target) superadmin) eqn:Et.
    + destruct (Nat.leb _ 1) eqn:Ec; [discriminate|].
      apply Nat.leb_gt in Ec. intros H; inversion H.
      repeat split; auto. exists target, actor. repeat split. left. auto.
    + intros H; inversion H. repeat split; auto.
      exists target, actor. repeat split. left. split; [exact Ea|].
      intros R. rewrite R in Et. discriminate.
  - destruct (u_role target) eqn:Et; cbn [role_eqb orb]; try discriminate.
    all: destruct (Nat.leb _ 1) eqn:Ec; [discriminate|];
         apply Nat.leb_gt in Ec; intros H; inversion H;
         repeat split; auto; exists target, actor; repeat split;
         right; repeat split; auto.
Qed.

(** X5. [deleteUser] refuses, without writing: a user deleting the own
    account; a target that does not exist; and any deletion asked by a seller,
    a waiter, or an identifier that is no user's. *)
Theorem deleteUser_denials :
  (id = currentUserId ->
   deleteUser id currentUserId db = (Throw CannotDeleteOwnAccount, db))
  /\ (id <> currentUserId ->
      findFirst (fun u => u_id u =? id) (users db) = None ->
      deleteUser id currentUserId db = (Throw UserDoesNotExist, db))
  /\ (id <> currentUserId ->
      forall target,
        findFirst (fun u => u_id u =? id) (users db) = Some target ->
        (findFirst (fun u => u_id u =? currentUserId) (users db) = None
         \/ exists actor,
              findFirst (fun u => u_id u =? currentUserId) (users db) = Some actor
              /\ (u_role actor = seller \/ u_role actor = waiter)) ->
        deleteUser id currentUserId db = (Throw CannotDeleteUsers, db)).
Proof.
  unfold deleteUser. split; [|split].
  - intros ->. now rewrite String.eqb_refl.
  - intros Hne Hnone. apply String.eqb_neq in Hne. rewrite Hne. run.
    now rewrite Hnone.
  - intros Hne target Ht Hactor. apply String.eqb_neq in Hne. rewrite Hne. run.
    rewrite Ht. destruct Hactor as [-> | [actor [-> [R|R]]]];
      cbn [option_map]; try rewrite R; reflexivity.
Qed.

Lemma count_two {A} (p : A -> bool) (rows : list A) (a b : A) :
  In a rows -> In b rows -> a <> b -> p a = true -> p b = true ->
  1 < count p rows.
Proof.
  intros Ha Hb Hne Pa Pb. unfold count.
  assert (In a (filter p rows)) as Ia by (apply filter_In; auto).
  assert (In b (filter p rows)) as Ib by (apply filter_In; auto).
  destruct (filter p rows) as [|x [|y l]]; cbn [length]; try lia.
  - destruct Ia.
  - destruct Ia as [<-|[]]. destruct Ib as [<-|[]]. contradiction.
Qed.

(** X6. Inside the own restaurant the last-user guard never fires: an admin
    deleting a seller or waiter of the admin's restaurant always succeeds.
    A deletion refused for being the only user of a restaurant is therefore
    always aimed at another restaurant than the admin's. *)
Theorem deleteUser_last_user_guard_is_cross_tenant (actor target : User) :
  findFirst (fun u => u_id u =? currentUserId) (users db) = Some actor ->
  findFirst (fun u => u_id u =? id) (users db) = Some target ->
  u_role actor = admin ->
  id <> currentUserId ->
  (u_role target = seller \/ u_role target = waiter ->
   u_restaurantId target = u_restaurantId actor ->
   deleteUser id currentUserId db
   = (Ok tt, set_users (filter (fun u => negb (u_id u =? id)) (users db)) db))
  /\ (forall db',
        deleteUser id currentUserId db = (Throw OnlyUserOfRestaurant, db') ->
        u_restaurantId target <> u_restaurantId actor).
Proof.
  intros Ha Ht Hrole Hne.
  destruct (findFirst_In _ _ _ Ha) as [Hain Haid].
  destruct (findFirst_In _ _ _ Ht) as [Htin Htid].
  apply String.eqb_eq in Haid, Htid.
  assert (u_restaurantId target = u_restaurantId actor ->
          1 < count (fun u => u_restaurantId u =? u_restaurantId target) (users db))
    as Htwo.
  { intros Hsame. apply (count_two _ _ actor target); auto.
    - intros E. subst actor. congruence.
    - rewrite Hsame. apply String.eqb_refl.
    - apply String.eqb_refl. }
  split.
  - intros Hr Hsame. specialize (Htwo Hsame).
    unfold deleteUser, deleteUsers. apply String.eqb_neq in Hne. rewrite Hne.
    run. rewrite Ht, Ha. cbn [option_map]. rewrite Hrole.
    apply Nat.leb_gt in Htwo.
    destruct Hr as [R | R]; rewrite R; cbn [role_eqb orb]; rewrite Htwo;
      reflexivity.
  - intros db' H Hsame. specialize (Htwo Hsame).
    unfold deleteUser in H. apply String.eqb_neq in Hne. rewrite Hne in H.
    revert H. run. rewrite Ht, Ha. cbn [option_map]. rewrite Hrole.
    destruct (role_eqb (u_role target) admin || role_eqb (u_role target) superadmin);
      [discriminate|].
    apply Nat.leb_gt in Htwo. cbn beta iota. rewrite Htwo. discriminate.
Qed.

(** X7. [deleteUser] never removes the last superadmin of a database that
    meets the schema's constraints: when it succeeds and there was a
    superadmin before, there is one after. *)
Theorem deleteUser_keeps_a_superadmin (db' : Db) :
  wf db ->
  deleteUser id currentUserId db = (Ok tt, db') ->
  1 <= count (fun u => role_eqb (u_role u) superadmin) (users db) ->
  1 <= count (fun u => role_eqb (u_role u) superadmin) (users db').
Proof.
  intros W H Hone. apply deleteUser_ok_inv in H.
  destruct H as [Hne [-> [target [actor [Ht [Ha Hcase]]]]]].
  cbn [set_users users]. apply count_pos_iff.
  destruct (findFirst_In _ _ _ Ha) as [Hain Haid].
  destruct (findFirst_In _ _ _ Ht) as [Htin Htid].
  apply String.eqb_eq in Haid, Htid.
  destruct Hcase as [[Hr _] | [_ [Hr _]]].
  - exists actor. split; [|rewrite Hr; reflexivity].
    apply filter_In. split; [assumption|].
    assert ((u_id actor =? id) = false) as ->; [|reflexivity].
    apply String.eqb_neq. congruence.
  - apply count_pos_iff in Hone. destruct Hone as [s [Hs Hsr]].
    exists s. split; [|assumption]. apply filter_In. split; [assumption|].
    destruct (u_id s =? id) eqn:E; [|reflexivity]. exfalso.
    apply String.eqb_eq in E.
    pose proof (find_by_id_In (users db) s (wf_user_ids db W) Hs) as F.
    rewrite E, Ht in F. inversion F; subst s.
    apply role_eqb_eq in Hsr. destruct Hr; congruence.
Qed.

End DeletionPolicy.

Lemma deleteUser_denials_witness :
  deleteUser "u3" "u3" Sample.twoTenants
  = (Throw CannotDeleteOwnAccount, Sample.twoTenants)
  /\ deleteUser "u9" "u1" Sample.twoTenants
     = (Throw UserDoesNotExist, Sample.twoTenants)
  /\ deleteUser "u5" "u3" Sample.twoTenants
     = (Throw CannotDeleteUsers, Sample.twoTenants).
Proof.
  split; [|split].
  - apply (proj1 (deleteUser_denials Sample.twoTenants "u3" "u3")). reflexivity.
  - apply (proj1 (proj2 (deleteUser_denials Sample.twoTenants "u9" "u1")));
      [discriminate | reflexivity].
  - apply (proj2 (proj2 (deleteUser_denials Sample.twoTenants "u5" "u3"))
             ltac:(discriminate) Sample.teo eq_refl).
    right. exists Sample.luis. split; [reflexivity | now left].
Defined.

Lemma deleteUser_last_user_guard_is_cross_tenant_witness :
  deleteUser "u3" "u2" Sample.twoTenants
  = (Ok tt, set_users [Sample.root; Sample.ana; Sample.bea; Sample.teo]
                      Sample.twoTenants).
Proof.
  apply (proj1 (deleteUser_last_user_guard_is_cross_tenant Sample.twoTenants
                  "u3" "u2" Sample.ana Sample.luis eq_refl eq_refl eq_refl
                  ltac:(discriminate)));
    [now left | reflexivity].
Defined.

Lemma deleteUser_keeps_a_superadmin_witness :
  1 <= count (fun u => role_eqb (u_role u) superadmin)
             (users (set_users [Sample.root; Sample.ana; Sample.luis; Sample.bea]
                               Sample.twoTenants)).
Proof.
  apply (deleteUser_keeps_a_superadmin Sample.twoTenants "u5" "u1" _ wf_twoTenants);
    [reflexivity | vm_compute; lia].
Defined.

(** ** Login and registration *)

Section Login.

Variable db : Db.

Lemma login_runs (email password : string) :
  login email password db
  = (Ok (findLogin
           (map (fun r => (r, filter (fun u => u_restaurantId u =? r_id r) (users db)))
                (restaurants db))
           email password), db).
Proof. reflexivity. Qed.

Lemma findLogin_sound (allRestaurants : list (Restaurant * list User))
    (email password : string) (u : User) (r : Restaurant) :
  findLogin allRestaurants email password = Some (u, r) ->
  exists rusers,
    In (r, rusers) allRestaurants /\ In u rusers
    /\ u_email u = email /\ u_password u = password.
Proof.
  induction allRestaurants as [|[r0 us] rest IH]; [discriminate|].
  cbn [findLogin].
  assert (findLogin rest email password = Some (u, r) ->
          exists rusers,
            In (r, rusers) ((r0, us) :: rest) /\ In u rusers
            /\ u_email u = email /\ u_password u = password) as Hrest.
  { intros H. destruct (IH H) as [rusers [Hin Hrest]].
    exists rusers. split; [now right | exact Hrest]. }
  destruct (find (fun x => u_email x =? email) us) as [found|] eqn:F; [|exact Hrest].
  destruct (u_password found =? password) eqn:P; [|exact Hrest].
  intros H. inversion H; subst. apply find_some in F. destruct F as [Fin Fe].
  exists us. repeat split; [now left | assumption | |]; now apply String.eqb_eq.
Qed.

Lemma find_by_email_In (l : list User) (t : User) :
  NoDup (map u_email l) -> In t l ->
  find (fun u => u_email u =? u_email t) l = Some t.
Proof.
  induction l as [|x l IH]; intros Hnd Hin; [contradiction|].
  cbn [map] in Hnd. inversion Hnd as [|? ? Hx Hl]; subst.
  cbn [find]. destruct Hin as [->|Hin].
  - now rewrite String.eqb_refl.
  - destruct (u_email x =? u_email t) eqn:E; [|now apply IH].
    apply String.eqb_eq in E. exfalso. apply Hx. rewrite E. now apply in_map.
Qed.

Lemma findLogin_complete (us : list User) (rs : list Restaurant)
    (u : User) (r0 : Restaurant) :
  NoDup (map u_email us) -> NoDup (map r_id rs) ->
  In u us -> In r0 rs -> r_id r0 = u_restaurantId u ->
  findLogin (map (fun r => (r, filter (fun x => u_restaurantId x =? r_id r) us)) rs)
            (u_email u) (u_password u)
  = Some (u, r0).
Proof.
  intros He Hr Hu. induction rs as [|r rs IH]; intros Hin Hid; [contradiction|].
  cbn [map] in Hr. inversion Hr as [|? ? Hx Hrs]; subst.
  cbn [map findLogin].
  destruct (r_id r =? u_restaurantId u) eqn:E.
  - apply String.eqb_eq in E.
    assert (r0 = r) as ->.
    { destruct Hin as [->|Hin]; [reflexivity|]. exfalso. apply Hx.
      rewrite E, <- Hid. now apply in_map. }
    rewrite (find_by_email_In _ u).
    + now rewrite String.eqb_refl.
    + now apply NoDup_keys_filter.
    + apply filter_In. split; [assumption|]. rewrite E. apply String.eqb_refl.
  - assert (find (fun x => u_email x =? u_email u)
                 (filter (fun x => u_restaurantId x =? r_id r) us) = None) as ->.
    { apply (proj2 (findFirst_None _ _)). intros x Hx'. apply filter_In in Hx'.
      destruct Hx' as [Hxin Hxr].
      destruct (u_email x =? u_email u) eqn:Ee; [|reflexivity].
      apply String.eqb_eq in Ee.
      rewrite (email_owner_unique us u x He Hu Hxin Ee) in Hxr.
      rewrite String.eqb_sym in Hxr. congruence. }
    apply IH; [assumption| |assumption].
    destruct Hin as [->|Hin]; [|assumption].
    rewrite Hid, String.eqb_refl in E. discriminate.
Qed.

(** X8. The normal login returns a user exactly for a stored pair of email and
    password.  What it returns is a user of the database with the typed email
    whose stored password equals the typed one, together with the user's
    restaurant; in a database that meets the schema's constraints every user
    is let in with the own email and stored password; and when no user with
    the typed email has the typed password nobody is let in. *)
Theorem login_characterised :
  (forall email password u r,
     login email password db = (Ok (Some (u, r)), db) ->
     In u (users db) /\ In r (restaurants db)
     /\ u_restaurantId u = r_id r
     /\ u_email u = email /\ u_password u = password)
  /\ (wf db ->
      forall u, In u (users db) ->
        exists r,
          In r (restaurants db) /\ r_id r = u_restaurantId u
          /\ login (u_email u) (u_password u) db = (Ok (Some (u, r)), db))
  /\ (forall email password,
        (forall u, In u (users db) -> u_email u = email -> u_password u <> password) ->
        login email password db = (Ok None, db)).
Proof.
  assert (forall email password u r,
            login email password db = (Ok (Some (u, r)), db) ->
            In u (users db) /\ In r (restaurants db)
            /\ u_restaurantId u = r_id r
            /\ u_email u = email /\ u_password u = password) as Hsound.
  { intros email password u r H. rewrite login_runs in H. inversion H as [F].
    apply findLogin_sound in F. destruct F as [us [Hin [Hu [He Hp]]]].
    apply in_map_iff in Hin. destruct Hin as [r' [Heq Hr]]. inversion Heq; subst.
    apply filter_In in Hu. destruct Hu as [Hu Hk]. apply String.eqb_eq in Hk.
    auto. }
  split; [exact Hsound|]. split.
  - intros W u Hu.
    pose proof (wf_user_restaurant db W u Hu) as Hr.
    apply in_map_iff in Hr. destruct Hr as [r [Hid Hr]].
    exists r. repeat split; auto. rewrite login_runs.
    rewrite (findLogin_complete (users db) (restaurants db) u r); auto.
    + apply (wf_user_emails db W).
    + apply (wf_restaurant_ids db W).
  - intros email password Hno. rewrite login_runs.
    destruct (findLogin _ email password) as [[u r]|] eqn:F; [|reflexivity].
    exfalso.
    destruct (Hsound email password u r) as [Hu [_ [_ [He Hp]]]].
    + rewrite login_runs, F. reflexivity.
    + exact (Hno u Hu He Hp).
Qed.

End Login.

Lemma login_characterised_witness :
  login "bea@example.com" "secreto1" Sample.twoTenants
  = (Ok (Some (Sample.bea, Sample.laBrasa)), Sample.twoTenants)
  /\ login "bea@example.com" "password123" Sample.twoTenants
     = (Ok None, Sample.twoTenants).
Proof.
  destruct (login_characterised Sample.twoTenants) as [_ [C N]].
  split.
  - destruct (C wf_twoTenants Sample.bea) as [r [Hr [Hid L]]]; [cbn; tauto|].
    cbn in Hr. destruct Hr as [<-|[<-|[]]]; [discriminate Hid | exact L].
  - apply N. intros u H. cbn in H.
    repeat (destruct H as [<-|H]; [cbn; intros; discriminate|]). contradiction.
Defined.

Section RegistrationRoundTrip.

Variable db : Db.

Lemma createRestaurant_ok_conditions (uuid1 uuid2 : string)
    (restaurantData : RestaurantData) (adminData : AdminData)
    (rid : string) (db' : Db) :
  createRestaurant uuid1 uuid2 restaurantData adminData db = (Ok rid, db') ->
  (forall u, In u (users db) -> (u_email u =? ad_email adminData) = false)
  /\ (forall r, In r (restaurants db) -> (r_id r =? uuid1) = false).
Proof.
  unfold createRestaurant. run.
  destruct (Nat.ltb 0 (count (fun u => u_email u =? ad_email adminData) (users db)))
    eqn:Ec; [discriminate|].
  unfold insertRestaurant. cbn [r_id].
  destruct (existsb (fun x => r_id x =? uuid1) (restaurants db)) eqn:Er;
    [discriminate|].
  intros _. split.
  - apply count_zero_iff. apply Nat.ltb_ge in Ec. lia.
  - now apply existsb_false_iff.
Qed.

Lemma findLogin_skip (l1 l2 : list (Restaurant * list User)) (email password : string) :
  (forall r us, In (r, us) l1 -> find (fun u => u_email u =? email) us = None) ->
  findLogin (l1 ++ l2) email password = findLogin l2 email password.
Proof.
  induction l1 as [|[r us] l IH]; intros H; [reflexivity|].
  cbn [app findLogin]. rewrite (H r us (or_introl eq_refl)).
  apply IH. intros r' us' Hin. apply (H r' us'). now right.
Qed.

Lemma find_last {A} (p : A -> bool) (l : list A) (x : A) :
  (forall y, In y l -> p y = false) -> p x = true -> find p (l ++ [x]) = Some x.
Proof.
  intros Hl Hx. induction l as [|y l IH]; cbn [app find].
  - now rewrite Hx.
  - rewrite (Hl y (or_introl eq_refl)). apply IH. intros z Hz. apply Hl. now right.
Qed.

(** X9. A registration that went through can be read back and used at once:
    [getRestaurantById] on the identifier returned gives the restaurant with
    the data supplied, and the login with the admin's email and password
    returns the new admin together with that restaurant. *)
Theorem registration_round_trip (uuid1 uuid2 : string)
    (restaurantData : RestaurantData) (adminData : AdminData)
    (rid : string) (db' : Db) :
  createRestaurant uuid1 uuid2 restaurantData adminData db = (Ok rid, db') ->
  let restaurant := mkRestaurant rid (rd_name restaurantData)
                                 (rd_address restaurantData)
                                 (rd_phone restaurantData) in
  getRestaurantById rid db' = (Ok (Some restaurant), db')
  /\ exists newAdmin,
       login (ad_email adminData) (ad_password adminData) db'
       = (Ok (Some (newAdmin, restaurant)), db')
       /\ In newAdmin (users db')
       /\ u_id newAdmin = uuid2
       /\ u_name newAdmin = ad_name adminData
       /\ u_restaurantId newAdmin = rid.
Proof.
  intros H.
  destruct (createRestaurant_ok_conditions _ _ _ _ _ _ H) as [Hmail Hfresh].
  apply createRestaurant_ok_inv in H. destruct H as [-> ->]. cbv zeta.
  unfold registered. split.
  - unfold getRestaurantById, query, findFirst.
    cbn [set_users set_restaurants restaurants].
    rewrite find_last; [reflexivity | exact Hfresh | apply String.eqb_refl].
  - eexists. split; [|split].
    + rewrite login_runs.
      cbn [set_users set_restaurants restaurants users].
      rewrite map_app. cbn [map r_id]. rewrite findLogin_skip.
      * cbn [findLogin]. rewrite filter_app. cbn [filter u_restaurantId].
        rewrite String.eqb_refl. rewrite find_last.
        -- cbn [u_password]. rewrite String.eqb_refl. reflexivity.
        -- intros y Hy. apply filter_In in Hy. apply Hmail. tauto.
        -- cbn [u_email]. apply String.eqb_refl.
      * intros r us Hin. apply in_map_iff in Hin. destruct Hin as [r' [E Hr']].
        injection E as E1 E2. subst r us. apply (proj2 (findFirst_None _ _)).
        intros x Hx. apply filter_In in Hx. destruct Hx as [Hx Hk].
        apply in_app_or in Hx. destruct Hx as [Hx|[<-|[]]]; [now apply Hmail|].
        cbn [u_restaurantId] in Hk. rewrite String.eqb_sym, (Hfresh r' Hr') in Hk.
        discriminate.
    + cbn [set_users users]. apply in_or_app. right. now left.
    + repeat split.
Qed.

End RegistrationRoundTrip.

Lemma registration_round_trip_witness :
  getRestaurantById "ra" Sample.afterA
  = (Ok (Some (mkRestaurant "ra" "A" "Calle A, 1" "910 000 001")), Sample.afterA)
  /\ exists newAdmin,
       login "alba@example.com" "secretoA" Sample.afterA
       = (Ok (Some (newAdmin, mkRestaurant "ra" "A" "Calle A, 1" "910 000 001")),
          Sample.afterA)
       /\ u_id newAdmin = "ua".
Proof.
  destruct (registration_round_trip emptyDb "ra" "ua" Sample.restaurantA
              Sample.adminA "ra" Sample.afterA eq_refl)
    as [G [newAdmin [L [_ [I _]]]]].
  split; [exact G|]. exists newAdmin. split; [exact L | exact I].
Defined.

Section Emergency.

Variable db : Db.

Lemma findSuperadmin_found (allRestaurants : list (Restaurant * list User))
    (r : Restaurant) (us : list User) (s : User) :
  In (r, us) allRestaurants -> In s us -> u_role s = superadmin ->
  exists s' r' us',
    findSuperadmin allRestaurants = Some s'
    /\ In (r', us') allRestaurants /\ In s' us' /\ u_role s' = superadmin.
Proof.
  induction allRestaurants as [|[r0 us0] rest IH]; intros Hin Hs Hr; [contradiction|].
  cbn [findSuperadmin].
  destruct (find (fun u => role_eqb (u_role u) superadmin) us0) as [found|] eqn:F.
  - apply find_some in F. destruct F as [Fin Fr]. apply role_eqb_eq in Fr.
    exists found, r0, us0. repeat split; auto. now left.
  - destruct Hin as [E|Hin].
    + inversion E; subst. exfalso.
      pose proof (find_none _ _ F s Hs) as N. cbn beta in N.
      rewrite Hr in N. discriminate.
    + destruct (IH Hin Hs Hr) as [s' [r' [us' [Hf [Hin' Hrest]]]]].
      exists s', r', us'. repeat split; try tauto. now right.
Qed.

Lemma findSuperadmin_none (allRestaurants : list (Restaurant * list User)) :
  (forall r us u, In (r, us) allRestaurants -> In u us -> u_role u <> superadmin) ->
  findSuperadmin allRestaurants = None.
Proof.
  induction allRestaurants as [|[r0 us0] rest IH]; intros H; [reflexivity|].
  cbn [findSuperadmin].
  destruct (find (fun u => role_eqb (u_role u) superadmin) us0) as [found|] eqn:F.
  - apply find_some in F. destruct F as [Fin Fr]. apply role_eqb_eq in Fr.
    exfalso. exact (H r0 us0 found (or_introl eq_refl) Fin Fr).
  - apply IH. intros r us u Hin. apply (H r us u). now right.
Qed.

(** X10. The emergency pair of the login form opens the account of a
    superadmin without looking at that account's email or password: whenever
    some restaurant has a superadmin, submitting the pair stores a superadmin
    of the database as the logged-in user, with the scope "all".  When no
    user is a superadmin the pair is refused, whoever owns it. *)
Theorem emergency_access (st : Session) :
  (forall s r,
     In r (restaurants db) -> In s (users db) ->
     u_role s = superadmin -> u_restaurantId s = r_id r ->
     exists s',
       In s' (users db) /\ u_role s' = superadmin
       /\ onSubmit "superadmin@example.com" "password123" st db
          = (Ok (Some (mkSession (Some s') (Some "all") (loggedInRestaurant st))),
             db))
  /\ ((forall u, In u (users db) -> u_role u <> superadmin) ->
      onSubmit "superadmin@example.com" "password123" st db = (Ok None, db)).
Proof.
  unfold onSubmit. rewrite !String.eqb_refl. cbn [andb].
  unfold getAllRestaurantsWithUsers. run. split.
  - intros s r Hr Hs Hrole Hid.
    destruct (findSuperadmin_found
                (map (fun r => (r, filter (fun u => u_restaurantId u =? r_id r)
                                          (users db))) (restaurants db))
                r (filter (fun u => u_restaurantId u =? r_id r) (users db)) s)
      as [s' [r' [us' [Hf [Hin [Hs' Hrole']]]]]]; auto.
    + apply in_map_iff. exists r. auto.
    + apply filter_In. split; [assumption|]. rewrite Hid. apply String.eqb_refl.
    + exists s'. rewrite Hf. repeat split; auto.
      apply in_map_iff in Hin. destruct Hin as [r'' [E _]]. inversion E; subst.
      apply filter_In in Hs'. tauto.
  - intros Hno. rewrite findSuperadmin_none; [reflexivity|].
    intros r us u Hin Hu. apply in_map_iff in Hin. destruct Hin as [r' [E _]].
    inversion E; subst. apply filter_In in Hu. apply Hno. tauto.
Qed.

End Emergency.

(** The only superadmin is Alba, whose email and password are others. *)
Lemma emergency_access_witness :
  exists s',
    u_email s' = "alba@example.com" /\ u_password s' = "secretoA"
    /\ onSubmit "superadmin@example.com" "password123" noSession Sample.afterA
       = (Ok (Some (mkSession (Some s') (Some "all") None)), Sample.afterA).
Proof.
  destruct (proj1 (emergency_access Sample.afterA noSession)
              (mkUser "ua" "Alba" "alba@example.com" "secretoA" superadmin "ra")
              (mkRestaurant "ra" "A" "Calle A, 1" "910 000 001"))
    as [s' [Hin [_ H]]]; [cbn; tauto | cbn; tauto | reflexivity | reflexivity |].
  exists s'. cbn in Hin. destruct Hin as [<-|[]].
  split; [reflexivity|]. split; [reflexivity | exact H].
Defined.

Section RoleAndPassword.

Variable db : Db.

(** X11. No guard protects the last superadmin against [updateUser]: giving
    the only superadmin another role succeeds and leaves the system without
    a superadmin. *)
Theorem updateUser_demotes_last_superadmin (s : User) (role : Role) :
  In s (users db) ->
  u_role s = superadmin ->
  count (fun u => role_eqb (u_role u) superadmin) (users db) = 1 ->
  role <> superadmin ->
  exists r db',
    updateUser (u_id s) (mkUserFields None None None (Some role) None) db
    = (Ok (Some r), db')
    /\ u_role r = role
    /\ count (fun u => role_eqb (u_role u) superadmin) (users db') = 0.
Proof.
  intros Hin Hs Hone Hrole.
  destruct (updateUser_target_found db (u_id s)
              (mkUserFields None None None (Some role) None) s Hin eq_refl)
    as [x [_ [_ Hrun]]]; try (cbn [f_email]; discriminate); [exact I|].
  eexists. eexists. split; [exact Hrun|]. split; [reflexivity|].
  cbn [set_users users]. apply count_zero_iff. intros v Hv.
  unfold usersAfterSet in Hv. apply in_map_iff in Hv. destruct Hv as [w [<- Hw]].
  destruct (u_id w =? u_id s) eqn:E.
  - unfold setFields. cbn [u_role f_role orElse].
    destruct (role_eqb role superadmin) eqn:R; [|reflexivity].
    apply role_eqb_eq in R. contradiction.
  - destruct (role_eqb (u_role w) superadmin) eqn:R; [|reflexivity]. exfalso.
    unfold count in Hone.
    assert (In w (filter (fun u => role_eqb (u_role u) superadmin) (users db)))
      as Iw by (apply filter_In; auto).
    assert (In s (filter (fun u => role_eqb (u_role u) superadmin) (users db)))
      as Is by (apply filter_In; split; [assumption | rewrite Hs; reflexivity]).
    destruct (filter _ (users db)) as [|y [|z l]]; try discriminate.
    destruct Iw as [<-|[]]. destruct Is as [<-|[]].
    rewrite String.eqb_refl in E. discriminate.
Qed.


End RoleAndPassword.

Lemma updateUser_demotes_last_superadmin_witness :
  exists r db',
    updateUser "u1" (mkUserFields None None None (Some waiter) None) Sample.twoTenants
    = (Ok (Some r), db')
    /\ u_role r = waiter
    /\ count (fun u => role_eqb (u_role u) superadmin) (users db') = 0.
Proof.
  apply (updateUser_demotes_last_superadmin Sample.twoTenants Sample.root waiter);
    [cbn; tauto | reflexivity | reflexivity | discriminate].
Defined.


Lemma updateUser_empty_email_witness :
  updateUser "u3" (mkUserFields None (Some "") None None None) Fixtures.blankEmail
  = (Throw ER_DUP_ENTRY, Fixtures.blankEmail).
Proof.
  apply (updateUser_empty_email Fixtures.blankEmail "u3"
           (mkUserFields None (Some "") None None None) eq_refl eq_refl).
  exists Fixtures.blank. split; [cbn; tauto|]. split; [discriminate | reflexivity].
Defined.

Lemma updateRestaurant_email_conflict_witness :
  updateRestaurant "r1" (mkRestaurantFields (Some "El Puerto") None None)
    (Some (mkAdminUpdate "u2" "vendedor@example.com" None)) Sample.twoTenants
  = (Throw EmailRegisteredByAnother, Sample.twoTenants).
Proof.
  apply (updateRestaurant_email_conflict Sample.twoTenants "r1"
           (mkRestaurantFields (Some "El Puerto") None None)
           (mkAdminUpdate "u2" "vendedor@example.com" None)).
  - discriminate.
  - exists Sample.luis. split; [cbn; tauto|]. split; [discriminate | reflexivity].
Defined.

(** ** The tenant-scoped store: creating, deleting, updating *)

Section StoreWrites.

Variable db : Db.

Lemma filter_snoc {A} (p : A -> bool) (l : list A) (x : A) :
  filter p (l ++ [x]) = if p x then filter p l ++ [x] else filter p l.
Proof.
  rewrite filter_app. cbn [filter]. destruct (p x); [reflexivity|].
  apply app_nil_r.
Qed.

Lemma filter_swap {A} (p q : A -> bool) (l : list A) :
  filter p (filter q l) = filter q (filter p l).
Proof.
  induction l as [|x l IH]; [reflexivity|].
  cbn [filter]. destruct (p x) eqn:P, (q x) eqn:Q; cbn [filter];
    rewrite ?P, ?Q, IH; reflexivity.
Qed.

Lemma filter_map_same {A} (q : A -> bool) (g : A -> A) (l : list A) :
  (forall x, q (g x) = q x) -> filter q (map g l) = map g (filter q l).
Proof.
  intros H. induction l as [|x l IH]; [reflexivity|].
  cbn [map filter]. rewrite H. destruct (q x); cbn [map]; now rewrite IH.
Qed.

Lemma addProduct_ok_inv (uuid : string) (product : NewProduct)
    (row : Product) (db' : Db) :
  addProduct uuid product db = (Ok row, db') ->
  row = mkProduct uuid (np_name product) (np_price product)
                  (np_category product) (np_restaurantId product)
  /\ db' = set_products (products db ++ [row]) db
  /\ existsb (fun x => p_id x =? uuid) (products db) = false
  /\ restaurantExists (np_restaurantId product) db = true.
Proof.
  unfold addProduct, insertProduct. run. cbn [p_id p_restaurantId].
  destruct (existsb (fun x => p_id x =? uuid) (products db)); [discriminate|].
  destruct (restaurantExists (np_restaurantId product) db); cbn [negb];
    [|discriminate].
  intros H. inversion H. auto.
Qed.

Lemma addCategory_ok_inv (uuid : string) (category : NewCategory)
    (row : Category) (db' : Db) :
  addCategory uuid category db = (Ok row, db') ->
  row = mkCategory uuid (nc_name category) (nc_restaurantId category)
  /\ db' = set_categories (categories db ++ [row]) db
  /\ existsb (fun x => c_id x =? uuid) (categories db) = false
  /\ restaurantExists (nc_restaurantId category) db = true.
Proof.
  unfold addCategory, insertCategory. run. cbn [c_id c_restaurantId].
  destruct (existsb (fun x => c_id x =? uuid) (categories db)); [discriminate|].
  destruct (restaurantExists (nc_restaurantId category) db); cbn [negb];
    [|discriminate].
  intros H. inversion H. auto.
Qed.

Lemma addCustomer_ok_inv (uuid : string) (customer : NewCustomer)
    (row : Customer) (db' : Db) :
  addCustomer uuid customer db = (Ok row, db') ->
  row = mkCustomer uuid (ncu_name customer) (ncu_email customer)
                   (ncu_phone customer) (ncu_restaurantId customer)
  /\ db' = set_customers (customers db ++ [row]) db
  /\ existsb (fun x => cu_id x =? uuid) (customers db) = false
  /\ restaurantExists (ncu_restaurantId customer) db = true.
Proof.
  unfold addCustomer, insertCustomer. run. cbn [cu_id cu_restaurantId].
  destruct (existsb (fun x => cu_id x =? uuid) (customers db)); [discriminate|].
  destruct (restaurantExists (ncu_restaurantId customer) db); cbn [negb];
    [|discriminate].
  intros H. inversion H. auto.
Qed.

Lemma addPurchase_ok_inv (uuid : string) (purchase : NewPurchase)
    (row : Purchase) (db' : Db) :
  addPurchase uuid purchase db = (Ok row, db') ->
  row = mkPurchase uuid (npu_productName purchase) (npu_supplier purchase)
                   (npu_quantity purchase) (npu_unitPrice purchase)
                   (npu_purchaseDate purchase) (npu_restaurantId purchase)
  /\ db' = set_purchases (purchases db ++ [row]) db
  /\ existsb (fun x => pu_id x =? uuid) (purchases db) = false
  /\ restaurantExists (npu_restaurantId purchase) db = true.
Proof.
  unfold addPurchase, insertPurchase. run. cbn [pu_id pu_restaurantId].
  destruct (existsb (fun x => pu_id x =? uuid) (purchases db)); [discriminate|].
  destruct (restaurantExists (npu_restaurantId purchase) db); cbn [negb];
    [|discriminate].
  rewrite purchaseView_same. intros H. inversion H. auto.
Qed.

Lemma addSale_ok_inv (uuid : string) (sale : NewSale) (row : Sale) (db' : Db) :
  addSale uuid sale db = (Ok row, db') ->
  row = mkSale uuid (ns_customerName sale) (ns_tableNumber sale) (ns_items sale)
               (ns_totalPrice sale) (ns_saleDate sale) (ns_userId sale)
               (ns_userName sale) (ns_restaurantId sale) (ns_status sale)
  /\ db' = set_sales (sales db ++ [row]) db
  /\ existsb (fun x => s_id x =? uuid) (sales db) = false
  /\ restaurantExists (ns_restaurantId sale) db = true.
Proof.
  unfold addSale, insertSale. run. cbn [s_id s_restaurantId].
  destruct (existsb (fun x => s_id x =? uuid) (sales db)); [discriminate|].
  destruct (restaurantExists (ns_restaurantId sale) db); cbn [negb];
    [|discriminate].
  rewrite saleView_same. intros H. inversion H. auto.
Qed.

Lemma list_after_insert {A} (key : A -> string) (scope : string)
    (rows : list A) (row : A) :
  (if scope =? "all" then rows ++ [row]
   else filter (fun r => key r =? scope) (rows ++ [row]))
  = if (scope =? "all") || (key row =? scope)
    then (if scope =? "all" then rows
          else filter (fun r => key r =? scope) rows) ++ [row]
    else (if scope =? "all" then rows
          else filter (fun r => key r =? scope) rows).
Proof.
  destruct (scope =? "all"); cbn [orb]; [reflexivity|].
  exact (filter_snoc (fun r => key r =? scope) rows row).
Qed.


End StoreWrites.


Section StoreDeletes.

Variable db : Db.

Lemma list_after_delete {A} (key : A -> string) (q : A -> bool)
    (scope : string) (rows : list A) :
  (if scope =? "all" then filter q rows
   else filter (fun r => key r =? scope) (filter q rows))
  = filter q (if scope =? "all" then rows
              else filter (fun r => key r =? scope) rows).
Proof.
  destruct (scope =? "all"); [reflexivity|]. apply filter_swap.
Qed.

(** X16. Deleting by identifier removes the rows with that identifier from
    every listing and nothing else: after [deleteProduct], [deleteCategory],
    [deleteCustomer], [deletePurchase] or [deleteSales], each listing, for
    any scope, is the listing before without the deleted identifiers, in the
    same order.  The deletions take no scope: they reach the rows of any
    restaurant. *)
Theorem delete_then_list (scope : string) :
  (forall id before,
     getProductsForRestaurant scope db = (Ok before, db) ->
     getProductsForRestaurant scope (snd (deleteProduct id db))
     = (Ok (filter (fun r => negb (p_id r =? id)) before),
        snd (deleteProduct id db)))
  /\ (forall id before,
        getCategoriesForRestaurant scope db = (Ok before, db) ->
        getCategoriesForRestaurant scope (snd (deleteCategory id db))
        = (Ok (filter (fun r => negb (c_id r =? id)) before),
           snd (deleteCategory id db)))
  /\ (forall id before,
        getCustomersForRestaurant scope db = (Ok before, db) ->
        getCustomersForRestaurant scope (snd (deleteCustomer id db))
        = (Ok (filter (fun r => negb (cu_id r =? id)) before),
           snd (deleteCustomer id db)))
  /\ (forall id before,
        getPurchasesForRestaurant scope db = (Ok before, db) ->
        getPurchasesForRestaurant scope (snd (deletePurchase id db))
        = (Ok (filter (fun r => negb (pu_id r =? id)) before),
           snd (deletePurchase id db)))
  /\ (forall ids before,
        getSalesForRestaurant scope db = (Ok before, db) ->
        getSalesForRestaurant scope (snd (deleteSales ids db))
        = (Ok (filter (fun r => negb (inArray ids (s_id r))) before),
           snd (deleteSales ids db))).
Proof.
  split; [|split; [|split; [|split]]]; intros id before Hb.
  - unfold getProductsForRestaurant, deleteProduct in *. revert Hb.
    destruct (scope =? "all"); run; intros Hb; inversion Hb; subst before;
      cbn [snd set_products products]; [reflexivity|].
    now rewrite filter_swap.
  - unfold getCategoriesForRestaurant, deleteCategory in *. revert Hb.
    destruct (scope =? "all"); run; intros Hb; inversion Hb; subst before;
      cbn [snd set_categories categories]; [reflexivity|].
    now rewrite filter_swap.
  - unfold getCustomersForRestaurant, deleteCustomer in *. revert Hb.
    destruct (scope =? "all"); run; intros Hb; inversion Hb; subst before;
      cbn [snd set_customers customers]; [reflexivity|].
    now rewrite filter_swap.
  - unfold getPurchasesForRestaurant, deletePurchase in *. revert Hb.
    destruct (scope =? "all"); run; rewrite ?map_purchaseView; intros Hb; inversion Hb; subst before;
      cbn [snd set_purchases purchases]; [reflexivity|].
    now rewrite filter_swap.
  - assert (sales (snd (deleteSales id db))
            = filter (fun x => negb (inArray id (s_id x))) (sales db)) as Hs.
    { unfold deleteSales. destruct id as [|i l]; cbn [length Nat.eqb].
      - cbn [ret snd]. induction (sales db) as [|x s IH]; [reflexivity|].
        cbn [filter inArray existsb negb]. f_equal. exact IH.
      - reflexivity. }
    unfold getSalesForRestaurant in *. revert Hb.
    destruct (scope =? "all"); run; rewrite ?map_saleView; intros Hb;
      inversion Hb; subst before; rewrite Hs; [reflexivity|].
    now rewrite filter_swap.
Qed.

Lemma deleteSales_sales (ids : list string) :
  sales (snd (deleteSales ids db))
  = filter (fun x => negb (inArray ids (s_id x))) (sales db).
Proof.
  unfold deleteSales. destruct ids as [|i ids]; cbn [length Nat.eqb].
  - cbn [ret snd]. induction (sales db) as [|x l IH]; [reflexivity|].
    cbn [filter inArray existsb negb]. f_equal. exact IH.
  - reflexivity.
Qed.

Lemma find_filter_out {A} (p q : A -> bool) (l : list A) :
  (forall x, p x = true -> q x = true) ->
  find p (filter q l) = find p l.
Proof.
  intros H. induction l as [|x l IH]; [reflexivity|].
  cbn [filter find]. destruct (p x) eqn:P.
  - rewrite (H x P). cbn [find]. now rewrite P.
  - destruct (q x); [cbn [find]; rewrite P|]; exact IH.
Qed.

Lemma find_filter_gone {A} (p q : A -> bool) (l : list A) :
  (forall x, p x = true -> q x = false) ->
  find p (filter q l) = None.
Proof.
  intros H. apply (proj2 (findFirst_None _ _)). intros x Hx.
  apply filter_In in Hx. destruct Hx as [_ Hq].
  destruct (p x) eqn:P; [|reflexivity]. rewrite (H x P) in Hq. discriminate.
Qed.

(** X17. After [deleteSales ids] a sale whose identifier is in [ids] is no
    longer found, and every other sale is found as before; with the empty
    list nothing is deleted; deleting [ids1 ++ ids2] at once leaves the sales
    that deleting [ids1] and then [ids2] leaves. *)
Theorem deleteSales_then_getSaleById (ids : list string) :
  fst (deleteSales ids db) = Ok tt
  /\ (forall id, inArray ids id = true ->
        fst (getSaleById id (snd (deleteSales ids db))) = Ok None)
  /\ (forall id, inArray ids id = false ->
        fst (getSaleById id (snd (deleteSales ids db)))
        = fst (getSaleById id db))
  /\ deleteSales [] db = (Ok tt, db)
  /\ (forall ids1 ids2,
        ids = ids1 ++ ids2 ->
        sales (snd (deleteSales ids db))
        = sales (snd (deleteSales ids2 (snd (deleteSales ids1 db))))).
Proof.
  split; [|split; [|split; [|split]]].
  - unfold deleteSales. destruct ids; reflexivity.
  - intros id Hin. unfold getSaleById. run. rewrite deleteSales_sales.
    unfold findFirst. rewrite find_filter_gone; [reflexivity|].
    intros x Hx. apply String.eqb_eq in Hx. now rewrite Hx, Hin.
  - intros id Hout. unfold getSaleById. run. rewrite deleteSales_sales.
    unfold findFirst. rewrite find_filter_out;
      [destruct (find _ (sales db)); reflexivity|].
    intros x Hx. apply String.eqb_eq in Hx. now rewrite Hx, Hout.
  - reflexivity.
  - intros ids1 ids2 ->.
    rewrite deleteSales_sales.
    assert (forall d l, sales (snd (deleteSales l d))
                        = filter (fun x => negb (inArray l (s_id x))) (sales d))
      as Hgen.
    { intros d l. unfold deleteSales. destruct l as [|i l]; cbn [length Nat.eqb].
      - cbn [ret snd]. induction (sales d) as [|x s IH]; [reflexivity|].
        cbn [filter inArray existsb negb]. f_equal. exact IH.
      - reflexivity. }
    rewrite (Hgen (snd (deleteSales ids1 db)) ids2), deleteSales_sales.
    induction (sales db) as [|x l IH]; [reflexivity|].
    cbn [filter]. unfold inArray at 1 3. rewrite existsb_app.
    fold (inArray ids1 (s_id x)). fold (inArray ids2 (s_id x)).
    destruct (inArray ids1 (s_id x)); cbn [orb negb filter]; [exact IH|].
    destruct (inArray ids2 (s_id x)); cbn [negb]; [exact IH | now rewrite IH].
Qed.

End StoreDeletes.

Lemma delete_then_list_witness :
  getSalesForRestaurant "all" (snd (deleteSales ["s2"; "s9"] Sample.twoTenants))
  = (Ok [Sample.mesa1], snd (deleteSales ["s2"; "s9"] Sample.twoTenants)).
Proof.
  exact (proj2 (proj2 (proj2 (proj2 (delete_then_list Sample.twoTenants "all"))))
           ["s2"; "s9"] [Sample.mesa1; Sample.mesa2] eq_refl).
Defined.

Lemma deleteSales_then_getSaleById_witness :
  fst (getSaleById "s2" (snd (deleteSales ["s2"] Sample.twoTenants))) = Ok None
  /\ fst (getSaleById "s1" (snd (deleteSales ["s2"] Sample.twoTenants)))
     = Ok (Some Sample.mesa1).
Proof.
  destruct (deleteSales_then_getSaleById Sample.twoTenants ["s2"])
    as [_ [G [K _]]].
  split; [apply G; reflexivity|]. rewrite K; reflexivity.
Defined.

Section StoreUpdates.

Variable db : Db.

Lemma list_ids_after_update {A} (key ident : A -> string) (g : A -> A)
    (scope : string) (rows : list A) :
  (forall x, key (g x) = key x) -> (forall x, ident (g x) = ident x) ->
  map ident (if scope =? "all" then map g rows
             else filter (fun r => key r =? scope) (map g rows))
  = map ident (if scope =? "all" then rows
               else filter (fun r => key r =? scope) rows)
  /\ map key (if scope =? "all" then map g rows
              else filter (fun r => key r =? scope) (map g rows))
     = map key (if scope =? "all" then rows
                else filter (fun r => key r =? scope) rows).
Proof.
  intros Hk Hi.
  assert (forall l, map ident (map g l) = map ident l) as Mi
    by (intros l; rewrite map_map; now apply map_ext).
  assert (forall l, map key (map g l) = map key l) as Mk
    by (intros l; rewrite map_map; now apply map_ext).
  destruct (scope =? "all"); [now rewrite Mi, Mk|].
  rewrite filter_map_same by (intros x; now rewrite Hk).
  now rewrite Mi, Mk.
Qed.

Lemma getProducts_runs (scope : string) (d : Db) :
  getProductsForRestaurant scope d
  = (Ok (if scope =? "all" then products d
         else filter (fun r => p_restaurantId r =? scope) (products d)), d).
Proof. unfold getProductsForRestaurant. now destruct (scope =? "all"). Qed.

Lemma getCategories_runs (scope : string) (d : Db) :
  getCategoriesForRestaurant scope d
  = (Ok (if scope =? "all" then categories d
         else filter (fun r => c_restaurantId r =? scope) (categories d)), d).
Proof. unfold getCategoriesForRestaurant. now destruct (scope =? "all"). Qed.

Lemma getCustomers_runs (scope : string) (d : Db) :
  getCustomersForRestaurant scope d
  = (Ok (if scope =? "all" then customers d
         else filter (fun r => cu_restaurantId r =? scope) (customers d)), d).
Proof. unfold getCustomersForRestaurant. now destruct (scope =? "all"). Qed.

Lemma getPurchases_runs (scope : string) (d : Db) :
  getPurchasesForRestaurant scope d
  = (Ok (if scope =? "all" then purchases d
         else filter (fun r => pu_restaurantId r =? scope) (purchases d)), d).
Proof.
  unfold getPurchasesForRestaurant.
  destruct (scope =? "all"); run; now rewrite map_purchaseView.
Qed.

Lemma getSales_runs (scope : string) (d : Db) :
  getSalesForRestaurant scope d
  = (Ok (if scope =? "all" then sales d
         else filter (fun r => s_restaurantId r =? scope) (sales d)), d).
Proof.
  unfold getSalesForRestaurant.
  destruct (scope =? "all"); run; now rewrite map_saleView.
Qed.

(** X18. No update of the store moves a row or renames it: whatever
    [updateProduct], [updateCategory], [updateCustomer], [updatePurchase],
    [updateSale] or [updateSaleStatus] returns, each listing, for any scope,
    shows the same identifiers and the same restaurants, in the same order,
    as before. *)
Theorem update_keeps_listing_ids (scope : string) (id : string) :
  (forall product o db',
     updateProduct id product db = (o, db') ->
     exists before after,
       getProductsForRestaurant scope db = (Ok before, db)
       /\ getProductsForRestaurant scope db' = (Ok after, db')
       /\ map p_id after = map p_id before
       /\ map p_restaurantId after = map p_restaurantId before)
  /\ (forall category o db',
     updateCategory id category db = (o, db') ->
     exists before after,
       getCategoriesForRestaurant scope db = (Ok before, db)
       /\ getCategoriesForRestaurant scope db' = (Ok after, db')
       /\ map c_id after = map c_id before
       /\ map c_restaurantId after = map c_restaurantId before)
  /\ (forall customer o db',
     updateCustomer id customer db = (o, db') ->
     exists before after,
       getCustomersForRestaurant scope db = (Ok before, db)
       /\ getCustomersForRestaurant scope db' = (Ok after, db')
       /\ map cu_id after = map cu_id before
       /\ map cu_restaurantId after = map cu_restaurantId before)
  /\ (forall purchase o db',
     updatePurchase id purchase db = (o, db') ->
     exists before after,
       getPurchasesForRestaurant scope db = (Ok before, db)
       /\ getPurchasesForRestaurant scope db' = (Ok after, db')
       /\ map pu_id after = map pu_id before
       /\ map pu_restaurantId after = map pu_restaurantId before)
  /\ (forall sale o db',
     updateSale id sale db = (o, db') ->
     exists before after,
       getSalesForRestaurant scope db = (Ok before, db)
       /\ getSalesForRestaurant scope db' = (Ok after, db')
       /\ map s_id after = map s_id before
       /\ map s_restaurantId after = map s_restaurantId before)
  /\ (forall status o db',
     updateSaleStatus id status db = (o, db') ->
     exists before after,
       getSalesForRestaurant scope db = (Ok before, db)
       /\ getSalesForRestaurant scope db' = (Ok after, db')
       /\ map s_id after = map s_id before
       /\ map s_restaurantId after = map s_restaurantId before).
Proof.
  split; [|split; [|split; [|split; [|split]]]].
  - intros f o db' H.
    set (g := fun x => if p_id x =? id then setProductFields f x else x).
    assert (forall x, p_restaurantId (g x) = p_restaurantId x) as Hk
      by (intros x; unfold g; destruct (p_id x =? id); reflexivity).
    assert (forall x, p_id (g x) = p_id x) as Hi
      by (intros x; unfold g; destruct (p_id x =? id); reflexivity).
    assert (db' = set_products (map g (products db)) db) as ->.
    { revert H. unfold updateProduct, updateProducts. run.
      repeat match goal with
             | |- context [match findFirst ?p ?l with _ => _ end] =>
                 destruct (findFirst p l)
             end; intros H; inversion H; reflexivity. }
    rewrite !getProducts_runs. eexists. eexists. split; [reflexivity|].
    split; [reflexivity|]. cbn [set_products products].
    apply (list_ids_after_update p_restaurantId p_id g scope (products db) Hk Hi).
  - intros f o db' H.
    set (g := fun x => if c_id x =? id then setCategoryFields f x else x).
    assert (forall x, c_restaurantId (g x) = c_restaurantId x) as Hk
      by (intros x; unfold g; destruct (c_id x =? id); reflexivity).
    assert (forall x, c_id (g x) = c_id x) as Hi
      by (intros x; unfold g; destruct (c_id x =? id); reflexivity).
    assert (db' = set_categories (map g (categories db)) db) as ->.
    { revert H. unfold updateCategory, updateCategories. run.
      repeat match goal with
             | |- context [match findFirst ?p ?l with _ => _ end] =>
                 destruct (findFirst p l)
             end; intros H; inversion H; reflexivity. }
    rewrite !getCategories_runs. eexists. eexists. split; [reflexivity|].
    split; [reflexivity|]. cbn [set_categories categories].
    apply (list_ids_after_update c_restaurantId c_id g scope (categories db) Hk Hi).
  - intros f o db' H.
    set (g := fun x => if cu_id x =? id then setCustomerFields f x else x).
    assert (forall x, cu_restaurantId (g x) = cu_restaurantId x) as Hk
      by (intros x; unfold g; destruct (cu_id x =? id); reflexivity).
    assert (forall x, cu_id (g x) = cu_id x) as Hi
      by (intros x; unfold g; destruct (cu_id x =? id); reflexivity).
    assert (db' = set_customers (map g (customers db)) db) as ->.
    { revert H. unfold updateCustomer, updateCustomers. run.
      repeat match goal with
             | |- context [match findFirst ?p ?l with _ => _ end] =>
                 destruct (findFirst p l)
             end; intros H; inversion H; reflexivity. }
    rewrite !getCustomers_runs. eexists. eexists. split; [reflexivity|].
    split; [reflexivity|]. cbn [set_customers customers].
    apply (list_ids_after_update cu_restaurantId cu_id g scope (customers db) Hk Hi).
  - intros f o db' H.
    set (g := fun x => if pu_id x =? id then setPurchaseFields f x else x).
    assert (forall x, pu_restaurantId (g x) = pu_restaurantId x) as Hk
      by (intros x; unfold g; destruct (pu_id x =? id); reflexivity).
    assert (forall x, pu_id (g x) = pu_id x) as Hi
      by (intros x; unfold g; destruct (pu_id x =? id); reflexivity).
    assert (db' = set_purchases (map g (purchases db)) db) as ->.
    { revert H. unfold updatePurchase, updatePurchases. run.
      repeat match goal with
             | |- context [match findFirst ?p ?l with _ => _ end] =>
                 destruct (findFirst p l)
             end; intros H; inversion H; reflexivity. }
    rewrite !getPurchases_runs. eexists. eexists. split; [reflexivity|].
    split; [reflexivity|]. cbn [set_purchases purchases].
    apply (list_ids_after_update pu_restaurantId pu_id g scope (purchases db) Hk Hi).
  - intros f o db' H.
    set (g := fun x => if s_id x =? id then setSaleFields f x else x).
    assert (forall x, s_restaurantId (g x) = s_restaurantId x) as Hk
      by (intros x; unfold g; destruct (s_id x =? id); reflexivity).
    assert (forall x, s_id (g x) = s_id x) as Hi
      by (intros x; unfold g; destruct (s_id x =? id); reflexivity).
    assert (db' = set_sales (map g (sales db)) db) as ->.
    { revert H. unfold updateSale, updateSales, fetchUpdatedSale. run.
      repeat match goal with
             | |- context [match findFirst ?p ?l with _ => _ end] =>
                 destruct (findFirst p l)
             end; intros H; inversion H; reflexivity. }
    rewrite !getSales_runs. eexists. eexists. split; [reflexivity|].
    split; [reflexivity|]. cbn [set_sales sales].
    apply (list_ids_after_update s_restaurantId s_id g scope (sales db) Hk Hi).
  - intros f o db' H.
    set (g := fun x => if s_id x =? id then setSaleFields (mkSaleFields None None None None None None None (Some f)) x else x).
    assert (forall x, s_restaurantId (g x) = s_restaurantId x) as Hk
      by (intros x; unfold g; destruct (s_id x =? id); reflexivity).
    assert (forall x, s_id (g x) = s_id x) as Hi
      by (intros x; unfold g; destruct (s_id x =? id); reflexivity).
    assert (db' = set_sales (map g (sales db)) db) as ->.
    { revert H. unfold updateSaleStatus, updateSales, fetchUpdatedSale. run.
      repeat match goal with
             | |- context [match findFirst ?p ?l with _ => _ end] =>
                 destruct (findFirst p l)
             end; intros H; inversion H; reflexivity. }
    rewrite !getSales_runs. eexists. eexists. split; [reflexivity|].
    split; [reflexivity|]. cbn [set_sales sales].
    apply (list_ids_after_update s_restaurantId s_id g scope (sales db) Hk Hi).
Qed.

Lemma map_unchanged {A} (g : A -> A) (l : list A) :
  (forall x, In x l -> g x = x) -> map g l = l.
Proof.
  intros H. rewrite <- (map_id l) at 2. now apply map_ext_in.
Qed.

Lemma absent_unchanged {A} (ident : A -> string) (id : string)
    (h : A -> A) (l : list A) :
  existsb (fun x => ident x =? id) l = false ->
  map (fun x => if ident x =? id then h x else x) l = l.
Proof.
  intros H. apply map_unchanged. intros x Hx.
  now rewrite (proj1 (existsb_false_iff _ _) H x Hx).
Qed.

Lemma absent_not_found {A} (ident : A -> string) (id : string) (l : list A) :
  existsb (fun x => ident x =? id) l = false ->
  findFirst (fun x => ident x =? id) l = None.
Proof.
  intros H. apply findFirst_None. now apply existsb_false_iff.
Qed.

(** X19. Updating an identifier that no row has writes nothing, and the six
    updates answer in two ways: [updateProduct], [updateCategory] and
    [updateCustomer] return [undefined], while [updatePurchase], [updateSale]
    and [updateSaleStatus] fail with a [TypeError] on reading a field of the
    row they did not find.  (Updates that set at least one column.) *)
Theorem update_missing_id (id : string) :
  (existsb (fun x => p_id x =? id) (products db) = false ->
   forall product, product <> mkProductFields None None None ->
     updateProduct id product db = (Ok None, db))
  /\ (existsb (fun x => c_id x =? id) (categories db) = false ->
      forall category, category <> mkCategoryFields None ->
        updateCategory id category db = (Ok None, db))
  /\ (existsb (fun x => cu_id x =? id) (customers db) = false ->
      forall customer, customer <> mkCustomerFields None None None ->
        updateCustomer id customer db = (Ok None, db))
  /\ (existsb (fun x => pu_id x =? id) (purchases db) = false ->
      forall purchase, purchase <> mkPurchaseFields None None None None None ->
        updatePurchase id purchase db = (Ok TypeError, db))
  /\ (existsb (fun x => s_id x =? id) (sales db) = false ->
      (forall sale,
         sale <> mkSaleFields None None None None None None None None ->
         updateSale id sale db = (Ok TypeError, db))
      /\ (forall status, updateSaleStatus id status db = (Ok TypeError, db))).
Proof.
  split; [|split; [|split; [|split]]]; intros Habs.
  - intros f _. unfold updateProduct, updateProducts. run.
    rewrite absent_unchanged by assumption. cbn [set_products products].
    rewrite absent_not_found by assumption. now destruct db.
  - intros f _. unfold updateCategory, updateCategories. run.
    rewrite absent_unchanged by assumption. cbn [set_categories categories].
    rewrite absent_not_found by assumption. now destruct db.
  - intros f _. unfold updateCustomer, updateCustomers. run.
    rewrite absent_unchanged by assumption. cbn [set_customers customers].
    rewrite absent_not_found by assumption. now destruct db.
  - intros f _. unfold updatePurchase, updatePurchases. run.
    rewrite absent_unchanged by assumption. cbn [set_purchases purchases].
    rewrite absent_not_found by assumption. now destruct db.
  - split; [intros f _|intros status];
      unfold updateSale, updateSaleStatus, updateSales, fetchUpdatedSale; run;
      rewrite absent_unchanged by assumption; cbn [set_sales sales];
      rewrite absent_not_found by assumption; now destruct db.
Qed.

(** X20. [updateSaleStatus] on an existing sale touches the status and
    nothing else: it returns the sale found with the new status, every sale
    with the identifier has the new status afterwards, and the items, totals,
    customers, tables, dates, recording users and restaurants of all sales,
    the sales with another identifier, and all other tables are as before. *)
Theorem updateSaleStatus_only_status (id : string) (status : Status) (sale : Sale) :
  findFirst (fun x => s_id x =? id) (sales db) = Some sale ->
  exists db',
    updateSaleStatus id status db
    = (Ok (Found (mkSale (s_id sale) (s_customerName sale) (s_tableNumber sale)
                         (s_items sale) (s_totalPrice sale) (s_saleDate sale)
                         (s_userId sale) (s_userName sale) (s_restaurantId sale)
                         status)), db')
    /\ (forall x, In x (sales db') -> s_id x = id -> s_status x = status)
    /\ (forall x, In x (sales db) -> s_id x <> id -> In x (sales db'))
    /\ map s_id (sales db') = map s_id (sales db)
    /\ map s_items (sales db') = map s_items (sales db)
    /\ map s_totalPrice (sales db') = map s_totalPrice (sales db)
    /\ map s_customerName (sales db') = map s_customerName (sales db)
    /\ map s_tableNumber (sales db') = map s_tableNumber (sales db)
    /\ map s_saleDate (sales db') = map s_saleDate (sales db)
    /\ map s_userId (sales db') = map s_userId (sales db)
    /\ map s_userName (sales db') = map s_userName (sales db)
    /\ map s_restaurantId (sales db') = map s_restaurantId (sales db)
    /\ products db' = products db
    /\ restaurants db' = restaurants db
    /\ users db' = users db.
Proof.
  intros Hf.
  set (g := fun x => if s_id x =? id
                     then setSaleFields (mkSaleFields None None None None None
                                                      None None (Some status)) x
                     else x).
  assert (findFirst (fun x => s_id x =? id) (map g (sales db)) = Some (g sale)) as Hg.
  { unfold findFirst in *. clear -Hf. induction (sales db) as [|y l IH];
      [discriminate|]. cbn [map find] in *.
    assert (s_id (g y) = s_id y) as -> by (unfold g; now destruct (s_id y =? id)).
    destruct (s_id y =? id); [now inversion Hf | now apply IH]. }
  destruct (findFirst_In _ _ _ Hf) as [_ Hid].
  exists (set_sales (map g (sales db)) db). split.
  - unfold updateSaleStatus, updateSales, fetchUpdatedSale. run.
    cbn [set_sales sales]. fold g. rewrite Hg. unfold ret. rewrite saleView_same.
    unfold g. rewrite Hid. reflexivity.
  - cbn [set_sales sales products restaurants users].
    split; [|split; [|repeat split]].
    + intros x Hx Hxid. apply in_map_iff in Hx. destruct Hx as [y [<- _]].
      unfold g in *. destruct (s_id y =? id) eqn:E; [reflexivity|].
      apply String.eqb_neq in E. contradiction.
    + intros x Hx Hne. apply in_map_iff. exists x. split; [|assumption].
      unfold g. apply String.eqb_neq in Hne. now rewrite Hne.
    + rewrite map_map. apply map_ext. intros x. unfold g. now destruct (s_id x =? id).
    + rewrite map_map. apply map_ext. intros x. unfold g. now destruct (s_id x =? id).
    + rewrite map_map. apply map_ext. intros x. unfold g. now destruct (s_id x =? id).
    + rewrite map_map. apply map_ext. intros x. unfold g. now destruct (s_id x =? id).
    + rewrite map_map. apply map_ext. intros x. unfold g. now destruct (s_id x =? id).
    + rewrite map_map. apply map_ext. intros x. unfold g. now destruct (s_id x =? id).
    + rewrite map_map. apply map_ext. intros x. unfold g. now destruct (s_id x =? id).
    + rewrite map_map. apply map_ext. intros x. unfold g. now destruct (s_id x =? id).
    + rewrite map_map. apply map_ext. intros x. unfold g. now destruct (s_id x =? id).
Qed.

(** X21. A sale that was created is read back as it was stored, items in
    the order given, and stays so when products are edited or deleted
    afterwards: the items of a sale are a copy, not a reference to the
    products. *)
Theorem addSale_round_trip (uuid : string) (sale : NewSale)
    (stored : Sale) (db' : Db) :
  addSale uuid sale db = (Ok stored, db') ->
  getSaleById uuid db' = (Ok (Some stored), db')
  /\ s_items stored = ns_items sale
  /\ s_totalPrice stored = ns_totalPrice sale
  /\ (forall pid product,
        fst (getSaleById uuid (snd (updateProduct pid product db')))
        = Ok (Some stored))
  /\ (forall pid,
        fst (getSaleById uuid (snd (deleteProduct pid db'))) = Ok (Some stored)).
Proof.
  intros H. apply addSale_ok_inv in H. destruct H as [Hrow [-> [Hfresh _]]].
  assert (findFirst (fun x => s_id x =? uuid) (sales db ++ [stored]) = Some stored)
    as Hfind.
  { unfold findFirst. apply find_last.
    - now apply existsb_false_iff.
    - rewrite Hrow. cbn [s_id]. apply String.eqb_refl. }
  assert (forall d, sales d = sales db ++ [stored] ->
                    getSaleById uuid d = (Ok (Some stored), d)) as Hget.
  { intros d Hd. unfold getSaleById. run. rewrite Hd, Hfind. unfold ret.
    now rewrite saleView_same. }
  split; [now apply Hget|]. split; [now rewrite Hrow|]. split; [now rewrite Hrow|].
  split.
  - intros pid product. rewrite Hget; [reflexivity|].
    unfold updateProduct, updateProducts. run. reflexivity.
  - intros pid. rewrite Hget; reflexivity.
Qed.

End StoreUpdates.

Lemma update_keeps_listing_ids_witness :
  exists before after,
    getSalesForRestaurant "r1" Sample.twoTenants = (Ok before, Sample.twoTenants)
    /\ getSalesForRestaurant "r1" (snd (updateSaleStatus "s1" pending Sample.twoTenants))
       = (Ok after, snd (updateSaleStatus "s1" pending Sample.twoTenants))
    /\ map s_id after = map s_id before.
Proof.
  destruct (update_keeps_listing_ids Sample.twoTenants "r1" "s1")
    as [_ [_ [_ [_ [_ H]]]]].
  destruct (H pending _ _ eq_refl) as [before [after [B [A [I _]]]]].
  exists before, after. auto.
Defined.

Lemma update_missing_id_witness :
  updateProduct "p9" (mkProductFields (Some "Flan") None None) Sample.twoTenants
  = (Ok None, Sample.twoTenants)
  /\ updateSaleStatus "s9" paid Sample.twoTenants = (Ok TypeError, Sample.twoTenants).
Proof.
  destruct (update_missing_id Sample.twoTenants "p9") as [P _].
  destruct (update_missing_id Sample.twoTenants "s9") as [_ [_ [_ [_ S]]]].
  split.
  - apply P; [reflexivity | discriminate].
  - apply S. reflexivity.
Defined.

Lemma updateSaleStatus_only_status_witness :
  exists db',
    updateSaleStatus "s2" paid Sample.twoTenants
    = (Ok (Found (mkSale "s2" "Pablo" "2"
                         [mkOrderItem "p2" "Chuleton" 3200%Z 1%Z] 3200%Z 0%Z
                         "u5" "Teo" "r2" paid)), db')
    /\ map s_totalPrice (sales db') = [2500%Z; 3200%Z].
Proof.
  destruct (updateSaleStatus_only_status Sample.twoTenants "s2" paid Sample.mesa2
              eq_refl) as [db' [R [_ [_ [_ [_ [T _]]]]]]].
  exists db'. split; [exact R | exact T].
Defined.

Lemma addSale_round_trip_witness :
  exists stored db',
    addSale "s3" Sample.consistent Sample.twoTenants = (Ok stored, db')
    /\ getSaleById "s3" db' = (Ok (Some stored), db')
    /\ s_items stored = Sample.scenarioItems.
Proof.
  assert (exists stored db',
            addSale "s3" Sample.consistent Sample.twoTenants = (Ok stored, db'))
    as [stored [db' H]] by (eexists; eexists; reflexivity).
  exists stored, db'. split; [exact H|].
  destruct (addSale_round_trip Sample.twoTenants "s3" Sample.consistent stored db' H)
    as [G [I _]].
  split; [exact G | exact I].
Defined.

(** ** The browser side *)

Section Browser.

Variable db : Db.

(** X22. The navigation grows with the role: every link a waiter sees a
    seller sees, every link a seller sees an admin sees, and every link an
    admin sees a superadmin sees; the link to the superadmin page is shown to
    a superadmin only, the links to users and categories to admins and
    superadmins only; and without a user there is no link. *)
Theorem menuItems_by_role (u v : User) (item : MenuItem) :
  ((u_role u = waiter /\ u_role v = seller)
   \/ (u_role u = seller /\ u_role v = admin)
   \/ (u_role u = admin /\ u_role v = superadmin) ->
   In item (menuItems (Some u)) -> In item (menuItems (Some v)))
  /\ (In item (menuItems (Some u)) -> href item = "/dashboard/superadmin" ->
      u_role u = superadmin)
  /\ (In item (menuItems (Some u)) ->
      href item = "/dashboard/usuarios" \/ href item = "/dashboard/categorias" ->
      u_role u = superadmin \/ u_role u = admin)
  /\ menuItems None = [].
Proof.
  unfold menuItems. split; [|split; [|split; [|reflexivity]]].
  - intros [[-> ->]|[[-> ->]|[-> ->]]] H; cbn in *; tauto.
  - intros H Hh. destruct (u_role u); [reflexivity| | |]; exfalso; cbn in H;
      repeat (destruct H as [<-|H]; [discriminate Hh|]); contradiction.
  - intros H Hh. destruct (u_role u); [now left | now right | |]; exfalso;
      cbn in H; destruct Hh as [Hh|Hh];
      repeat (destruct H as [<-|H]; [discriminate Hh|]); contradiction.
Qed.

Lemma findSuperadmin_sound (allRestaurants : list (Restaurant * list User))
    (s : User) :
  findSuperadmin allRestaurants = Some s ->
  u_role s = superadmin
  /\ exists r us, In (r, us) allRestaurants /\ In s us.
Proof.
  induction allRestaurants as [|[r0 us0] rest IH]; [discriminate|].
  cbn [findSuperadmin].
  destruct (find (fun u => role_eqb (u_role u) superadmin) us0) as [found|] eqn:F.
  - intros H. inversion H; subst. apply find_some in F. destruct F as [Fin Fr].
    apply role_eqb_eq in Fr. split; [assumption|]. exists r0, us0.
    split; [now left | assumption].
  - intros H. destruct (IH H) as [Hr [r [us [Hin Hs]]]].
    split; [assumption|]. exists r, us. split; [now right | assumption].
Qed.

Lemma in_allRestaurants (r : Restaurant) (us : list User) (u : User) :
  In (r, us)
     (map (fun r => (r, filter (fun u => u_restaurantId u =? r_id r) (users db)))
          (restaurants db)) ->
  In u us -> In u (users db) /\ In r (restaurants db) /\ u_restaurantId u = r_id r.
Proof.
  intros Hin Hu. apply in_map_iff in Hin. destruct Hin as [r' [E Hr]].
  injection E as E1 E2. subst r us. apply filter_In in Hu. destruct Hu as [Hu Hk].
  apply String.eqb_eq in Hk. auto.
Qed.

(** X23. The login form never writes the key [loggedInRestaurant], the one
    the dashboard layout reads for every role but superadmin.  Whenever the
    form lets a user in, that user is a user of the database; for a
    superadmin the layout then shows the scope "all", and for any other role
    it shows whatever [loggedInRestaurant] held before the login: no
    restaurant at all when the key was not set. *)
Theorem layout_after_login (email password : string) (st st' : Session) (db' : Db) :
  onSubmit email password st db = (Ok (Some st'), db') ->
  db' = db
  /\ loggedInRestaurant st' = loggedInRestaurant st
  /\ exists u,
       loggedInUser st' = Some u
       /\ In u (users db)
       /\ layoutEffect st'
          = Some (u, if role_eqb (u_role u) superadmin then Some "all"
                     else present (loggedInRestaurant st))
       /\ (u_role u <> superadmin -> loggedInRestaurant st = None ->
           layoutEffect st' = Some (u, None)).
Proof.
  unfold onSubmit, getAllRestaurantsWithUsers.
  destruct ((email =? "superadmin@example.com") && (password =? "password123")).
  - run.
    destruct (findSuperadmin _) as [s|] eqn:F; unfold ret; intros H;
      [|discriminate]. injection H as Hst Hdb. subst st' db'.
    apply findSuperadmin_sound in F. destruct F as [Hr [r [us [Hin Hs]]]].
    destruct (in_allRestaurants r us s Hin Hs) as [Hu _].
    repeat split. exists s. unfold layoutEffect.
    cbn [loggedInUser activeRestaurantId loggedInRestaurant].
    rewrite Hr. cbn [role_eqb]. repeat split; auto.
    intros N. contradiction.
  - run.
    destruct (findLogin _ email password) as [[u r]|] eqn:F; unfold ret; intros H;
      [|discriminate]. injection H as Hst Hdb. subst st' db'.
    apply findLogin_sound in F. destruct F as [us [Hin [Hu _]]].
    destruct (in_allRestaurants r us u Hin Hu) as [Hu' _].
    repeat split. exists u. unfold layoutEffect, restaurantIdToSet.
    cbn [loggedInUser activeRestaurantId loggedInRestaurant].
    destruct (role_eqb (u_role u) superadmin) eqn:E.
    + repeat split; auto. intros N. apply role_eqb_eq in E. contradiction.
    + repeat split; auto. intros _ ->. reflexivity.
Qed.

Lemma fetchData_runs (scope : string) (d : Db) :
  fetchData scope d
  = (Ok (if scope =? "all" then sales d
         else filter (fun r => s_restaurantId r =? scope) (sales d),
         if scope =? "all" then products d
         else filter (fun r => p_restaurantId r =? scope) (products d),
         if scope =? "all" then customers d
         else filter (fun r => cu_restaurantId r =? scope) (customers d)), d).
Proof.
  unfold fetchData, bind.
  rewrite getSales_runs, getProducts_runs, getCustomers_runs. reflexivity.
Qed.

Lemma informesData_authorized (st : Session) (user : User) (scope : string) (d : Db) :
  informesEffect st = Authorized user scope ->
  informesData st d
  = (Ok (Some (if scope =? "all" then sales d
               else filter (fun r => s_restaurantId r =? scope) (sales d),
               if scope =? "all" then products d
               else filter (fun r => p_restaurantId r =? scope) (products d),
               if scope =? "all" then customers d
               else filter (fun r => cu_restaurantId r =? scope) (customers d))),
     d).
Proof.
  intros H. unfold informesData. rewrite H. unfold bind.
  now rewrite fetchData_runs.
Qed.

(** X24. From login to the reports page, in a database that meets the
    schema's constraints: a user who logs in with the own email and stored
    password (other than the emergency pair) is stored as the logged-in
    user; the reports page then loads every sale, product and customer for a
    superadmin, nothing for a waiter, and for an admin or seller exactly the
    rows of the user's restaurant. *)
Theorem login_then_informes (u : User) (st : Session) :
  wf db ->
  In u (users db) ->
  (u_email u =? "superadmin@example.com") && (u_password u =? "password123") = false ->
  u_restaurantId u <> "" ->
  u_restaurantId u <> "all" ->
  exists st',
    onSubmit (u_email u) (u_password u) st db = (Ok (Some st'), db)
    /\ loggedInUser st' = Some u
    /\ informesData st' db
       = (Ok (match u_role u with
              | superadmin => Some (sales db, products db, customers db)
              | waiter => None
              | _ =>
                  Some (filter (fun r => s_restaurantId r =? u_restaurantId u)
                               (sales db),
                        filter (fun r => p_restaurantId r =? u_restaurantId u)
                               (products db),
                        filter (fun r => cu_restaurantId r =? u_restaurantId u)
                               (customers db))
              end), db).
Proof.
  intros W Hu Hpair Hne Hall.
  pose proof (wf_user_restaurant db W u Hu) as Hr.
  apply in_map_iff in Hr. destruct Hr as [r [Hid Hr]].
  unfold onSubmit, getAllRestaurantsWithUsers. rewrite Hpair. run.
  rewrite (findLogin_complete (users db) (restaurants db) u r); auto;
    [|apply (wf_user_emails db W)|apply (wf_restaurant_ids db W)].
  eexists. split; [reflexivity|]. split; [reflexivity|].
  apply String.eqb_neq in Hne, Hall.
  destruct (u_role u) eqn:E.
  - rewrite (informesData_authorized _ u "all").
    + reflexivity.
    + unfold informesEffect, restaurantIdToSet.
      cbn [loggedInUser activeRestaurantId]. rewrite E. reflexivity.
  - rewrite (informesData_authorized _ u (u_restaurantId u)).
    + now rewrite Hall.
    + unfold informesEffect, restaurantIdToSet, present, truthy.
      cbn [loggedInUser activeRestaurantId]. rewrite E. cbn [role_eqb].
      now rewrite Hid, Hne.
  - rewrite (informesData_authorized _ u (u_restaurantId u)).
    + now rewrite Hall.
    + unfold informesEffect, restaurantIdToSet, present, truthy.
      cbn [loggedInUser activeRestaurantId]. rewrite E. cbn [role_eqb].
      now rewrite Hid, Hne.
  - unfold informesData, informesEffect, restaurantIdToSet, present, truthy.
    cbn [loggedInUser activeRestaurantId]. rewrite E. cbn [role_eqb].
    now rewrite Hid, Hne.
Qed.

(** X25. The restaurant selector: choosing the empty value or the restaurant
    already active changes nothing; any other choice is stored as the active
    restaurant, and the layout of a superadmin and the reports page then
    work on that choice, the reports page loading exactly its rows when the
    choice is not "all". *)
Theorem handleRestaurantChange_scopes (newId : string) (active : option string)
    (st : Session) (u : User) :
  loggedInUser st = Some u ->
  u_role u = superadmin ->
  (newId = "" \/ active = Some newId ->
   handleRestaurantChange newId active st = (active, st))
  /\ (newId <> "" -> active <> Some newId ->
      exists st',
        handleRestaurantChange newId active st = (Some newId, st')
        /\ layoutEffect st' = Some (u, Some newId)
        /\ (newId <> "all" ->
            informesData st' db
            = (Ok (Some (filter (fun r => s_restaurantId r =? newId) (sales db),
                         filter (fun r => p_restaurantId r =? newId) (products db),
                         filter (fun r => cu_restaurantId r =? newId)
                                (customers db))), db))).
Proof.
  intros Hu Hr. unfold handleRestaurantChange. split.
  - intros [-> | ->]; [reflexivity|]. rewrite String.eqb_refl.
    now rewrite orb_true_r.
  - intros Hne Hact. apply String.eqb_neq in Hne.
    assert (truthy newId = true) as Ht by (unfold truthy; now rewrite Hne).
    rewrite Ht. cbn [negb orb].
    assert (match active with Some a => newId =? a | None => false end = false)
      as ->.
    { destruct active as [a|]; [|reflexivity]. apply String.eqb_neq.
      intros E. apply Hact. now subst. }
    eexists. split; [reflexivity|].
    unfold layoutEffect, informesData, informesEffect.
    cbn [loggedInUser activeRestaurantId present]. rewrite Hu, Hr, Ht.
    cbn [role_eqb orElse]. split; [reflexivity|].
    intros Hall. apply String.eqb_neq in Hall. unfold bind.
    rewrite fetchData_runs, Hall. reflexivity.
Qed.

End Browser.

Lemma menuItems_by_role_witness :
  In (mkMenuItem "/dashboard/menu" [superadmin; admin; seller; waiter])
     (menuItems (Some Sample.luis)).
Proof.
  apply (proj1 (menuItems_by_role Sample.teo Sample.luis
                  (mkMenuItem "/dashboard/menu" [superadmin; admin; seller; waiter]))).
  - left. split; reflexivity.
  - cbn. tauto.
Defined.

Lemma layout_after_login_witness :
  layoutEffect (mkSession (Some Sample.ana) (Some "r1") None)
  = Some (Sample.ana, None).
Proof.
  destruct (layout_after_login Sample.twoTenants "admin@example.com" "password123"
              noSession (mkSession (Some Sample.ana) (Some "r1") None)
              Sample.twoTenants eq_refl)
    as [_ [_ [u [Hu [_ [L _]]]]]].
  cbn [loggedInUser] in Hu. inversion Hu; subst u. exact L.
Defined.

Lemma login_then_informes_witness :
  exists st',
    onSubmit "vendedor@example.com" "password123" noSession Sample.twoTenants
    = (Ok (Some st'), Sample.twoTenants)
    /\ informesData st' Sample.twoTenants
       = (Ok (Some ([Sample.mesa1], [Sample.paella], [Sample.marta])),
          Sample.twoTenants).
Proof.
  destruct (login_then_informes Sample.twoTenants Sample.luis noSession
              wf_twoTenants)
    as [st' [L [_ I]]];
    [cbn; tauto | reflexivity | discriminate | discriminate |].
  exists st'. split; [exact L | exact I].
Defined.

Lemma handleRestaurantChange_scopes_witness :
  exists st',
    handleRestaurantChange "r2" (Some "all")
      (mkSession (Some Sample.root) (Some "all") None) = (Some "r2", st')
    /\ informesData st' Sample.twoTenants
       = (Ok (Some ([Sample.mesa2], [Sample.chuleton], [Sample.pablo])),
          Sample.twoTenants).
Proof.
  destruct (proj2 (handleRestaurantChange_scopes Sample.twoTenants "r2" (Some "all")
                     (mkSession (Some Sample.root) (Some "all") None) Sample.root
                     eq_refl eq_refl))
    as [st' [H [_ I]]]; [discriminate | discriminate |].
  exists st'. split; [exact H|]. apply I. discriminate.
Defined.

(** ** The connection singleton *)

(** X26. [getDb] hands out one connection handle per process: once a call has
    succeeded, every later call returns the same handle and leaves the
    process as it is, whatever has become of [DATABASE_URL] and of the pool
    factory; a call opens at most one pool, and none when a pool or a handle
    exists already; and a call that fails changes nothing. *)
Theorem getDb_singleton (createPoolThrows : string -> bool) (p p' : Process) :
  (forall h,
     getDb createPoolThrows p = (inl h, p') ->
     global_db p' = Some h
     /\ (forall later url,
           getDb later (mkProcess (global_db p') (pool p') url (poolsOpened p'))
           = (inl h, mkProcess (global_db p') (pool p') url (poolsOpened p')))
     /\ poolsOpened p' <= S (poolsOpened p)
     /\ (global_db p <> None \/ pool p <> None -> poolsOpened p' = poolsOpened p))
  /\ (forall e,
        getDb createPoolThrows p = (inr e, p') ->
        p' = p /\ global_db p = None
        /\ (e = DatabaseUrlNotConfigured <-> present (DATABASE_URL p) = None)).
Proof.
  unfold getDb. split.
  - intros h.
    destruct (global_db p) as [g|] eqn:G.
    { intros H. injection H as Hh Hp. subst g p'. rewrite G.
      repeat split; auto. }
    destruct (present (DATABASE_URL p)) as [url|]; [|discriminate].
    destruct (pool p) as [existing|] eqn:P.
    { intros H. injection H as Hh Hp. subst h p'. cbn [global_db poolsOpened].
      repeat split; auto. }
    destruct (createPoolThrows url); [discriminate|].
    intros H. injection H as Hh Hp. subst h p'. cbn [global_db poolsOpened].
    repeat split; auto. intros [N|N]; contradiction.
  - intros e.
    destruct (global_db p) as [g|] eqn:G; [discriminate|].
    destruct (present (DATABASE_URL p)) as [url|].
    + destruct (pool p) as [existing|]; [discriminate|].
      destruct (createPoolThrows url); [|discriminate].
      intros H. injection H as He Hp. subst e p'.
      repeat split; auto; discriminate.
    + intros H. injection H as He Hp. subst e p'. repeat split; auto.
Qed.

Lemma getDb_singleton_witness :
  exists h p',
    getDb (fun _ => false) Fixtures.fresh = (inl h, p')
    /\ getDb (fun _ => true) (mkProcess (global_db p') (pool p') None (poolsOpened p'))
       = (inl h, mkProcess (global_db p') (pool p') None (poolsOpened p'))
    /\ poolsOpened p' = 1.
Proof.
  assert (exists h p', getDb (fun _ => false) Fixtures.fresh = (inl h, p'))
    as [h [p' H]] by (eexists; eexists; reflexivity).
  exists h, p'. split; [exact H|].
  destruct (proj1 (getDb_singleton (fun _ => false) Fixtures.fresh p') h H)
    as [_ [L _]].
  split; [apply L|]. injection H as _ <-. reflexivity.
Defined.

(** ** Creating and deleting again *)

Section RoundTrips.

Variable db : Db.

Lemma filter_drop_last {A} (ident : A -> string) (id : string)
    (l : list A) (x : A) :
  existsb (fun y => ident y =? id) l = false -> ident x = id ->
  filter (fun y => negb (ident y =? id)) (l ++ [x]) = l.
Proof.
  intros Hl Hx. rewrite filter_app. cbn [filter]. rewrite Hx, String.eqb_refl.
  cbn [negb]. rewrite app_nil_r.
  induction l as [|y l IH]; [reflexivity|].
  cbn [existsb] in Hl. apply orb_false_iff in Hl. destruct Hl as [Hy Hl].
  cbn [filter]. rewrite Hy. cbn [negb]. now rewrite IH.
Qed.

Lemma addUser_ok_inv (uuid : string) (userData : NewUser) (u : User) (db' : Db) :
  addUser uuid userData db = (Ok u, db') ->
  u = mkUser uuid (nu_name userData) (nu_email userData) (nu_password userData)
             (nu_role userData) (nu_restaurantId userData)
  /\ db' = set_users (users db ++ [u]) db
  /\ existsb (fun x => u_id x =? uuid) (users db) = false.
Proof.
  unfold addUser, insertUser. run. cbn [u_id u_email u_restaurantId].
  destruct (Nat.ltb 0 _); [discriminate|].
  destruct (existsb (fun x => u_id x =? uuid) (users db)); [discriminate|].
  destruct (existsb _ (users db)); [discriminate|].
  destruct (restaurantExists _ db); cbn [negb]; [|discriminate].
  intros H. inversion H. auto.
Qed.

Lemma find_app_found {A} (p : A -> bool) (l1 l2 : list A) (x : A) :
  find p l1 = Some x -> find p (l1 ++ l2) = Some x.
Proof.
  induction l1 as [|y l IH]; [discriminate|].
  cbn [app find]. destruct (p y); [trivial | exact IH].
Qed.

(** X27. A user just added can be removed again by a superadmin, whatever
    the role given, and the database is then exactly the one before the
    [addUser]. *)
Theorem addUser_then_deleteUser (uuid currentUserId : string) (userData : NewUser)
    (actor u : User) (db1 : Db) :
  findFirst (fun x => u_id x =? currentUserId) (users db) = Some actor ->
  u_role actor = superadmin ->
  addUser uuid userData db = (Ok u, db1) ->
  deleteUser uuid currentUserId db1 = (Ok tt, db).
Proof.
  intros Ha Hr H. apply addUser_ok_inv in H. destruct H as [Hu [-> Hfresh]].
  destruct (findFirst_In _ _ _ Ha) as [Hain Haid]. apply String.eqb_eq in Haid.
  assert (uuid <> currentUserId) as Hne.
  { intros E. rewrite <- E in Haid.
    pose proof (proj1 (existsb_false_iff _ _) Hfresh actor Hain) as N.
    cbn beta in N. rewrite Haid, String.eqb_refl in N. discriminate. }
  assert (u_id u = uuid) as Hid by (rewrite Hu; reflexivity).
  unfold deleteUser, deleteUsers. apply String.eqb_neq in Hne. rewrite Hne. run.
  cbn [set_users users]. unfold findFirst in *.
  rewrite (find_last (fun x => u_id x =? uuid) (users db) u);
    [|now apply existsb_false_iff | rewrite Hid; apply String.eqb_refl].
  cbn beta iota. cbn [set_users users].
  rewrite (find_app_found _ _ _ _ Ha). cbn [option_map]. rewrite Hr.
  assert (filter (fun x => negb (u_id x =? uuid)) (users db ++ [u]) = users db)
    as Hback by (now apply filter_drop_last).
  assert (1 < count (fun x => role_eqb (u_role x) superadmin) (users db ++ [u])
          \/ role_eqb (u_role u) superadmin = false) as Hcount.
  { destruct (role_eqb (u_role u) superadmin) eqn:E; [left | now right].
    apply (count_two _ _ actor u).
    - apply in_or_app. now left.
    - apply in_or_app. right. now left.
    - intros F. apply String.eqb_neq in Hne. congruence.
    - rewrite Hr. reflexivity.
    - exact E. }
  destruct (role_eqb (u_role u) superadmin) eqn:E.
  - destruct Hcount as [Hc|Hc]; [|discriminate].
    apply Nat.leb_gt in Hc. cbn beta iota. cbn [set_users users].
    rewrite Hc. unfold ret. cbn beta iota. cbn [set_users users].
    rewrite Hback. now destruct db.
  - unfold ret. cbn [set_users users]. rewrite Hback. now destruct db.
Qed.

(** X28. A row of the store that was just created and is deleted again
    leaves the database exactly as it was before the creation, for products,
    categories, customers, purchases and sales alike. *)
Theorem add_then_delete (uuid : string) :
  (forall product row db1,
     addProduct uuid product db = (Ok row, db1) ->
     deleteProduct uuid db1 = (Ok tt, db))
  /\ (forall category row db1,
        addCategory uuid category db = (Ok row, db1) ->
        deleteCategory uuid db1 = (Ok tt, db))
  /\ (forall customer row db1,
        addCustomer uuid customer db = (Ok row, db1) ->
        deleteCustomer uuid db1 = (Ok tt, db))
  /\ (forall purchase row db1,
        addPurchase uuid purchase db = (Ok row, db1) ->
        deletePurchase uuid db1 = (Ok tt, db))
  /\ (forall sale row db1,
        addSale uuid sale db = (Ok row, db1) ->
        deleteSales [uuid] db1 = (Ok tt, db)).
Proof.
  split; [|split; [|split; [|split]]]; intros new row db1 H.
  - apply addProduct_ok_inv in H. destruct H as [Hrow [-> [Hfresh _]]].
    unfold deleteProduct. cbn [set_products products].
    rewrite filter_drop_last; [now destruct db | assumption | now rewrite Hrow].
  - apply addCategory_ok_inv in H. destruct H as [Hrow [-> [Hfresh _]]].
    unfold deleteCategory. cbn [set_categories categories].
    rewrite filter_drop_last; [now destruct db | assumption | now rewrite Hrow].
  - apply addCustomer_ok_inv in H. destruct H as [Hrow [-> [Hfresh _]]].
    unfold deleteCustomer. cbn [set_customers customers].
    rewrite filter_drop_last; [now destruct db | assumption | now rewrite Hrow].
  - apply addPurchase_ok_inv in H. destruct H as [Hrow [-> [Hfresh _]]].
    unfold deletePurchase. cbn [set_purchases purchases].
    rewrite filter_drop_last; [now destruct db | assumption | now rewrite Hrow].
  - apply addSale_ok_inv in H. destruct H as [Hrow [-> [Hfresh _]]].
    unfold deleteSales. cbn [length Nat.eqb set_sales sales].
    assert (filter (fun x => negb (inArray [uuid] (s_id x))) (sales db ++ [row])
            = filter (fun x => negb (s_id x =? uuid)) (sales db ++ [row])) as ->.
    { apply filter_ext. intros x. unfold inArray. cbn [existsb].
      now rewrite orb_false_r. }
    rewrite filter_drop_last; [now destruct db | assumption | now rewrite Hrow].
Qed.

(** X29. A registration followed by the deletion of the restaurant it
    created leaves, in a database that meets the schema's constraints, the
    restaurants and the users there were before: the cascade takes the new
    admin and nobody else. *)
Theorem createRestaurant_then_deleteRestaurant (uuid1 uuid2 : string)
    (restaurantData : RestaurantData) (adminData : AdminData)
    (rid : string) (db1 : Db) :
  wf db ->
  createRestaurant uuid1 uuid2 restaurantData adminData db = (Ok rid, db1) ->
  exists db2,
    deleteRestaurant rid db1 = (Ok tt, db2)
    /\ restaurants db2 = restaurants db
    /\ users db2 = users db.
Proof.
  intros W H.
  destruct (createRestaurant_ok_conditions db _ _ _ _ _ _ H) as [_ Hfresh].
  apply createRestaurant_ok_inv in H. destruct H as [-> ->].
  unfold deleteRestaurant, deleteRestaurants, registered.
  assert (existsb (fun r => r_id r =? uuid1) (restaurants db) = false) as Hex
    by (now apply existsb_false_iff).
  unfold restaurantExists. cbn [set_users set_restaurants restaurants users
                                 categories products customers purchases sales].
  rewrite existsb_app. cbn [existsb r_id]. rewrite String.eqb_refl.
  rewrite !orb_true_r.
  eexists. split; [reflexivity|]. cbn [restaurants users]. split.
  - now apply filter_drop_last.
  - rewrite filter_app. cbn [filter u_restaurantId]. rewrite String.eqb_refl.
    cbn [negb]. rewrite app_nil_r.
    clear -W Hex. pose proof (wf_user_restaurant db W) as Hfk.
    induction (users db) as [|u l IH]; [reflexivity|].
    cbn [filter].
    assert ((u_restaurantId u =? uuid1) = false) as ->.
    { apply String.eqb_neq. intros E.
      apply (not_in_keys r_id uuid1 (restaurants db) Hex).
      rewrite <- E. apply Hfk. now left. }
    cbn [negb]. rewrite IH; [reflexivity|].
    intros v Hv. apply Hfk. now right.
Qed.

End RoundTrips.

Lemma addUser_then_deleteUser_witness :
  exists u db1,
    addUser "u6" Sample.eva Sample.twoTenants = (Ok u, db1)
    /\ deleteUser "u6" "u1" db1 = (Ok tt, Sample.twoTenants).
Proof.
  assert (exists u db1, addUser "u6" Sample.eva Sample.twoTenants = (Ok u, db1))
    as [u [db1 H]].
  { exists (mkUser "u6" "Eva" "eva@example.com" "secreto3" seller "r1").
    exists (set_users (users Sample.twoTenants
                       ++ [mkUser "u6" "Eva" "eva@example.com" "secreto3" seller "r1"])
                      Sample.twoTenants).
    reflexivity. }
  exists u, db1. split; [exact H|].
  exact (addUser_then_deleteUser Sample.twoTenants "u6" "u1" Sample.eva
           Sample.root u db1 eq_refl eq_refl H).
Defined.

Lemma add_then_delete_witness :
  exists row db1,
    addSale "s3" Sample.consistent Sample.twoTenants = (Ok row, db1)
    /\ deleteSales ["s3"] db1 = (Ok tt, Sample.twoTenants).
Proof.
  assert (exists row db1,
            addSale "s3" Sample.consistent Sample.twoTenants = (Ok row, db1))
    as [row [db1 H]] by (eexists; eexists; reflexivity).
  exists row, db1. split; [exact H|].
  exact (proj2 (proj2 (proj2 (proj2 (add_then_delete Sample.twoTenants "s3"))))
           _ _ _ H).
Defined.

Lemma createRestaurant_then_deleteRestaurant_witness :
  exists db2,
    deleteRestaurant "rb" (registered Sample.twoTenants "rb" "ub" Sample.restaurantB
                                      Sample.adminB admin) = (Ok tt, db2)
    /\ users db2 = users Sample.twoTenants.
Proof.
  destruct (createRestaurant_then_deleteRestaurant Sample.twoTenants "rb" "ub"
              Sample.restaurantB Sample.adminB "rb"
              (registered Sample.twoTenants "rb" "ub" Sample.restaurantB
                          Sample.adminB admin) wf_twoTenants eq_refl)
    as [db2 [D [_ U]]].
  exists db2. split; [exact D | exact U].
Defined.

(** ** The reports page *)

(** X30. The two product tables of the reports page never show the same
    entry of the ranking twice: the ranking is the best sellers, then the
    entries shown in neither table, then the least sellers read backwards.
    Each table has at most five rows, and with five products or fewer the
    table of least sellers is empty. *)
Theorem product_tables_split {A} (productSales : list A) :
  (exists middle,
     productSales
     = bestSellingProductsData productSales ++ middle
       ++ rev (leastSellingProductsData productSales))
  /\ length (bestSellingProductsData productSales) = Nat.min 5 (length productSales)
  /\ length (leastSellingProductsData productSales)
     = Nat.min 5 (length productSales - 5)
  /\ (length productSales <= 5 ->
      bestSellingProductsData productSales = productSales
      /\ leastSellingProductsData productSales = []).
Proof.
  unfold bestSellingProductsData, leastSellingProductsData, sliceLast.
  split; [|split; [|split]].
  - exists (firstn (length (skipn 5 productSales) - 5) (skipn 5 productSales)).
    rewrite rev_involutive, firstn_skipn, firstn_skipn. reflexivity.
  - apply length_firstn.
  - rewrite length_rev, !length_skipn. lia.
  - intros Hlen. split.
    + apply firstn_all2. exact Hlen.
    + rewrite (skipn_all2 productSales) by exact Hlen. reflexivity.
Qed.

Lemma product_tables_split_witness :
  bestSellingProductsData [1; 2; 3] = [1; 2; 3]
  /\ leastSellingProductsData [1; 2; 3] = []
  /\ leastSellingProductsData [1; 2; 3; 4; 5; 6; 7] = [7; 6].
Proof.
  destruct (product_tables_split [1; 2; 3]) as [_ [_ [_ H]]].
  destruct H as [B L]; [cbn; lia|].
  split; [exact B|]. split; [exact L | reflexivity].
Defined.
